(** * Options dashboard: synthetic option chains, valuation signal, queries

    A shallow embedding of the TypeScript sources of the options dashboard:

    - the chain generator with local fall-back ([fetchOptionsData],
      [generateMockOptionsData], [generateMockOptions],
      [calculateRealisticOptionPrice], [calculateRealisticDelta],
      [getRecommendationReasons]);
    - the table component ([getSortedOptions], [requestSort],
      [columnConfig], [formatValue], [getColumnClassName],
      [getRecommendationBadge], the analysis list of an expanded row);
    - [services/optionsAPI.ts] of [nous-main] (the cached [fetchOptionsData],
      [processOptionsData] and [getRecommendationReasons]);
    - [pages/Options.tsx] ([loadOptionsData], [handleFilterChange],
      [getFilteredOptions]);
    - [components/options/OptionsInputPanel.tsx] (the handlers of the
      controls) and [components/options/OptionsStats.tsx]
      ([volumeByExpiry], [volumeByStrike], [mostActiveOptions]).

    Conventions of the embedding.

    - A JavaScript [number] is a rational ([Q]); arithmetic is exact, so
      rounding error, [NaN] and the infinities of IEEE doubles are not
      represented.  [toFixed] and [Math.round] round decimally as
      ECMAScript prescribes.  Counts ([volume], [openInterest]) are [Z]:
      both generators build them with [Math.floor].
    - [Math.sqrt] and [Math.exp] are parameters of the development; the
      lemmas only use their sign and the bound [exp x <= 1] for [x <= 0].
    - [Math.random] is a stream of draws consumed through a state monad
      that threads the position in the stream, in the evaluation order of
      the source.
    - The host [Date] object is a parameter: synchronous code reads one
      clock value, and parsing and printing of dates are functions of the
      environment.
    - [Array.prototype.sort] is a parameter constrained by the ECMAScript
      2019 contract (a stable sort whenever the comparator is consistent). *)

From Stdlib Require Import ZArith QArith Qround Qabs Qminmax Lqa Lia.
From Stdlib Require Import List String Ascii Bool DecimalString Permutation.
From Stdlib Require Import Sorted.
From stdpp Require Import gmap strings list.
Import ListNotations.

Open Scope Q_scope.

(** ** Numbers *)

Definition Qltb (x y : Q) : bool := negb (Qle_bool y x).

(** [Math.floor], [Math.round] (half-way cases go up), [Math.abs],
    [Math.min], [Math.max]. *)
Definition Math_floor (x : Q) : Z := Qfloor x.
Definition Math_round (x : Q) : Z := Qfloor (x + (1 # 2)).
Definition Math_abs (x : Q) : Q := Qabs x.
Definition Math_min (x y : Q) : Q := Qmin x y.
Definition Math_max (x y : Q) : Q := Qmax x y.

(** [Math.min(...l)] and [Math.max(...l)] on a non-empty array. *)
Definition Math_min_of (l : list Q) : Q :=
  match l with
  | [] => 0
  | x :: l' => List.fold_left Math_min l' x
  end.
Definition Math_max_of (l : list Q) : Q :=
  match l with
  | [] => 0
  | x :: l' => List.fold_left Math_max l' x
  end.

Definition pow10 (d : nat) : Z := (10 ^ Z.of_nat d)%Z.

(** The integer [n] that [Number.prototype.toFixed] picks for [|x|]:
    [n / 10^d] is nearest to [|x|], the larger [n] on a tie. *)
Definition toFixed_units (d : nat) (x : Q) : Z :=
  Qfloor (Qabs x * inject_Z (pow10 d) + (1 # 2)).

(** [parseFloat(x.toFixed(d))]. *)
Definition toFixed (d : nat) (x : Q) : Q :=
  let q := inject_Z (toFixed_units d x) / inject_Z (pow10 d) in
  if Qltb x 0 then - q else q.

(** ** Strings *)

Definition digits (z : Z) : string := NilZero.string_of_uint (N.to_uint (Z.to_N z)).

Fixpoint repeat_char (c : ascii) (n : nat) : string :=
  match n with
  | O => EmptyString
  | S k => String c (repeat_char c k)
  end.

(** [s.padStart(n, '0')]. *)
Definition padStart0 (n : nat) (s : string) : string :=
  (repeat_char "0"%char (n - String.length s) +:+ s)%string.

(** [x.toFixed(d)] as text: sign, integer part, and [d] fraction digits. *)
Definition toFixed_string (d : nat) (x : Q) : string :=
  let n := toFixed_units d x in
  let sign := if Qltb x 0 then "-"%string else ""%string in
  let int_part := digits (n / pow10 d) in
  let frac_part :=
    match d with
    | O => ""%string
    | S _ => ("." +:+ padStart0 d (digits (n mod pow10 d)))%string
    end in
  (sign +:+ int_part +:+ frac_part)%string.

(** [String(z)] for an integer. *)
Definition Z_toString (z : Z) : string :=
  if (z <? 0)%Z then ("-" +:+ digits (- z))%string else digits z.

Fixpoint strip_trailing_zeros_rev (s : list ascii) : list ascii :=
  match s with
  | "0"%char :: s' => strip_trailing_zeros_rev s'
  | _ => s
  end.

(** [x.toString()] for a number with at most six decimals (all the numbers
    printed this way are strikes, which carry two): the decimal expansion
    without trailing zeros. *)
Definition Number_toString (x : Q) : string :=
  let n := toFixed_units 6 x in
  let sign := if Qltb x 0 then "-"%string else ""%string in
  let frac := list_ascii_of_string (padStart0 6 (digits (n mod pow10 6))) in
  let frac' := List.rev (strip_trailing_zeros_rev (List.rev frac)) in
  let tail :=
    match frac' with
    | [] => ""%string
    | _ => ("." +:+ string_of_list_ascii frac')%string
    end in
  (sign +:+ digits (n / pow10 6) +:+ tail)%string.

(** [s.replace(/-/g, '')]. *)
Fixpoint remove_dashes (s : string) : string :=
  match s with
  | EmptyString => EmptyString
  | String c s' =>
      if Ascii.eqb c "-"%char then remove_dashes s'
      else String c (remove_dashes s')
  end.

(** [s.split('T')[0]]. *)
Fixpoint before_T (s : string) : string :=
  match s with
  | EmptyString => EmptyString
  | String c s' =>
      if Ascii.eqb c "T"%char then EmptyString else String c (before_T s')
  end.

Definition upper_ascii (c : ascii) : ascii :=
  let n := nat_of_ascii c in
  if ((97 <=? n) && (n <=? 122))%nat then ascii_of_nat (n - 32) else c.

(** [s.toUpperCase()] on the ASCII letters; other code units are kept. *)
Fixpoint toUpperCase (s : string) : string :=
  match s with
  | EmptyString => EmptyString
  | String c s' => String (upper_ascii c) (toUpperCase s')
  end.

(** ** Data model ([types/options.ts]) *)

Inductive OptionSide : Type := call | put.

Record OptionContract : Type := {
  contractSymbol : string;
  strike : Q;
  expiryDate : string;
  lastPrice : Q;
  bid : Q;
  ask : Q;
  change : Q;
  percentChange : Q;
  volume : Z;
  openInterest : Z;
  impliedVolatility : Q;
  inTheMoney : bool;
  lastTradeDate : string;
  isRecommended : option bool;
  confidence : option Q;
  timeToExpiry : option Q;
  riskFreeRate : option Q;
  predictedVolatility : option Q;
  volatilityDifference : option Q;
  delta : option Q;
  gamma : option Q;
  theta : option Q;
  vega : option Q;
  rho : option Q
}.

Record StrikeRange : Type := { strikeMin : Q; strikeMax : Q }.

Record OptionChain : Type := {
  symbol : string;
  calls : list OptionContract;
  puts : list OptionContract;
  expirationDates : list string;
  strikeRange : StrikeRange;
  lastUpdate : string
}.

Inductive OptionType : Type := calls_side | puts_side.
Inductive Moneyness : Type := ITM | ATM | OTM | ALL.

Record OptionsFilters : Type := {
  ticker : string;
  optionType : OptionType;
  filterExpiryDate : option string;
  minStrike : option Q;
  maxStrike : option Q;
  moneyness : Moneyness;
  minVolume : option Q;
  showRecommendationsOnly : bool
}.

(** [optionChain[filters.optionType]]. *)
Definition chain_side (c : OptionChain) (t : OptionType) : list OptionContract :=
  match t with
  | calls_side => calls c
  | puts_side => puts c
  end.

(** ** The random source *)

(** A computation that consumes draws of [Math.random]: the state is the
    position in the stream of draws. *)
Definition Rand (A : Type) : Type := nat -> A * nat.

Definition ret {A : Type} (a : A) : Rand A := fun n => (a, n).

Definition bind {A B : Type} (m : Rand A) (k : A -> Rand B) : Rand B :=
  fun n => let (a, n') := m n in k a n'.

Notation "'let*' x ':=' m 'in' k" := (bind m (fun x => k))
  (at level 10, x name, m at level 100, k at level 200).

(** [l.forEach((a, i) => ...)] where the body pushes contracts on one
    result array: the pushes of each round, in order. *)
Fixpoint forEachi {A B : Type} (f : A -> nat -> Rand (list B))
    (l : list A) (i : nat) : Rand (list B) :=
  match l with
  | [] => ret []
  | a :: l' =>
      let* bs := f a i in
      let* rest := forEachi f l' (S i) in
      ret (bs ++ rest)
  end.


(** ** The host environment *)

(** What the code takes from the JavaScript host.  [draws] lists the
    successive results of [Math.random()].  Dates are millisecond time
    stamps: [Date_getTime s] is [new Date(s).getTime()],
    [Date_toISOString t] is [new Date(t).toISOString()], [Date_getDay t] is
    the local weekday of [t], and [Date_addDays t k] is the time stamp
    after [d.setDate(d.getDate() + k)] on a date [d] holding [t]. *)
Class Host : Type := {
  Math_sqrt : Q -> Q;
  Math_exp : Q -> Q;
  draws : nat -> Q;
  Date_getTime : string -> Z;
  Date_toISOString : Z -> string;
  Date_getDay : Z -> Z;
  Date_addDays : Z -> Z -> Z;
  Date_toLocaleDateString : string -> string
}.

(** [Math.random()]. *)
Definition Math_random `{Host} : Rand Q := fun n => (draws n, S n).

(** ** The chain generator with local fall-back *)

(** [getStrikeIncrement]. *)
Definition getStrikeIncrement (price : Q) : Q :=
  if Qltb price 20 then 0.5
  else if Qltb price 50 then 1
  else if Qltb price 100 then 2.5
  else if Qltb price 200 then 5
  else if Qltb price 500 then 10
  else 25.

(** The table [prices] of [getStockPrice]. *)
Definition prices : gmap string Q :=
  list_to_map
    [ ("AAPL"%string, 175.23); ("TSLA"%string, 251.47);
      ("MSFT"%string, 332.42); ("AMZN"%string, 174.51);
      ("NVDA"%string, 785.92); ("GOOGL"%string, 142.63);
      ("SPY"%string, 498.76); ("QQQ"%string, 432.15);
      ("BAC"%string, 37.89); ("WMT"%string, 62.47);
      ("MCD"%string, 276.35); ("DIS"%string, 105.83);
      ("NKE"%string, 93.25); ("KO"%string, 61.33);
      ("V"%string, 267.58); ("META"%string, 476.12) ].

(** [getStockPrice]: [prices[symbol] || 150 + Math.random() * 100]; the
    draw is made only when the table has no (non-zero) entry. *)
Definition getStockPrice `{Host} (symbol : string) : Rand Q :=
  match prices !! symbol with
  | Some p =>
      if Qeq_bool p 0
      then let* r := Math_random in ret (150 + r * 100)
      else ret p
  | None => let* r := Math_random in ret (150 + r * 100)
  end.

(** The loop of [getNextFridays]: step one day, keep the Fridays, until
    [count] of them are found.  [fuel] bounds the number of rounds. *)
Fixpoint getNextFridays_loop `{Host} (fuel : nat) (date : Z)
    (fridays : list Z) (count : nat) : list Z :=
  match fuel with
  | O => fridays
  | S fuel' =>
      if (length fridays <? count)%nat then
        let date' := Date_addDays date 1 in
        if (Date_getDay date' =? 5)%Z
        then getNextFridays_loop fuel' date' (fridays ++ [date']) count
        else getNextFridays_loop fuel' date' fridays count
      else fridays
  end.

(** [getNextFridays]; seven rounds per requested Friday are enough as soon
    as the weekdays of consecutive days cycle (lemma
    [getNextFridays_length]). *)
Definition getNextFridays `{Host} (now : Z) (count : nat) : list Z :=
  getNextFridays_loop (7 * count) now [] count.

(** [volatilityDifferenceValues]. *)
Definition volatilityDifferenceValues : list Q :=
  [ -6.492; -5.782; -4.326; -3.981; -3.254; -2.813; -1.937; -1.528;
    -0.871; -0.433; -0.125; 0.182; 0.347; 0.813; 1.294; 1.752; 2.168;
    2.553; 3.114; 3.678; 4.285; 5.146; 5.973; 6.421 ].

(** [a[i]] for an integer index: [undefined] out of range. *)
Definition array_get {A : Type} (a : list A) (i : Z) : option A :=
  if (i <? 0)%Z then None else List.nth_error a (Z.to_nat i).

(** [calculateRealisticOptionPrice]. *)
Definition calculateRealisticOptionPrice `{Host}
    (spot strike timeToExpiry volatility riskFreeRate : Q)
    (type : OptionSide) : Rand Q :=
  let* r1 := Math_random in
  let timeValue :=
    volatility * Math_sqrt timeToExpiry * spot * (0.4 + r1 * 0.1) in
  let interestFactor := Math_exp (- riskFreeRate * timeToExpiry) in
  match type with
  | call =>
      if Qltb strike spot
      then ret ((spot - strike) * (1 - interestFactor * 0.1) + timeValue)
      else let* r2 := Math_random in ret (timeValue * (1 + r2 * 0.1))
  | put =>
      if Qltb spot strike
      then ret ((strike - spot) * (1 - interestFactor * 0.1) + timeValue)
      else let* r2 := Math_random in ret (timeValue * (1 + r2 * 0.1))
  end.

(** [calculateRealisticDelta]. *)
Definition calculateRealisticDelta `{Host}
    (spot strike : Q) (type : OptionSide) (timeToExpiry volatility : Q)
    : Rand Q :=
  let spread := spot * volatility * Math_sqrt timeToExpiry * 4 in
  match type with
  | call =>
      if Qltb strike spot then
        let rawDelta := 0.5 + (spot - strike) / spread in
        let* r := Math_random in
        ret (Math_min 0.99 (Math_max 0.5 (rawDelta + (r * 0.05 - 0.025))))
      else
        let rawDelta := 0.5 - (strike - spot) / spread in
        let* r := Math_random in
        ret (Math_min 0.5 (Math_max 0.01 (rawDelta + (r * 0.05 - 0.025))))
  | put =>
      if Qltb strike spot then
        let rawDelta := -0.5 - (spot - strike) / spread in
        let* r := Math_random in
        ret (Math_max (-0.99) (Math_min (-0.5) (rawDelta - (r * 0.05 - 0.025))))
      else
        let rawDelta := -0.5 + (strike - spot) / spread in
        let* r := Math_random in
        ret (Math_max (-0.5) (Math_min (-0.01) (rawDelta - (r * 0.05 - 0.025))))
  end.

Definition side_letter (type : OptionSide) : string :=
  match type with call => "C"%string | put => "P"%string end.

Definition side_sign (type : OptionSide) : Q :=
  match type with call => 1 | put => -1 end.

(** The body of [strikes.forEach] in [generateMockOptions]: one contract
    for one expiration and one strike.  [now] is the clock; [dateIndex],
    [timeToExpiry] and [riskFreeRate] come from the enclosing round. *)
Definition generateMockOptions_strike `{Host} (now : Z) (symbol : string)
    (type : OptionSide) (currentPrice : Q) (expiryDate : string)
    (dateIndex : nat) (timeToExpiry riskFreeRate : Q) (strike : Q)
    : Rand OptionContract :=
  let inTheMoney :=
    match type with
    | call => Qltb strike currentPrice
    | put => Qltb currentPrice strike
    end in
  let moneyness := Math_abs (1 - strike / currentPrice) in
  let baseIv := 0.25 + inject_Z (Z.of_nat dateIndex) * 0.03 + moneyness * 0.2 in
  let* rIv := Math_random in
  let impliedVolatility := toFixed 4 (baseIv * (1 + (rIv * 0.4 - 0.2))) in
  let* rDiff := Math_random in
  let randomDiffIndex :=
    Math_floor (rDiff * inject_Z (Z.of_nat (length volatilityDifferenceValues))) in
  let volatilityDifference := array_get volatilityDifferenceValues randomDiffIndex in
  let predictedVolatility :=
    option_map (fun d => toFixed 3 (impliedVolatility * 100 + d))
      volatilityDifference in
  let* price :=
    calculateRealisticOptionPrice currentPrice strike timeToExpiry
      impliedVolatility (riskFreeRate / 100) type in
  let* rSpread := Math_random in
  let spread := price * (0.03 + rSpread * 0.04) in
  let bid := toFixed 2 (price - spread / 2) in
  let ask := toFixed 2 (price + spread / 2) in
  let* rChange := Math_random in
  let changePercent := toFixed 3 (rChange * 10 - 5) in
  let change := toFixed 3 (price * (changePercent / 100)) in
  let* rVolume := Math_random in
  let volume :=
    (Math_floor (rVolume * 1000) * (if Qltb moneyness 0.05 then 10 else 1) + 50)%Z in
  let* rOpenInterest := Math_random in
  let openInterest :=
    (Math_floor (rOpenInterest * 5000) * (if Qltb moneyness 0.05 then 5 else 1) + 200)%Z in
  let* rawDelta :=
    calculateRealisticDelta currentPrice strike type timeToExpiry
      impliedVolatility in
  let delta := toFixed 4 rawDelta in
  let gamma :=
    toFixed 4 (delta * (1 - delta)
               / (currentPrice * impliedVolatility * Math_sqrt timeToExpiry)) in
  let theta :=
    toFixed 4 (- price * impliedVolatility / (2 * Math_sqrt timeToExpiry)) in
  let vega := toFixed 4 (currentPrice * Math_sqrt timeToExpiry * 0.01) in
  let rho :=
    toFixed 4 (side_sign type * strike * timeToExpiry
               * Math_exp (- riskFreeRate / 100 * timeToExpiry) * 0.01) in
  let contractSymbol :=
    (symbol +:+ remove_dashes expiryDate +:+ side_letter type
       +:+ padStart0 8 (Number_toString strike))%string in
  let* rRecommended := Math_random in
  let* rConfidence := Math_random in
  ret {| contractSymbol := contractSymbol;
         strike := strike;
         expiryDate := expiryDate;
         lastPrice := toFixed 2 price;
         bid := bid;
         ask := ask;
         change := change;
         percentChange := changePercent;
         volume := volume;
         openInterest := openInterest;
         impliedVolatility := toFixed 2 (impliedVolatility * 100);
         inTheMoney := inTheMoney;
         lastTradeDate := Date_toISOString now;
         isRecommended := Some (Qltb 0.8 rRecommended);
         confidence := Some (toFixed 3 (rConfidence * 0.3 + 0.7));
         timeToExpiry := Some timeToExpiry;
         riskFreeRate := Some riskFreeRate;
         predictedVolatility := predictedVolatility;
         volatilityDifference := volatilityDifference;
         delta := Some delta;
         gamma := Some gamma;
         theta := Some theta;
         vega := Some vega;
         rho := Some rho |}.

(** [1000 * 60 * 60 * 24 * 365]. *)
Definition ms_per_year : Q := 1000 * 60 * 60 * 24 * 365.

(** The body of [expirationDates.forEach] in [generateMockOptions]. *)
Definition generateMockOptions_expiry `{Host} (now : Z) (symbol : string)
    (strikes : list Q) (type : OptionSide) (currentPrice : Q)
    (expiryDate : string) (dateIndex : nat) : Rand (list OptionContract) :=
  let timeToExpiry :=
    toFixed 6 (inject_Z (Date_getTime expiryDate - now) / ms_per_year) in
  let baseRate := 4.2 in
  let* rRate := Math_random in
  let riskFreeRate :=
    toFixed 3 (baseRate + inject_Z (Z.of_nat dateIndex) * 0.13
               + (rRate * 0.18 - 0.09)) in
  forEachi
    (fun strike _ =>
       let* c :=
         generateMockOptions_strike now symbol type currentPrice expiryDate
           dateIndex timeToExpiry riskFreeRate strike in
       ret [c])
    strikes 0%nat.

(** [generateMockOptions]. *)
Definition generateMockOptions `{Host} (now : Z) (symbol : string)
    (expirationDates : list string) (strikes : list Q) (type : OptionSide)
    (currentPrice : Q) : Rand (list OptionContract) :=
  forEachi
    (fun expiryDate dateIndex =>
       generateMockOptions_expiry now symbol strikes type currentPrice
         expiryDate dateIndex)
    expirationDates 0%nat.

(** The loop [for (strike = minStrike; strike <= maxStrike; strike +=
    strikeStep)] of [generateMockOptionsData]; [fuel] bounds the rounds. *)
Fixpoint strikes_loop (fuel : nat) (strike maxStrike strikeStep : Q) : list Q :=
  match fuel with
  | O => []
  | S fuel' =>
      if Qle_bool strike maxStrike
      then inject_Z (Math_round (strike * 100)) / 100
           :: strikes_loop fuel' (strike + strikeStep) maxStrike strikeStep
      else []
  end.

(** Rounds after which the loop has left the range (lemma
    [strikes_loop_fuel]). *)
Definition strikes_fuel (minStrike maxStrike strikeStep : Q) : nat :=
  S (Z.to_nat (Qfloor ((maxStrike - minStrike) / strikeStep))).

(** [generateMockOptionsData]. *)
Definition generateMockOptionsData `{Host} (now : Z) (symbol : string)
    : Rand OptionChain :=
  let* currentPrice := getStockPrice symbol in
  let expirationDates :=
    List.map (fun date => before_T (Date_toISOString date))
      (getNextFridays now 6) in
  let minStrike :=
    Math_max 1 (inject_Z (Math_round (currentPrice * 0.7 * 100)) / 100) in
  let maxStrike := inject_Z (Math_round (currentPrice * 1.3 * 100)) / 100 in
  let strikeStep := getStrikeIncrement currentPrice in
  let strikes :=
    strikes_loop (strikes_fuel minStrike maxStrike strikeStep)
      minStrike maxStrike strikeStep in
  let* calls :=
    generateMockOptions now symbol expirationDates strikes call currentPrice in
  let* puts :=
    generateMockOptions now symbol expirationDates strikes put currentPrice in
  ret {| symbol := symbol;
         calls := calls;
         puts := puts;
         expirationDates := expirationDates;
         strikeRange := {| strikeMin := minStrike; strikeMax := maxStrike |};
         lastUpdate := Date_toISOString now |}.

(** *** The network *)

(** The fields of the JSON answer that the code inspects, by truthiness:
    [data.note], [data.data] with its length, [data["Error Message"]],
    [data["Note"]]. *)
Record ApiData : Type := {
  data_note : bool;
  data_data : option nat;
  data_Error_Message : option string;
  data_Note : bool
}.

(** What [await fetch(url)] followed by [await response.json()] yields:
    [fetch] rejects, or a response arrives whose body fails to parse, or
    whose body parses.  A body that is no object (reading a field of it
    throws) stands with the bodies that fail to parse. *)
Inductive JsonOutcome : Type :=
  | JsonError (message : string)
  | JsonValue (data : ApiData).

Inductive FetchOutcome : Type :=
  | FetchRejected (message : string)
  | FetchResponse (ok : bool) (status : Z) (body : JsonOutcome).

(** Messages shown to the user or written to the console. *)
Inductive Notice : Type :=
  | ConsoleLog (text : string)
  | ConsoleWarn (text : string)
  | ConsoleError (text : string)
  | Toast (variant title description : string).

(** [transformAlphaVantageData]. *)
Definition transformAlphaVantageData `{Host} (now : Z) (data : ApiData)
    (symbol : string) : Rand OptionChain :=
  generateMockOptionsData now symbol.

(** [fetchOptionsData] of the generator module; [now] is the clock when
    the answer of the network is handled. *)
Definition fetchOptionsData `{Host} (now : Z) (outcome : FetchOutcome)
    (symbol : string) : Rand (OptionChain * list Notice) :=
  let on_error :=
    let* chain := generateMockOptionsData now symbol in
    ret (chain,
         [ ConsoleError "Error fetching options data:";
           Toast "destructive" "Error fetching options data"
                 "Using alternative data source." ]) in
  match outcome with
  | FetchRejected _ => on_error
  | FetchResponse _ _ (JsonError _) => on_error
  | FetchResponse _ _ (JsonValue data) =>
      if data_note data
         || match data_data data with
            | None => true
            | Some n => (n =? 0)%nat
            end
      then
        let* chain := generateMockOptionsData now symbol in
        ret (chain,
             [ ConsoleWarn "Alpha Vantage API call reached limit or returned no data. Using advanced data generation." ])
      else
        let* chain := transformAlphaVantageData now data symbol in
        ret (chain, [])
  end.

(** *** The justification lines *)

(** The lines of [getRecommendationReasons] that depend on the volatility
    difference. *)
Definition volatilityReasons (d : Q) : list string :=
  if Qltb 3 d then
    [ ("Undervalued by " +:+ toFixed_string 3 (Math_abs d)
         +:+ "% based on volatility analysis")%string;
      "Our model predicts higher volatility than current market pricing"%string ]
  else if Qltb 0 d then
    [ ("Slightly undervalued by " +:+ toFixed_string 3 d
         +:+ "% based on volatility analysis")%string ]
  else if Qltb d (-3) then
    [ ("Overvalued by " +:+ toFixed_string 3 (Math_abs d)
         +:+ "% based on volatility analysis")%string;
      "Market is pricing in more volatility than our model predicts"%string ]
  else if Qltb d 0 then
    [ ("Slightly overvalued by " +:+ toFixed_string 3 (Math_abs d)
         +:+ "% based on volatility analysis")%string ]
  else [].

(** The lines on delta, open interest and time to expiry. *)
Definition otherReasons (opt : OptionContract) : list string :=
  (match delta opt with
   | Some dl =>
       if negb (Qeq_bool dl 0) && Qltb 0.7 (Math_abs dl)
       then [ ("High delta (" +:+ toFixed_string 4 dl
                 +:+ ") provides strong directional exposure")%string ]
       else []
   | None => []
   end)
  ++ (if negb (openInterest opt =? 0)%Z && (1000 <? openInterest opt)%Z
      then [ ("Good liquidity with open interest of "
                +:+ Z_toString (openInterest opt))%string ]
      else [])
  ++ (match timeToExpiry opt with
      | Some t =>
          if Qltb t 0.08
          then [ ("Short time to expiry (" +:+ toFixed_string 1 (t * 365)
                    +:+ " days) may limit time decay impact")%string ]
          else if Qltb 0.25 t
          then [ ("Longer expiration (" +:+ toFixed_string 1 (t * 365)
                    +:+ " days) provides more time for position to develop")%string ]
          else []
      | None => []
      end).

(** [getRecommendationReasons] of the generator module. *)
Definition getRecommendationReasons (opt : OptionContract) : list string :=
  (match volatilityDifference opt with
   | Some d => volatilityReasons d
   | None => []
   end)
  ++ otherReasons opt.

(** ** The table component *)

Inductive ValueFormat : Type :=
  | fmt_price | fmt_percent | fmt_numeric | fmt_delta | fmt_timeToExpiry
  | fmt_volatilityDiff.

(** [formatValue]. *)
Definition formatValue (value : option Q) (type : ValueFormat) : string :=
  match value with
  | None => "N/A"%string
  | Some v =>
      match type with
      | fmt_price => ("$" +:+ toFixed_string 2 v)%string
      | fmt_percent => (toFixed_string 2 v +:+ "%")%string
      | fmt_delta => toFixed_string 4 v
      | fmt_timeToExpiry => toFixed_string 6 v
      | fmt_volatilityDiff =>
          ((if Qltb 0 v then "+" else "") +:+ toFixed_string 3 v +:+ "%")%string
      | fmt_numeric => Number_toString v
      end
  end.

(** What [getRecommendationBadge] renders: the colour class, the label of
    the badge, and the two lines of its tooltip. *)
Record Badge : Type := {
  badge_class : string;
  badge_label : string;
  badge_title : string;
  badge_text : string
}.

(** [getRecommendationBadge]; [None] is the [null] of the source. *)
Definition getRecommendationBadge (opt : OptionContract) : option Badge :=
  match volatilityDifference opt with
  | None => None
  | Some diff =>
      let isGoodInvestment := Qltb 2 diff in
      let isBadInvestment := Qltb diff (-2) in
      if negb isGoodInvestment && negb isBadInvestment then None
      else
        Some {| badge_class := if isGoodInvestment then "profit" else "loss";
                badge_label := if isGoodInvestment then "Buy" else "Avoid";
                badge_title :=
                  if isGoodInvestment then "Recommended Investment"
                  else "Not Recommended";
                badge_text :=
                  if isGoodInvestment
                  then ("Undervalued by "
                          +:+ formatValue (Some (Math_abs diff)) fmt_volatilityDiff
                          +:+ ". Predicted IV is higher than market IV.")%string
                  else ("Overvalued by "
                          +:+ formatValue (Some (Math_abs diff)) fmt_volatilityDiff
                          +:+ ". Market IV is higher than predicted IV.")%string |}
  end.

(** *** Sorting *)

(** [keyof OptionContract]. *)
Inductive ContractKey : Type :=
  | k_contractSymbol | k_strike | k_expiryDate | k_lastPrice | k_bid | k_ask
  | k_change | k_percentChange | k_volume | k_openInterest
  | k_impliedVolatility | k_inTheMoney | k_lastTradeDate | k_isRecommended
  | k_confidence | k_timeToExpiry | k_riskFreeRate | k_predictedVolatility
  | k_volatilityDifference | k_delta | k_gamma | k_theta | k_vega | k_rho.

Inductive JsValue : Type :=
  | VNum (q : Q)
  | VStr (s : string)
  | VBool (b : bool).

(** [option[key]]; [None] is [undefined]. *)
Definition field (key : ContractKey) (o : OptionContract) : option JsValue :=
  match key with
  | k_contractSymbol => Some (VStr (contractSymbol o))
  | k_strike => Some (VNum (strike o))
  | k_expiryDate => Some (VStr (expiryDate o))
  | k_lastPrice => Some (VNum (lastPrice o))
  | k_bid => Some (VNum (bid o))
  | k_ask => Some (VNum (ask o))
  | k_change => Some (VNum (change o))
  | k_percentChange => Some (VNum (percentChange o))
  | k_volume => Some (VNum (inject_Z (volume o)))
  | k_openInterest => Some (VNum (inject_Z (openInterest o)))
  | k_impliedVolatility => Some (VNum (impliedVolatility o))
  | k_inTheMoney => Some (VBool (inTheMoney o))
  | k_lastTradeDate => Some (VStr (lastTradeDate o))
  | k_isRecommended => option_map VBool (isRecommended o)
  | k_confidence => option_map VNum (confidence o)
  | k_timeToExpiry => option_map VNum (timeToExpiry o)
  | k_riskFreeRate => option_map VNum (riskFreeRate o)
  | k_predictedVolatility => option_map VNum (predictedVolatility o)
  | k_volatilityDifference => option_map VNum (volatilityDifference o)
  | k_delta => option_map VNum (delta o)
  | k_gamma => option_map VNum (gamma o)
  | k_theta => option_map VNum (theta o)
  | k_vega => option_map VNum (vega o)
  | k_rho => option_map VNum (rho o)
  end.

(** [a < b] on two values of one field: numbers by value, strings by code
    units, booleans as 0 and 1.  One field holds one type, so the mixed
    cases do not arise. *)
Definition js_lt (a b : JsValue) : bool :=
  match a, b with
  | VNum x, VNum y => Qltb x y
  | VStr s, VStr t => String.ltb s t
  | VBool x, VBool y => negb x && y
  | _, _ => false
  end.

Inductive SortDirection : Type := asc | desc.

(** The comparison function handed to [sort] by [getSortedOptions]. *)
Definition compareOptions (key : ContractKey) (direction : SortDirection)
    (a b : OptionContract) : Z :=
  match field key a, field key b with
  | Some aValue, Some bValue =>
      if js_lt aValue bValue then
        match direction with asc => (-1)%Z | desc => 1%Z end
      else if js_lt bValue aValue then
        match direction with asc => 1%Z | desc => (-1)%Z end
      else 0%Z
  | _, _ => 0%Z
  end.

(** [Array.prototype.sort] of the engine. *)
Class ArraySort : Type :=
  Array_sort : forall A : Type, (A -> A -> Z) -> list A -> list A.

(** [getSortedOptions]: the copy [[...options]] sorted in place. *)
Definition getSortedOptions `{ArraySort} (options : list OptionContract)
    (sortConfig : option (ContractKey * SortDirection)) : list OptionContract :=
  let sortableOptions := options in
  match sortConfig with
  | Some (key, direction) =>
      Array_sort OptionContract (compareOptions key direction) sortableOptions
  | None => sortableOptions
  end.

(** *** Sort requests and columns *)

Definition ContractKey_eq_dec (a b : ContractKey) : {a = b} + {a <> b}.
Proof. decide equality. Defined.

(** [requestSort]: the sort configuration after a request for [key]; the
    direction turns to descending only when [key] is the current key and
    the current direction is ascending. *)
Definition requestSort (sortConfig : option (ContractKey * SortDirection))
    (key : ContractKey) : option (ContractKey * SortDirection) :=
  let direction :=
    match sortConfig with
    | Some (k, asc) => if ContractKey_eq_dec k key then desc else asc
    | _ => asc
    end in
  Some (key, direction).

(** The initial value of the state [sortConfig]. *)
Definition initialSortConfig : option (ContractKey * SortDirection) :=
  Some (k_strike, asc).

(** An entry of [columnConfig]; the type ['text'] stands apart from the
    formats of [formatValue]. *)
Inductive ColumnType : Type :=
  | col_text
  | col_format (f : ValueFormat).

Record Column : Type := {
  column_key : ContractKey;
  column_label : string;
  column_type : ColumnType;
  column_sortable : bool
}.

(** [columnConfig] of the table with the volatility columns. *)
Definition columnConfig : list Column :=
  [ {| column_key := k_strike; column_label := "Strike";
       column_type := col_format fmt_price; column_sortable := true |};
    {| column_key := k_expiryDate; column_label := "Expiry";
       column_type := col_text; column_sortable := true |};
    {| column_key := k_timeToExpiry; column_label := "Time (Years)";
       column_type := col_format fmt_timeToExpiry; column_sortable := true |};
    {| column_key := k_riskFreeRate; column_label := "Risk-Free Rate";
       column_type := col_format fmt_percent; column_sortable := true |};
    {| column_key := k_lastPrice; column_label := "Last";
       column_type := col_format fmt_price; column_sortable := true |};
    {| column_key := k_bid; column_label := "Bid";
       column_type := col_format fmt_price; column_sortable := true |};
    {| column_key := k_ask; column_label := "Ask";
       column_type := col_format fmt_price; column_sortable := true |};
    {| column_key := k_change; column_label := "Change";
       column_type := col_format fmt_price; column_sortable := true |};
    {| column_key := k_percentChange; column_label := "% Chg";
       column_type := col_format fmt_percent; column_sortable := true |};
    {| column_key := k_volume; column_label := "Volume";
       column_type := col_format fmt_numeric; column_sortable := true |};
    {| column_key := k_openInterest; column_label := "OI";
       column_type := col_format fmt_numeric; column_sortable := true |};
    {| column_key := k_impliedVolatility; column_label := "Actual IV";
       column_type := col_format fmt_percent; column_sortable := true |};
    {| column_key := k_predictedVolatility; column_label := "Predicted IV";
       column_type := col_format fmt_percent; column_sortable := true |};
    {| column_key := k_volatilityDifference; column_label := "IV Diff";
       column_type := col_format fmt_volatilityDiff; column_sortable := true |};
    {| column_key := k_delta; column_label := "Delta";
       column_type := col_format fmt_delta; column_sortable := true |};
    {| column_key := k_gamma; column_label := "Gamma";
       column_type := col_format fmt_delta; column_sortable := false |};
    {| column_key := k_theta; column_label := "Theta";
       column_type := col_format fmt_delta; column_sortable := false |};
    {| column_key := k_vega; column_label := "Vega";
       column_type := col_format fmt_delta; column_sortable := false |} ].

(** The [onClick] of a column header:
    [column.sortable && requestSort(column.key)]. *)
Definition headerClick (sortConfig : option (ContractKey * SortDirection))
    (column : Column) : option (ContractKey * SortDirection) :=
  if column_sortable column then requestSort sortConfig (column_key column)
  else sortConfig.

(** The earlier version of the table: the same [requestSort],
    [getSortedOptions] and header, and these columns. *)
Module EarlierTable.

Definition columnConfig : list Column :=
  [ {| column_key := k_strike; column_label := "Strike";
       column_type := col_format fmt_price; column_sortable := true |};
    {| column_key := k_expiryDate; column_label := "Expiry";
       column_type := col_text; column_sortable := true |};
    {| column_key := k_lastPrice; column_label := "Last";
       column_type := col_format fmt_price; column_sortable := true |};
    {| column_key := k_bid; column_label := "Bid";
       column_type := col_format fmt_price; column_sortable := true |};
    {| column_key := k_ask; column_label := "Ask";
       column_type := col_format fmt_price; column_sortable := true |};
    {| column_key := k_change; column_label := "Change";
       column_type := col_format fmt_price; column_sortable := true |};
    {| column_key := k_percentChange; column_label := "% Chg";
       column_type := col_format fmt_percent; column_sortable := true |};
    {| column_key := k_volume; column_label := "Volume";
       column_type := col_format fmt_numeric; column_sortable := true |};
    {| column_key := k_openInterest; column_label := "OI";
       column_type := col_format fmt_numeric; column_sortable := true |};
    {| column_key := k_impliedVolatility; column_label := "IV";
       column_type := col_format fmt_percent; column_sortable := true |};
    {| column_key := k_delta; column_label := "Delta";
       column_type := col_format fmt_delta; column_sortable := true |};
    {| column_key := k_gamma; column_label := "Gamma";
       column_type := col_format fmt_delta; column_sortable := false |};
    {| column_key := k_theta; column_label := "Theta";
       column_type := col_format fmt_delta; column_sortable := false |};
    {| column_key := k_vega; column_label := "Vega";
       column_type := col_format fmt_delta; column_sortable := false |} ].

End EarlierTable.

(** *** Colours and the analysis panel *)

(** The colour classes appended for a number [v] against a threshold [t]:
    [v > t ? ' text-profit font-medium' : v < -t ? ' text-loss font-medium'
    : ''], where every comparison with [undefined] is false. *)
Definition profit_loss_class (value : option Q) (t : Q) : string :=
  match value with
  | Some v =>
      if Qltb t v then " text-profit font-medium"
      else if Qltb v (- t) then " text-loss font-medium"
      else ""
  | None => ""
  end.

(** [getColumnClassName]; [value] is the number (or [undefined]) that the
    row holds under [key], the three keys that are tested being numeric. *)
Definition getColumnClassName (key : ContractKey) (value : option Q) : string :=
  let className := ""%string in
  let className :=
    match key with
    | k_change | k_percentChange => (className +:+ profit_loss_class value 0)%string
    | _ => className
    end in
  let className :=
    match key with
    | k_volatilityDifference => (className +:+ profit_loss_class value 2)%string
    | _ => className
    end in
  className.

(** The highlight class of a row:
    [option.volatilityDifference && option.volatilityDifference > 2]. *)
Definition rowHighlight (opt : OptionContract) : string :=
  match volatilityDifference opt with
  | Some d =>
      if negb (Qeq_bool d 0) && Qltb 2 d then "bg-option-highlight" else ""
  | None => ""
  end.

(** The list "Volatility Analysis" of an expanded row: its items, each with
    its colour class; [None] when the section is not rendered. *)
Definition volatilityAnalysis (opt : OptionContract)
    : option (list (string * string)) :=
  match volatilityDifference opt with
  | None => None
  | Some d =>
      Some
        ((if Qltb 2 d then
            [ ("text-profit",
               "Undervalued by "
                 +:+ formatValue (Some (Math_abs d)) fmt_volatilityDiff);
              ("text-muted-foreground",
               "Our model predicts higher volatility than the market is pricing in");
              ("text-muted-foreground",
               "Potential opportunity for a profitable trade") ]%string
          else [])
         ++ (if Qltb d (-2) then
               [ ("text-loss",
                  "Overvalued by "
                    +:+ formatValue (Some (Math_abs d)) fmt_volatilityDiff);
                 ("text-muted-foreground",
                  "The market is pricing in higher volatility than our model predicts");
                 ("text-muted-foreground",
                  "Consider avoiding this contract or selling if owned") ]%string
             else [])
         ++ (if Qle_bool (Math_abs d) 2 then
               [ ("text-muted-foreground",
                  "Contract is fairly valued (within 2% volatility difference)") ]%string
             else []))
  end.

(** ** [services/optionsAPI.ts] of [nous-main]: the cached fetch *)

Module NousMain.

(** An entry of the module-level [cache]. *)
Record CacheEntry : Type := { data : OptionChain; timestamp : Z }.

(** [CACHE_EXPIRY]: five minutes in milliseconds. *)
Definition CACHE_EXPIRY : Z := (5 * 60 * 1000)%Z.

(** One round of the inner loop of [generateOptions]. *)
Definition generateOptions_strike `{Host} (today : Z) (symbol : string)
    (basePrice : Q) (isCall : bool) (expiry : string) (strike : Q)
    : Rand OptionContract :=
  let daysToExpiry :=
    inject_Z (Math_round (inject_Z (Date_getTime expiry - today)
                          / (1000 * 3600 * 24))) in
  let inTheMoney :=
    if isCall then Qltb strike basePrice else Qltb basePrice strike in
  let distanceFromStrike := Math_abs (strike - basePrice) in
  let timePart := 5 * Math_exp (-0.05 * daysToExpiry) in
  let lastPrice :=
    if isCall
    then if inTheMoney then (basePrice - strike) + timePart else timePart
    else if inTheMoney then (strike - basePrice) + timePart else timePart in
  let bid := toFixed 2 (Math_max 0 (lastPrice - 0.05)) in
  let ask := toFixed 2 (bid + 0.10) in
  let volume :=
    Math_floor (10000 * Math_exp (-0.01 * distanceFromStrike
                                  - 0.03 * daysToExpiry)) in
  let openInterest := Math_floor (inject_Z volume * 1.5) in
  let* rIv := Math_random in
  let impliedVolatility := toFixed 2 (0.3 + 0.05 * rIv) in
  let delta :=
    if isCall
    then if inTheMoney
         then 0.5 + 0.5 * (1 - distanceFromStrike / 50)
         else 0.5 - 0.5 * (distanceFromStrike / 50)
    else if inTheMoney
         then -0.5 - 0.5 * (1 - distanceFromStrike / 50)
         else -0.5 + 0.5 * (distanceFromStrike / 50) in
  let gamma :=
    toFixed 4 (0.04 - 0.03 * Math_min distanceFromStrike 25 / 25) in
  let* rTheta := Math_random in
  let theta := toFixed 4 (-0.03 - 0.02 * rTheta) in
  let vega := toFixed 4 (0.2 - 0.15 * distanceFromStrike / 25) in
  let rho :=
    toFixed 4 ((if isCall then 0.05 else -0.05) * (daysToExpiry / 365)) in
  let* rRecommended := Math_random in
  let isRecommended := Qltb rRecommended 0.1 in
  let* confidence :=
    if isRecommended
    then let* r := Math_random in ret (Some (toFixed 2 (0.7 + 0.3 * r)))
    else ret None in
  let* rChange := Math_random in
  let* rPercent := Math_random in
  ret {| contractSymbol :=
           (symbol +:+ remove_dashes expiry
              +:+ (if isCall then "C" else "P")
              +:+ padStart0 5 (Number_toString strike))%string;
         strike := strike;
         expiryDate := expiry;
         lastPrice := toFixed 2 lastPrice;
         bid := bid;
         ask := ask;
         change := toFixed 2 (rChange * 2 - 1);
         percentChange := toFixed 2 (rPercent * 10 - 5);
         volume := volume;
         openInterest := openInterest;
         impliedVolatility := impliedVolatility;
         inTheMoney := inTheMoney;
         lastTradeDate := before_T (Date_toISOString today);
         isRecommended := Some isRecommended;
         confidence := confidence;
         timeToExpiry := None;
         riskFreeRate := None;
         predictedVolatility := None;
         volatilityDifference := None;
         delta := Some (toFixed 4 delta);
         gamma := Some gamma;
         theta := Some theta;
         vega := Some vega;
         rho := Some rho |}.

(** [generateOptions] inside [processOptionsData]. *)
Definition generateOptions `{Host} (today : Z) (symbol : string)
    (basePrice : Q) (expirationDates : list string) (strikes : list Q)
    (isCall : bool) : Rand (list OptionContract) :=
  forEachi
    (fun expiry _ =>
       forEachi
         (fun strike _ =>
            let* c :=
              generateOptions_strike today symbol basePrice isCall expiry
                strike in
            ret [c])
         strikes 0%nat)
    expirationDates 0%nat.

(** [processOptionsData]; [today] is the clock. *)
Definition processOptionsData `{Host} (today : Z) (data : ApiData)
    (symbol : string) : Rand OptionChain :=
  let expirationDates :=
    List.map
      (fun i : nat =>
         before_T
           (Date_toISOString
              (Date_addDays today
                 (Z.rem (5 - Date_getDay today + 7) 7 + Z.of_nat i * 7))))
      (List.seq 0 4) in
  let basePrice := 150 in
  let strikes :=
    List.map (fun i : nat => basePrice - 25 + inject_Z (Z.of_nat i) * 5)
      (List.seq 0 11) in
  let* calls :=
    generateOptions today symbol basePrice expirationDates strikes true in
  let* puts :=
    generateOptions today symbol basePrice expirationDates strikes false in
  ret {| symbol := symbol;
         calls := calls;
         puts := puts;
         expirationDates := expirationDates;
         strikeRange :=
           {| strikeMin := Math_min_of strikes;
              strikeMax := Math_max_of strikes |};
         lastUpdate := Date_toISOString today |}.

(** [fetchOptionsData]: [now] is [Date.now()] at the call, [outcome] the
    answer of the network, consulted on a cache miss only, and [later]
    the clock when that answer is processed.  The result carries the
    returned chain ([None] for [null]), the cache afterwards and the
    messages emitted. *)
Definition fetchOptionsData `{Host} (cache : gmap string CacheEntry)
    (now : Z) (outcome : FetchOutcome) (later : Z) (symbol : string)
    : Rand (option OptionChain * gmap string CacheEntry * list Notice) :=
  let cacheKey := ("options_" +:+ toUpperCase symbol)%string in
  let failed (message : string) :=
    ret (None, cache,
         [ ConsoleError "Error fetching options data:";
           Toast "error" ("Failed to fetch options data: " +:+ message) "" ]) in
  let fresh :=
    match outcome with
    | FetchRejected message => failed message
    | FetchResponse ok status body =>
        if negb ok then
          failed ("API request failed with status: " +:+ Z_toString status)
        else
          match body with
          | JsonError message => failed message
          | JsonValue d =>
              match data_Error_Message d with
              | Some message => failed message
              | None =>
                  if data_Note d then
                    ret (None, cache,
                         [ Toast "warning"
                             "API call frequency limit reached. Please try again later."
                             "" ])
                  else
                    let* processedData := processOptionsData later d symbol in
                    ret (Some processedData,
                         <[cacheKey := {| data := processedData;
                                          timestamp := now |}]> cache,
                         [])
              end
          end
    end in
  match cache !! cacheKey with
  | Some entry =>
      if (now - timestamp entry <? CACHE_EXPIRY)%Z
      then ret (Some (data entry), cache,
                [ ConsoleLog ("Using cached data for " +:+ symbol) ])
      else fresh
  | None => fresh
  end.

(** [option.volume > 1000 && option.volume / option.openInterest > 0.3]:
    with a volume above 1000 the quotient is [+Infinity] on an open
    interest of zero, so the test holds there. *)
Definition high_volume_ratio (opt : OptionContract) : bool :=
  (1000 <? volume opt)%Z
  && (if (openInterest opt =? 0)%Z then true
      else Qltb 0.3 (inject_Z (volume opt) / inject_Z (openInterest opt))).

(** The sentences that [getRecommendationReasons] pushes, before the
    fall-back. *)
Definition pushedReasons (opt : OptionContract) : list string :=
  (match delta opt with
   | Some dl =>
       if negb (Qeq_bool dl 0) && Qltb 0.5 (Math_abs dl)
       then [ ("High delta (" +:+ toFixed_string 2 dl
                 +:+ ") suggests strong directional movement opportunity")%string ]
       else []
   | None => []
   end)
  ++ (if Qltb 0.3 (impliedVolatility opt)
      then [ ("Elevated implied volatility ("
                +:+ toFixed_string 0 (impliedVolatility opt * 100)
                +:+ "%) may provide premium selling opportunity")%string ]
      else if Qltb (impliedVolatility opt) 0.2
      then [ ("Low implied volatility ("
                +:+ toFixed_string 0 (impliedVolatility opt * 100)
                +:+ "%) may present buying opportunity before price movement")%string ]
      else [])
  ++ (if high_volume_ratio opt
      then [ "High volume-to-OI ratio suggests increasing interest in this strike"%string ]
      else [])
  ++ (match gamma opt with
      | Some g =>
          if Qltb 0.03 g
          then [ ("High gamma (" +:+ toFixed_string 4 g
                    +:+ ") indicates potential for delta acceleration")%string ]
          else []
      | None => []
      end)
  ++ (match theta opt with
      | Some t =>
          if Qltb 0.03 (Math_abs t)
          then [ ("Significant time decay (" +:+ Number_toString t
                    +:+ ") should be monitored closely")%string ]
          else []
      | None => []
      end).

(** [getRecommendationReasons] of [nous-main]. *)
Definition getRecommendationReasons (opt : OptionContract) : list string :=
  let reasons := pushedReasons opt in
  if (0 <? length reasons)%nat then reasons
  else [ "Based on balanced risk-reward profile"%string ].

End NousMain.

(** ** [pages/Options.tsx]: the filters *)

(** [getFilteredOptions]; [optionChain] is [None] for [null]. *)
Definition getFilteredOptions (optionChain : option OptionChain)
    (filters : OptionsFilters) : list OptionContract :=
  match optionChain with
  | None => []
  | Some optionChain =>
      let filteredOptions := chain_side optionChain (optionType filters) in
      let filteredOptions :=
        match filterExpiryDate filters with
        | Some d =>
            if String.eqb d "" then filteredOptions
            else List.filter (fun o => String.eqb (expiryDate o) d)
                   filteredOptions
        | None => filteredOptions
        end in
      let filteredOptions :=
        match minStrike filters with
        | Some m => List.filter (fun o => Qle_bool m (strike o)) filteredOptions
        | None => filteredOptions
        end in
      let filteredOptions :=
        match maxStrike filters with
        | Some m => List.filter (fun o => Qle_bool (strike o) m) filteredOptions
        | None => filteredOptions
        end in
      let filteredOptions :=
        match moneyness filters with
        | ALL => filteredOptions
        | ITM => List.filter (fun o => inTheMoney o) filteredOptions
        | OTM => List.filter (fun o => negb (inTheMoney o)) filteredOptions
        | ATM =>
            let midPrice :=
              (strikeMin (strikeRange optionChain)
               + strikeMax (strikeRange optionChain)) / 2 in
            let range := midPrice * 0.02 in
            List.filter
              (fun o => Qle_bool (midPrice - range) (strike o)
                        && Qle_bool (strike o) (midPrice + range))
              filteredOptions
        end in
      let filteredOptions :=
        match minVolume filters with
        | Some m =>
            List.filter (fun o => Qle_bool m (inject_Z (volume o)))
              filteredOptions
        | None => filteredOptions
        end in
      let filteredOptions :=
        if showRecommendationsOnly filters
        then List.filter
               (fun o => match isRecommended o with
                         | Some b => b
                         | None => false
                         end)
               filteredOptions
        else filteredOptions in
      filteredOptions
  end.

(** *** The state of the page *)

(** [Partial<OptionsFilters>]: the fields that an update carries. *)
Record PartialFilters : Type := {
  new_ticker : option string;
  new_optionType : option OptionType;
  new_expiryDate : option (option string);
  new_minStrike : option (option Q);
  new_maxStrike : option (option Q);
  new_moneyness : option Moneyness;
  new_minVolume : option (option Q);
  new_showRecommendationsOnly : option bool
}.

(** The update without fields, [{}]. *)
Definition no_fields : PartialFilters :=
  {| new_ticker := None; new_optionType := None; new_expiryDate := None;
     new_minStrike := None; new_maxStrike := None; new_moneyness := None;
     new_minVolume := None; new_showRecommendationsOnly := None |}.

(** The initial value of the state [filters]. *)
Definition initialFilters : OptionsFilters :=
  {| ticker := "AAPL"; optionType := calls_side; filterExpiryDate := None;
     minStrike := None; maxStrike := None; moneyness := ALL;
     minVolume := None; showRecommendationsOnly := false |}.

(** [handleFilterChange]: [{ ...filters, ...newFilters }]. *)
Definition handleFilterChange (filters : OptionsFilters)
    (newFilters : PartialFilters) : OptionsFilters :=
  {| ticker := default (ticker filters) (new_ticker newFilters);
     optionType := default (optionType filters) (new_optionType newFilters);
     filterExpiryDate :=
       default (filterExpiryDate filters) (new_expiryDate newFilters);
     minStrike := default (minStrike filters) (new_minStrike newFilters);
     maxStrike := default (maxStrike filters) (new_maxStrike newFilters);
     moneyness := default (moneyness filters) (new_moneyness newFilters);
     minVolume := default (minVolume filters) (new_minVolume newFilters);
     showRecommendationsOnly :=
       default (showRecommendationsOnly filters)
         (new_showRecommendationsOnly newFilters) |}.

(** The states [loading] and [optionChain] of the page. *)
Record PageState : Type := {
  loading : bool;
  optionChain : option OptionChain
}.

(** [loadOptionsData] over the cached [fetchOptionsData]: the successive
    values of the page state (after [setLoading(true)], after
    [setOptionChain(data)], after [setLoading(false)]), the cache afterwards
    and the messages.  [fetchOptionsData] handles its own failures, so the
    [catch] of [loadOptionsData] is never entered. *)
Definition loadOptionsData `{Host} (page : PageState)
    (cache : gmap string NousMain.CacheEntry) (now : Z)
    (outcome : FetchOutcome) (later : Z) (symbol : string)
    : Rand (list PageState * gmap string NousMain.CacheEntry * list Notice) :=
  let page1 := {| loading := true; optionChain := optionChain page |} in
  let* r := NousMain.fetchOptionsData cache now outcome later symbol in
  let '(data, cache', notices) := r in
  let page2 := {| loading := true; optionChain := data |} in
  let page3 := {| loading := false; optionChain := data |} in
  ret ([page1; page2; page3], cache', notices).

(** ** [components/options/OptionsInputPanel.tsx]: the controls *)

(** White space of [String.prototype.trim] among the code units below
    256. *)
Definition is_whitespace (c : ascii) : bool :=
  let n := nat_of_ascii c in
  ((9 <=? n) && (n <=? 13) || (n =? 32) || (n =? 160))%nat.

Fixpoint trimStart_list (s : list ascii) : list ascii :=
  match s with
  | c :: s' => if is_whitespace c then trimStart_list s' else s
  | [] => []
  end.

(** [s.trim()]. *)
Definition trim (s : string) : string :=
  string_of_list_ascii
    (List.rev (trimStart_list (List.rev (trimStart_list (list_ascii_of_string s))))).

(** [handleTickerSearch]: the update handed to [onFilterChange], or [None]
    when the handler does not call it. *)
Definition handleTickerSearch (ticker : string) : option PartialFilters :=
  if negb (String.eqb ticker "") && negb (String.eqb (trim ticker) "")
  then Some {| new_ticker := Some (toUpperCase (trim ticker));
               new_optionType := None; new_expiryDate := None;
               new_minStrike := None; new_maxStrike := None;
               new_moneyness := None; new_minVolume := None;
               new_showRecommendationsOnly := None |}
  else None.

(** The value shown by the expiration select:
    [filters.expiryDate || "all_dates"]. *)
Definition expirySelectValue (filters : OptionsFilters) : string :=
  match filterExpiryDate filters with
  | Some d => if String.eqb d "" then "all_dates" else d
  | None => "all_dates"
  end.

(** [handleExpiryChange]. *)
Definition handleExpiryChange (value : string) : PartialFilters :=
  {| new_ticker := None; new_optionType := None;
     new_expiryDate :=
       Some (if String.eqb value "all_dates" then None else Some value);
     new_minStrike := None; new_maxStrike := None; new_moneyness := None;
     new_minVolume := None; new_showRecommendationsOnly := None |}.

(** [applyStrikeRange], on the local states [minStrike] and [maxStrike]. *)
Definition applyStrikeRange (minStrike maxStrike : option Q) : PartialFilters :=
  {| new_ticker := None; new_optionType := None; new_expiryDate := None;
     new_minStrike := Some minStrike; new_maxStrike := Some maxStrike;
     new_moneyness := None; new_minVolume := None;
     new_showRecommendationsOnly := None |}.

(** [handleResetStrikeRange]: the update handed to [onFilterChange], or
    [None] while there is no strike range. *)
Definition handleResetStrikeRange (strikeRange : option StrikeRange)
    : option PartialFilters :=
  match strikeRange with
  | Some r =>
      Some {| new_ticker := None; new_optionType := None;
              new_expiryDate := None;
              new_minStrike := Some (Some (strikeMin r));
              new_maxStrike := Some (Some (strikeMax r));
              new_moneyness := None; new_minVolume := None;
              new_showRecommendationsOnly := None |}
  | None => None
  end.

(** The switch "Hide Low Volume": its [onCheckedChange] and its [checked]
    ([!!filters.minVolume]). *)
Definition handleLowVolumeSwitch (checked : bool) : PartialFilters :=
  {| new_ticker := None; new_optionType := None; new_expiryDate := None;
     new_minStrike := None; new_maxStrike := None; new_moneyness := None;
     new_minVolume := Some (if checked then Some 100 else None);
     new_showRecommendationsOnly := None |}.

Definition lowVolumeSwitchChecked (filters : OptionsFilters) : bool :=
  match minVolume filters with
  | Some m => negb (Qeq_bool m 0)
  | None => false
  end.

(** ** [components/options/OptionsStats.tsx]: volume by expiration *)

(** [volumeByExpiry]: one bucket per expiration date of the chain, over the
    calls (the component fixes [currentOptionType] to ["calls"]). *)
Definition volumeByExpiry `{Host} (optionChain : OptionChain)
    : list (string * Z) :=
  let options := chain_side optionChain calls_side in
  List.map
    (fun date =>
       let optionsForDate :=
         List.filter (fun opt => String.eqb (expiryDate opt) date) options in
       let totalVolume :=
         List.fold_left (fun sum opt => (sum + volume opt)%Z) optionsForDate 0%Z in
       (Date_toLocaleDateString date, totalVolume))
    (expirationDates optionChain).

(** [Math.ceil]. *)
Definition Math_ceil (x : Q) : Z := Qceiling x.

(** [strikeInterval]. *)
Definition strikeInterval (optionChain : OptionChain) : Q :=
  inject_Z
    (Math_ceil ((strikeMax (strikeRange optionChain)
                 - strikeMin (strikeRange optionChain)) / 10)).

(** [volumeByStrike]: ten buckets of [strikeInterval] each from the lower
    end of the strike range, each closed below and open above, over the
    calls; the label is [`${minStrike}-${maxStrike}`]. *)
Definition volumeByStrike (optionChain : OptionChain) : list (string * Z) :=
  let options := chain_side optionChain calls_side in
  let strikeRange := strikeRange optionChain in
  let strikeInterval := strikeInterval optionChain in
  List.map
    (fun i : nat =>
       let minStrike := strikeMin strikeRange + inject_Z (Z.of_nat i) * strikeInterval in
       let maxStrike := minStrike + strikeInterval in
       let optionsInRange :=
         List.filter
           (fun opt => Qle_bool minStrike (strike opt) && Qltb (strike opt) maxStrike)
           options in
       let totalVolume :=
         List.fold_left (fun sum opt => (sum + volume opt)%Z) optionsInRange 0%Z in
       ((Number_toString minStrike +:+ "-" +:+ Number_toString maxStrike)%string,
        totalVolume))
    (List.seq 0 10).

(** [mostActiveOptions]: the first five of the calls sorted by
    [(a, b) => b.volume - a.volume]. *)
Definition mostActiveOptions `{ArraySort} (optionChain : OptionChain)
    : list OptionContract :=
  let options := chain_side optionChain calls_side in
  List.firstn 5
    (Array_sort OptionContract (fun a b => (volume b - volume a)%Z) options).

(** ** The contract of [Array.prototype.sort] *)

(** A consistent comparison function on the elements of [l] (ECMAScript,
    Array.prototype.sort): its zero set is an equivalence and its negative
    and positive sets are transitive. *)
Definition consistent_on {A : Type} (cmp : A -> A -> Z) (l : list A) : Prop :=
  forall a b c, In a l -> In b l -> In c l ->
    cmp a a = 0%Z
    /\ (cmp a b = 0%Z -> cmp b a = 0%Z)
    /\ (cmp a b = 0%Z -> cmp b c = 0%Z -> cmp a c = 0%Z)
    /\ ((cmp a b < 0)%Z -> (cmp b c < 0)%Z -> (cmp a c < 0)%Z)
    /\ ((cmp a b > 0)%Z -> (cmp b c > 0)%Z -> (cmp a c > 0)%Z).


(** The elements that compare equal to [a], in the order of [l]. *)
Definition equal_to {A : Type} (cmp : A -> A -> Z) (a : A) (l : list A) : list A :=
  List.filter (fun x => (cmp a x =? 0)%Z) l.

(** No element is followed, anywhere later, by a smaller one. *)
Inductive ascending {A : Type} (cmp : A -> A -> Z) : list A -> Prop :=
  | ascending_nil : ascending cmp []
  | ascending_cons x l :
      Forall (fun y => (cmp x y <= 0)%Z) l -> ascending cmp l ->
      ascending cmp (x :: l).

(** What ECMAScript 2019 promises of [sort] when the comparison function is
    consistent on the array: a permutation in ascending order in which
    elements that compare equal keep their order.  Nothing is promised
    otherwise (the order is implementation-defined). *)
Definition sort_contract (E : ArraySort) : Prop :=
  forall (A : Type) (cmp : A -> A -> Z) (l : list A),
    consistent_on cmp l ->
    Permutation l (Array_sort A cmp l)
    /\ ascending cmp (Array_sort A cmp l)
    /\ forall a, In a l -> equal_to cmp a (Array_sort A cmp l) = equal_to cmp a l.

(** *** Two engines *)

(** Straight insertion. *)
Fixpoint insert_sorted {A : Type} (cmp : A -> A -> Z) (x : A) (l : list A) : list A :=
  match l with
  | [] => [x]
  | y :: l' =>
      if (cmp x y <=? 0)%Z then x :: y :: l' else y :: insert_sorted cmp x l'
  end.

Fixpoint insertion_sort {A : Type} (cmp : A -> A -> Z) (l : list A) : list A :=
  match l with
  | [] => []
  | x :: l' => insert_sorted cmp x (insertion_sort cmp l')
  end.

Definition insertion_engine : ArraySort := fun A cmp l => insertion_sort cmp l.







(** ** A reference host *)

(** A host on which the model runs: square roots to six decimals, the
    exponential by its series, a fixed stream of draws, and the proleptic
    Gregorian calendar in UTC. *)
Module RefHost.

Definition sqrt (x : Q) : Q :=
  if Qle_bool x 0 then 0
  else inject_Z (Z.sqrt (Qfloor (x * inject_Z (pow10 12)))) / inject_Z (pow10 6).

(** Fifteen decimals are kept. *)
Definition trunc15 (x : Q) : Q :=
  inject_Z (Qfloor (x * inject_Z (pow10 15))) / inject_Z (pow10 15).

Fixpoint exp_series (k : nat) (x term acc : Q) (i : Z) : Q :=
  match k with
  | O => acc
  | S k' =>
      let term' := trunc15 (term * x / inject_Z i) in
      exp_series k' x term' (trunc15 (acc + term')) (i + 1)%Z
  end.

Definition exp (x : Q) : Q :=
  if Qle_bool x 0 then / exp_series 16 (- x) 1 1 1
  else exp_series 16 x 1 1 1.

Definition draw (n : nat) : Q :=
  inject_Z ((Z.of_nat n * 7919 + 4931) mod 10007) / 10007.

Definition ms_per_day : Z := 86400000%Z.

Definition civil_from_days (days : Z) : Z * Z * Z :=
  let z := (days + 719468)%Z in
  let era := (z / 146097)%Z in
  let doe := (z - era * 146097)%Z in
  let yoe := ((doe - doe / 1460 + doe / 36524 - doe / 146096) / 365)%Z in
  let doy := (doe - (365 * yoe + yoe / 4 - yoe / 100))%Z in
  let mp := ((5 * doy + 2) / 153)%Z in
  let d := (doy - (153 * mp + 2) / 5 + 1)%Z in
  let m := (if mp <? 10 then mp + 3 else mp - 9)%Z in
  let y := (yoe + era * 400 + (if m <=? 2 then 1 else 0))%Z in
  (y, m, d).

Definition days_from_civil (y m d : Z) : Z :=
  let y' := (if m <=? 2 then y - 1 else y)%Z in
  let era := (y' / 400)%Z in
  let yoe := (y' - era * 400)%Z in
  let doy := ((153 * (if 2 <? m then m - 3 else m + 9) + 2) / 5 + d - 1)%Z in
  let doe := (yoe * 365 + yoe / 4 - yoe / 100 + doy)%Z in
  (era * 146097 + doe - 719468)%Z.

Definition pad (n : nat) (z : Z) : string := padStart0 n (digits z).

Definition toISOString (t : Z) : string :=
  let days := (t / ms_per_day)%Z in
  let ms := (t mod ms_per_day)%Z in
  let '(y, m, d) := civil_from_days days in
  (pad 4 y +:+ "-" +:+ pad 2 m +:+ "-" +:+ pad 2 d +:+ "T"
     +:+ pad 2 (ms / 3600000) +:+ ":" +:+ pad 2 (ms / 60000 mod 60) +:+ ":"
     +:+ pad 2 (ms / 1000 mod 60) +:+ "." +:+ pad 3 (ms mod 1000) +:+ "Z")%string.

Definition number_of (s : string) : Z :=
  List.fold_left
    (fun acc c => (acc * 10 + (Z.of_nat (nat_of_ascii c) - 48))%Z)
    (list_ascii_of_string s) 0%Z.

(** The time stamp of a date written [YYYY-MM-DD]. *)
Definition getTime (s : string) : Z :=
  (days_from_civil (number_of (String.substring 0 4 s))
     (number_of (String.substring 5 2 s))
     (number_of (String.substring 8 2 s)) * ms_per_day)%Z.

Definition getDay (t : Z) : Z := ((t / ms_per_day + 4) mod 7)%Z.

Definition addDays (t k : Z) : Z := (t + k * ms_per_day)%Z.

Definition month_name (m : Z) : string :=
  List.nth (Z.to_nat (m - 1))
    [ "Jan"; "Feb"; "Mar"; "Apr"; "May"; "Jun"; "Jul"; "Aug"; "Sep";
      "Oct"; "Nov"; "Dec" ]%string ""%string.

Definition toLocaleDateString (s : string) : string :=
  (month_name (number_of (String.substring 5 2 s)) +:+ " "
     +:+ digits (number_of (String.substring 8 2 s)))%string.

Definition host : Host := {|
  Math_sqrt := sqrt;
  Math_exp := exp;
  draws := draw;
  Date_getTime := getTime;
  Date_toISOString := toISOString;
  Date_getDay := getDay;
  Date_addDays := addDays;
  Date_toLocaleDateString := toLocaleDateString
|}.

(** The same host with a random source that always draws [r]. *)
Definition host_fixed (r : Q) : Host := {|
  Math_sqrt := sqrt;
  Math_exp := exp;
  draws := fun _ => r;
  Date_getTime := getTime;
  Date_toISOString := toISOString;
  Date_getDay := getDay;
  Date_addDays := addDays;
  Date_toLocaleDateString := toLocaleDateString
|}.

(** 2 November 2026, 14:30 UTC. *)
Definition now : Z := (days_from_civil 2026 11 2 * ms_per_day + 52200000)%Z.

End RefHost.

(** ** The vocabulary of the statements, and sample data *)

(** The strike grid that [generateMockOptionsData] builds for a reference
    price. *)
Definition strike_grid (currentPrice : Q) : list Q :=
  let minStrike :=
    Math_max 1 (inject_Z (Math_round (currentPrice * 0.7 * 100)) / 100) in
  let maxStrike := inject_Z (Math_round (currentPrice * 1.3 * 100)) / 100 in
  let strikeStep := getStrikeIncrement currentPrice in
  strikes_loop (strikes_fuel minStrike maxStrike strikeStep)
    minStrike maxStrike strikeStep.



(** Quotes, counts and strike of one contract against a strike range. *)
Definition quotes_ok (range : StrikeRange) (c : OptionContract) : Prop :=
  (0 <= bid c /\ bid c <= lastPrice c /\ lastPrice c <= ask c)
  /\ (exists price s,
        0 <= price /\ 0.03 <= s <= 0.07
        /\ lastPrice c = toFixed 2 price
        /\ bid c = toFixed 2 (price - price * s / 2)
        /\ ask c = toFixed 2 (price + price * s / 2))
  /\ (0 <= volume c)%Z /\ (0 <= openInterest c)%Z
  /\ strikeMin range <= strike c <= strikeMax range.

(** The chain for AAPL on the reference host, from the start of its stream
    of draws. *)
Definition ref_chain : OptionChain :=
  fst (generateMockOptionsData (H := RefHost.host) RefHost.now "AAPL" 0%nat).

(** The contract [o] with its volatility difference replaced. *)
Definition with_volatilityDifference (d : option Q) (o : OptionContract)
    : OptionContract :=
  {| contractSymbol := contractSymbol o;
     strike := strike o;
     expiryDate := expiryDate o;
     lastPrice := lastPrice o;
     bid := bid o;
     ask := ask o;
     change := change o;
     percentChange := percentChange o;
     volume := volume o;
     openInterest := openInterest o;
     impliedVolatility := impliedVolatility o;
     inTheMoney := inTheMoney o;
     lastTradeDate := lastTradeDate o;
     isRecommended := isRecommended o;
     confidence := confidence o;
     timeToExpiry := timeToExpiry o;
     riskFreeRate := riskFreeRate o;
     predictedVolatility := predictedVolatility o;
     volatilityDifference := d;
     delta := delta o;
     gamma := gamma o;
     theta := theta o;
     vega := vega o;
     rho := rho o |}.

(** The badge shown for a difference above 2 and below -2. *)
Definition buy_badge (d : Q) : Badge :=
  {| badge_class := "profit";
     badge_label := "Buy";
     badge_title := "Recommended Investment";
     badge_text :=
       ("Undervalued by " +:+ formatValue (Some (Math_abs d)) fmt_volatilityDiff
          +:+ ". Predicted IV is higher than market IV.")%string |}.

Definition avoid_badge (d : Q) : Badge :=
  {| badge_class := "loss";
     badge_label := "Avoid";
     badge_title := "Not Recommended";
     badge_text :=
       ("Overvalued by " +:+ formatValue (Some (Math_abs d)) fmt_volatilityDiff
          +:+ ". Market IV is higher than predicted IV.")%string |}.

(** A contract to try the classifier on: the first call of the reference
    chain, in round figures. *)
Definition sample_contract : OptionContract :=
  {| contractSymbol := "AAPL20261106C00122.66";
     strike := 122.66;
     expiryDate := "2026-11-06";
     lastPrice := 49.64;
     bid := 48.25;
     ask := 51.04;
     change := -0.251;
     percentChange := -0.505;
     volume := 290;
     openInterest := 360;
     impliedVolatility := 28.32;
     inTheMoney := true;
     lastTradeDate := "2026-11-02T14:30:00.000Z";
     isRecommended := Some false;
     confidence := Some 0.822;
     timeToExpiry := Some 0.1;
     riskFreeRate := Some 4.199;
     predictedVolatility := Some 22.538;
     volatilityDifference := Some (-5.782);
     delta := Some 0.6;
     gamma := Some 0.0021;
     theta := Some (-72.8789);
     vega := Some 0.1690;
     rho := Some 0.0114 |}.

(** The data of an answer that [NousMain.fetchOptionsData] goes on to
    process: the response is ok, its body parses, and it carries neither
    an error message nor a rate-limit note. *)
Definition usable (outcome : FetchOutcome) : option ApiData :=
  match outcome with
  | FetchResponse true _ (JsonValue d) =>
      match data_Error_Message d with
      | Some _ => None
      | None => if data_Note d then None else Some d
      end
  | _ => None
  end.

(** The cache has no entry for the symbol that is younger than the time to
    live. *)
Definition stale (cache : gmap string NousMain.CacheEntry) (symbol : string)
    (now : Z) : bool :=
  match cache !! ("options_" +:+ toUpperCase symbol)%string with
  | Some entry => negb (now - NousMain.timestamp entry <? NousMain.CACHE_EXPIRY)%Z
  | None => true
  end.

(** A rate-limit answer and an answer with data. *)
Definition rate_limited : FetchOutcome :=
  FetchResponse true 200
    (JsonValue {| data_note := false; data_data := None;
                  data_Error_Message := None; data_Note := true |}).

Definition answered : FetchOutcome :=
  FetchResponse true 200
    (JsonValue {| data_note := false; data_data := Some 1%nat;
                  data_Error_Message := None; data_Note := false |}).

(** A chain without contracts, to fill a cache entry. *)
Definition empty_chain : OptionChain :=
  {| symbol := "AAPL"; calls := []; puts := []; expirationDates := [];
     strikeRange := {| strikeMin := 125; strikeMax := 175 |};
     lastUpdate := "2026-11-02T14:30:00.000Z" |}.

(** The six tests of [getFilteredOptions], each passing every contract when
    its field of the filter is not set. *)
Definition passes_expiry (f : OptionsFilters) (o : OptionContract) : bool :=
  match filterExpiryDate f with
  | Some d => if String.eqb d "" then true else String.eqb (expiryDate o) d
  | None => true
  end.

Definition passes_minStrike (f : OptionsFilters) (o : OptionContract) : bool :=
  match minStrike f with Some m => Qle_bool m (strike o) | None => true end.

Definition passes_maxStrike (f : OptionsFilters) (o : OptionContract) : bool :=
  match maxStrike f with Some m => Qle_bool (strike o) m | None => true end.

(** Within 2 per cent of the middle of the strike range. *)
Definition near_mid_strike (c : OptionChain) (o : OptionContract) : bool :=
  let midPrice := (strikeMin (strikeRange c) + strikeMax (strikeRange c)) / 2 in
  let range := midPrice * 0.02 in
  Qle_bool (midPrice - range) (strike o) && Qle_bool (strike o) (midPrice + range).

Definition passes_moneyness (c : OptionChain) (f : OptionsFilters)
    (o : OptionContract) : bool :=
  match moneyness f with
  | ALL => true
  | ITM => inTheMoney o
  | OTM => negb (inTheMoney o)
  | ATM => near_mid_strike c o
  end.

Definition passes_minVolume (f : OptionsFilters) (o : OptionContract) : bool :=
  match minVolume f with
  | Some m => Qle_bool m (inject_Z (volume o))
  | None => true
  end.

Definition passes_recommended (f : OptionsFilters) (o : OptionContract) : bool :=
  if showRecommendationsOnly f
  then match isRecommended o with Some b => b | None => false end
  else true.

(** A filter with every optional field unset. *)
Definition unset (f : OptionsFilters) : Prop :=
  (filterExpiryDate f = None \/ filterExpiryDate f = Some ""%string)
  /\ minStrike f = None /\ maxStrike f = None /\ moneyness f = ALL
  /\ minVolume f = None /\ showRecommendationsOnly f = false.

(** The filter [f] with another moneyness category. *)
Definition with_moneyness (m : Moneyness) (f : OptionsFilters) : OptionsFilters :=
  {| ticker := ticker f;
     optionType := optionType f;
     filterExpiryDate := filterExpiryDate f;
     minStrike := minStrike f;
     maxStrike := maxStrike f;
     moneyness := m;
     minVolume := minVolume f;
     showRecommendationsOnly := showRecommendationsOnly f |}.

Definition total (l : list Z) : Z := List.fold_right Z.add 0%Z l.

(** The volume that [volumeByExpiry] puts in the bucket of [date]. *)
Definition bucket_volume (options : list OptionContract) (date : string) : Z :=
  List.fold_left (fun sum opt => (sum + volume opt)%Z)
    (List.filter (fun opt => String.eqb (expiryDate opt) date) options) 0%Z.

(** The host [H] with draw number [i] replaced by [v]. *)
Definition with_draw (H : Host) (i : nat) (v : Q) : Host :=
  {| Math_sqrt := Math_sqrt;
     Math_exp := Math_exp;
     draws := fun k => if (k =? i)%nat then v else draws k;
     Date_getTime := Date_getTime;
     Date_toISOString := Date_toISOString;
     Date_getDay := Date_getDay;
     Date_addDays := Date_addDays;
     Date_toLocaleDateString := Date_toLocaleDateString |}.

(** Two values of one JavaScript type. *)
Definition same_kind (a b : JsValue) : Prop :=
  match a, b with
  | VNum _, VNum _ | VStr _, VStr _ | VBool _, VBool _ => True
  | _, _ => False
  end.





(** ** The vocabulary of the further statements *)

(** A string without lower-case letters, as the tickers that the page
    submits.  The names that the object [prices] of [getStockPrice]
    inherits from [Object.prototype] ([constructor], [toString], ...), which
    the finite map does not hold, all have a lower-case letter. *)
Definition upper_case (s : string) : Prop := toUpperCase s = s.

(** The [n] days that follow [date], one day apart, as [getNextFridays]
    steps through them. *)
Fixpoint days_after `{Host} (date : Z) (n : nat) : list Z :=
  match n with
  | O => []
  | S k => let date' := Date_addDays date 1 in date' :: days_after date' k
  end.

(** [date.getDay() === 5]. *)
Definition is_friday `{Host} (date : Z) : bool := (Date_getDay date =? 5)%Z.


(** The volatility fields of a synthesized contract. *)
Definition volatility_ok (c : OptionContract) : Prop :=
  exists d p,
    volatilityDifference c = Some d /\ In d volatilityDifferenceValues
    /\ predictedVolatility c = Some p
    /\ p == impliedVolatility c + d.

(** The counts, the confidence and the percentages of a synthesized
    contract. *)
Definition quantities_ok (c : OptionContract) : Prop :=
  (50 <= volume c <= 10040)%Z
  /\ (200 <= openInterest c <= 25195)%Z
  /\ (exists b, isRecommended c = Some b)
  /\ (exists q, confidence c = Some q /\ 0.7 <= q <= 1)
  /\ -5 <= percentChange c <= 5
  /\ 20 <= impliedVolatility c.

(** At least one reason and at most five, the first being the first
    sentence for the volatility difference. *)
Definition reasons_ok (c : OptionContract) : Prop :=
  exists d line rest,
    volatilityDifference c = Some d
    /\ getRecommendationReasons c = line :: rest
    /\ List.hd_error (volatilityReasons d) = Some line
    /\ (length rest <= 4)%nat.

(** Expiration, strike and in-the-money flag of a contract. *)
Definition grid_key (c : OptionContract) : string * Q * bool :=
  (expiryDate c, strike c, inTheMoney c).

(** The flag [inTheMoney] that each generator gives a strike. *)
Definition in_the_money (type : OptionSide) (currentPrice strike : Q) : bool :=
  match type with
  | call => Qltb strike currentPrice
  | put => Qltb currentPrice strike
  end.

(** The strikes of [processOptionsData]: eleven, five apart, around the
    base price of 150. *)
Definition nous_strikes : list Q :=
  [ 125; 130; 135; 140; 145; 150; 155; 160; 165; 170; 175 ].

(** What [processOptionsData] gives one contract. *)
Definition nous_contract_ok (c : OptionContract) : Prop :=
  (0 <= bid c /\ bid c <= lastPrice c /\ lastPrice c <= ask c)
  /\ ask c == bid c + 0.1
  /\ (0 <= volume c <= openInterest c)%Z
  /\ 0.3 <= impliedVolatility c <= 0.35
  /\ (exists g t,
        gamma c = Some g /\ 0.01 <= g <= 0.04
        /\ theta c = Some t /\ -0.05 <= t <= -0.03)
  /\ match isRecommended c with
     | Some true => exists q, confidence c = Some q /\ 0.7 <= q <= 1
     | Some false => confidence c = None
     | None => False
     end.

(** The keys that [processOptionsData] leaves undefined on every contract. *)
Definition analytics_key (key : ContractKey) : bool :=
  match key with
  | k_timeToExpiry | k_riskFreeRate | k_predictedVolatility
  | k_volatilityDifference => true
  | _ => false
  end.

(** The strike is the number [k]. *)
Definition strike_is (k : Q) (o : OptionContract) : bool := Qeq_bool (strike o) k.

(** The strike lies in [[lo, hi)]. *)
Definition strike_within (lo hi : Q) (o : OptionContract) : bool :=
  Qle_bool lo (strike o) && Qltb (strike o) hi.

(** The comparison function of [mostActiveOptions]. *)
Definition byVolumeDescending (a b : OptionContract) : Z :=
  (volume b - volume a)%Z.

(** The keys of the sortable columns. *)
Definition sortable_keys (config : list Column) : list ContractKey :=
  List.map column_key (List.filter column_sortable config).

(** The update that clears both strike bounds. *)
Definition no_strike_bounds : PartialFilters := applyStrikeRange None None.

(** The update that carries a ticker and nothing else. *)
Definition ticker_update (s : string) : PartialFilters :=
  {| new_ticker := Some s;
     new_optionType := None; new_expiryDate := None;
     new_minStrike := None; new_maxStrike := None;
     new_moneyness := None; new_minVolume := None;
     new_showRecommendationsOnly := None |}.

(** Strings of ASCII code units, on which [toUpperCase] and [trim] are
    modelled exactly. *)
Definition is_ascii_string (s : string) : bool :=
  List.forallb (fun c => (nat_of_ascii c <? 128)%nat) (list_ascii_of_string s).

(** The filters with the minimum volume cleared. *)
Definition without_minVolume (f : OptionsFilters) : OptionsFilters :=
  {| ticker := ticker f; optionType := optionType f;
     filterExpiryDate := filterExpiryDate f;
     minStrike := minStrike f; maxStrike := maxStrike f;
     moneyness := moneyness f; minVolume := None;
     showRecommendationsOnly := showRecommendationsOnly f |}.

(** * Properties *)

(** ** Numbers and rounding *)

Lemma Qltb_true (x y : Q) : Qltb x y = true <-> x < y.
Proof.
  unfold Qltb. rewrite negb_true_iff, <- not_true_iff_false, Qle_bool_iff.
  split; [apply Qnot_le_lt | apply Qlt_not_le].
Qed.

Lemma Qltb_false (x y : Q) : Qltb x y = false <-> y <= x.
Proof.
  unfold Qltb. rewrite negb_false_iff. apply Qle_bool_iff.
Qed.

Ltac case_Qltb x y :=
  let E := fresh "E" in
  destruct (Qltb x y) eqn:E;
  [apply Qltb_true in E | apply Qltb_false in E].

Lemma pow10_pos (d : nat) : (0 < pow10 d)%Z.
Proof. unfold pow10. apply Z.pow_pos_nonneg; lia. Qed.

Lemma pow10_Qpos (d : nat) : 0 < inject_Z (pow10 d).
Proof.
  replace 0 with (inject_Z 0) by reflexivity.
  rewrite <- Zlt_Qlt. apply pow10_pos.
Qed.

Lemma div_pow10_le (d : nat) (n n' : Z) :
  (n <= n')%Z ->
  inject_Z n / inject_Z (pow10 d) <= inject_Z n' / inject_Z (pow10 d).
Proof.
  intros H. apply Qmult_le_compat_r.
  - rewrite <- Zle_Qle. exact H.
  - apply Qinv_le_0_compat, Qlt_le_weak, pow10_Qpos.
Qed.

Lemma toFixed_units_nonneg (d : nat) (x : Q) : (0 <= toFixed_units d x)%Z.
Proof.
  unfold toFixed_units.
  replace 0%Z with (Qfloor 0) by reflexivity.
  apply Qfloor_resp_le.
  pose proof (Qabs_nonneg x) as Hx.
  pose proof (pow10_Qpos d) as Hp.
  assert (0 <= Qabs x * inject_Z (pow10 d)) by (apply Qmult_le_0_compat; lra).
  lra.
Qed.

Lemma toFixed_units_le (d : nat) (x y : Q) :
  Qabs x <= Qabs y -> (toFixed_units d x <= toFixed_units d y)%Z.
Proof.
  intros H. unfold toFixed_units. apply Qfloor_resp_le.
  pose proof (pow10_Qpos d) as Hp.
  assert (Qabs x * inject_Z (pow10 d) <= Qabs y * inject_Z (pow10 d))
    by (apply Qmult_le_compat_r; lra).
  lra.
Qed.

Lemma units_div_nonneg (d : nat) (x : Q) :
  0 <= inject_Z (toFixed_units d x) / inject_Z (pow10 d).
Proof.
  apply Qle_shift_div_l; [apply pow10_Qpos|].
  rewrite Qmult_0_l. replace 0 with (inject_Z 0) by reflexivity.
  rewrite <- Zle_Qle. apply toFixed_units_nonneg.
Qed.

(** Rounding to [d] decimals is monotone. *)
Lemma toFixed_le (d : nat) (x y : Q) : x <= y -> toFixed d x <= toFixed d y.
Proof.
  intros H. unfold toFixed.
  pose proof (units_div_nonneg d x) as Hx.
  pose proof (units_div_nonneg d y) as Hy.
  case_Qltb x 0; case_Qltb y 0.
  - apply Qopp_le_compat, div_pow10_le, toFixed_units_le.
    rewrite (Qabs_neg x), (Qabs_neg y) by lra. lra.
  - lra.
  - lra.
  - apply div_pow10_le, toFixed_units_le.
    rewrite (Qabs_pos x), (Qabs_pos y) by lra. lra.
Qed.

Lemma toFixed_nonneg (d : nat) (x : Q) : 0 <= x -> 0 <= toFixed d x.
Proof.
  intros H. unfold toFixed. case_Qltb x 0; [lra|]. apply units_div_nonneg.
Qed.

Lemma toFixed_nonpos (d : nat) (x : Q) : x <= 0 -> toFixed d x <= 0.
Proof.
  intros H. unfold toFixed. pose proof (units_div_nonneg d x) as Hx.
  case_Qltb x 0; [lra|].
  assert (Hz : x == 0) by lra.
  assert (Hu : toFixed_units d x = 0%Z).
  { unfold toFixed_units. rewrite Hz. reflexivity. }
  rewrite Hu. unfold Qdiv. rewrite Qmult_0_l. lra.
Qed.

(** A value between two numbers that rounding leaves alone stays between
    them. *)
Lemma toFixed_between (d : nat) (a b x : Q) :
  toFixed d a == a -> toFixed d b == b ->
  a <= x <= b -> a <= toFixed d x <= b.
Proof.
  intros Ha Hb [H1 H2]. split.
  - rewrite <- Ha. apply toFixed_le, H1.
  - rewrite <- Hb. apply toFixed_le, H2.
Qed.

Lemma Qfloor_half (z : Z) : Qfloor (inject_Z z + (1 # 2)) = z.
Proof.
  pose proof (Qfloor_le (inject_Z z + (1 # 2))) as H1.
  pose proof (Qlt_floor (inject_Z z + (1 # 2))) as H2.
  set (f := Qfloor (inject_Z z + (1 # 2))) in *.
  assert (Hlo : (z <= f)%Z).
  { replace z with (Qfloor (inject_Z z)) by apply Qfloor_Z.
    apply Qfloor_resp_le. lra. }
  assert (Hhi : (f < z + 1)%Z).
  { rewrite Zlt_Qlt. rewrite inject_Z_plus. 
    apply Qle_lt_trans with (inject_Z z + (1 # 2)); [exact H1|].
    replace (inject_Z 1) with 1 by reflexivity. lra. }
  lia.
Qed.

(** [Math.round(x * 100) / 100] on a number of hundredths. *)
Lemma round2_hundredths (z : Z) :
  inject_Z (Math_round (inject_Z z / 100 * 100)) / 100 == inject_Z z / 100.
Proof.
  unfold Math_round.
  assert (E : inject_Z z / 100 * 100 + (1 # 2) == inject_Z z + (1 # 2)) by (field).
  rewrite E, Qfloor_half. reflexivity.
Qed.

Lemma round2_le (x y : Q) :
  x <= y ->
  inject_Z (Math_round (x * 100)) / 100 <= inject_Z (Math_round (y * 100)) / 100.
Proof.
  intros H. apply Qmult_le_compat_r; [|apply Qinv_le_0_compat; lra].
  rewrite <- Zle_Qle. apply Qfloor_resp_le. lra.
Qed.

(** ** The loops *)

Lemma forEachi_In {A B : Type} (f : A -> nat -> Rand (list B)) (l : list A) :
  forall (i n : nat) (b : B),
    In b (fst (forEachi f l i n)) ->
    exists a j n', In a l /\ In b (fst (f a j n')).
Proof.
  induction l as [|a l IH]; intros i n b Hb; simpl in Hb.
  - destruct Hb.
  - unfold bind, ret in Hb.
    destruct (f a i n) as [bs n1] eqn:E1.
    destruct (forEachi f l (S i) n1) as [rest n2] eqn:E2.
    simpl in Hb. apply in_app_or in Hb. destruct Hb as [Hb|Hb].
    + exists a, i, n. split; [now left|]. rewrite E1. exact Hb.
    + destruct (IH (S i) n1 b) as (a' & j & n' & Ha' & Hb').
      { rewrite E2. exact Hb. }
      exists a', j, n'. split; [now right | exact Hb'].
Qed.

(** Every strike pushed by the loop of [generateMockOptionsData] lies
    between the first value of the loop variable and the bound, once both
    are numbers of hundredths. *)
Lemma strikes_loop_range (fuel : nat) (lo maxStrike strikeStep : Q) (kmin kmax : Z) :
  lo == inject_Z kmin / 100 -> maxStrike == inject_Z kmax / 100 ->
  0 <= strikeStep ->
  forall strike s,
    lo <= strike ->
    In s (strikes_loop fuel strike maxStrike strikeStep) ->
    lo <= s <= maxStrike.
Proof.
  intros Hlo Hmax Hstep. induction fuel as [|fuel IH]; intros strike s Hs Hin.
  - destruct Hin.
  - simpl in Hin. destruct (Qle_bool strike maxStrike) eqn:E; [|destruct Hin].
    apply Qle_bool_iff in E. destruct Hin as [<-|Hin].
    + split.
      * rewrite Hlo at 1. rewrite <- (round2_hundredths kmin).
        apply round2_le. rewrite <- Hlo. exact Hs.
      * rewrite Hmax. rewrite <- (round2_hundredths kmax).
        apply round2_le. rewrite <- Hmax. exact E.
    + apply (IH (strike + strikeStep)); [lra | exact Hin].
Qed.

(** The fuel of [generateMockOptionsData] lets the loop run to its end:
    with more fuel it pushes the same strikes. *)
Lemma strikes_loop_fuel (minStrike maxStrike strikeStep : Q) :
  0 < strikeStep ->
  forall extra : nat,
    strikes_loop (strikes_fuel minStrike maxStrike strikeStep + extra)
      minStrike maxStrike strikeStep
    = strikes_loop (strikes_fuel minStrike maxStrike strikeStep)
        minStrike maxStrike strikeStep.
Proof.
  intros Hstep extra. unfold strikes_fuel.
  set (k := Z.to_nat (Qfloor ((maxStrike - minStrike) / strikeStep))).
  assert (Hk : forall (m : nat) (strike : Q),
             maxStrike - strike < inject_Z (Z.of_nat (S m)) * strikeStep ->
             strikes_loop (S m + extra) strike maxStrike strikeStep
             = strikes_loop (S m) strike maxStrike strikeStep).
  { induction m as [|m IH]; intros strike Hlt.
    - simpl. destruct (Qle_bool strike maxStrike) eqn:E; [|reflexivity].
      f_equal. apply Qle_bool_iff in E.
      destruct extra as [|extra]; [reflexivity|]. simpl.
      destruct (Qle_bool (strike + strikeStep) maxStrike) eqn:E'; [|reflexivity].
      apply Qle_bool_iff in E'.
      change (inject_Z (Z.of_nat 1)) with 1 in Hlt. lra.
    - change (S (S m) + extra)%nat with (S (S m + extra)).
      cbn [strikes_loop]. destruct (Qle_bool strike maxStrike); [|reflexivity].
      f_equal. apply IH.
      rewrite Nat2Z.inj_succ in Hlt. unfold Z.succ in Hlt.
      rewrite inject_Z_plus in Hlt.
      replace (inject_Z 1) with 1 in Hlt by reflexivity. lra. }
  apply Hk.
  pose proof (Qlt_floor ((maxStrike - minStrike) / strikeStep)) as Hf.
  set (q := (maxStrike - minStrike) / strikeStep) in *.
  assert (Hq : maxStrike - minStrike == q * strikeStep).
  { unfold q. field. lra. }
  rewrite Hq. apply Qmult_lt_compat_r; [exact Hstep|].
  eapply Qlt_le_trans; [exact Hf|].
  rewrite <- Zle_Qle. unfold k. lia.
Qed.

(** The fuel of [getNextFridays] is enough on a host whose weekdays
    cycle: the ladder has as many dates as were asked for. *)
Section Fridays.

Context `{HOST : Host}.

Hypothesis getDay_range : forall t, (0 <= Date_getDay t < 7)%Z.
Hypothesis getDay_next :
  forall t, Date_getDay (Date_addDays t 1) = ((Date_getDay t + 1) mod 7)%Z.

Let days_to_friday (t : Z) : Z := ((4 - Date_getDay t) mod 7 + 1)%Z.

Lemma getNextFridays_loop_length (count : nat) :
  forall (fuel : nat) (date : Z) (fridays : list Z),
    (length fridays <= count)%nat ->
    ((length fridays < count)%nat ->
     (days_to_friday date + 7 * (Z.of_nat count - Z.of_nat (length fridays) - 1)
      <= Z.of_nat fuel)%Z) ->
    length (getNextFridays_loop fuel date fridays count) = count.
Proof.
  induction fuel as [|fuel IH]; intros date fridays Hle Hfuel.
  - cbn. destruct (Nat.eq_dec (length fridays) count) as [E|N]; [exact E|].
    exfalso. unfold days_to_friday in Hfuel.
    pose proof (Z.mod_pos_bound (4 - Date_getDay date) 7 eq_refl). lia.
  - cbn [getNextFridays_loop].
    destruct (length fridays <? count)%nat eqn:E.
    2:{ apply Nat.ltb_ge in E. lia. }
    apply Nat.ltb_lt in E.
    pose proof (getDay_range date) as Hg.
    pose proof (getDay_next date) as Hn.
    assert (Hd : (1 <= days_to_friday date <= 7)%Z).
    { unfold days_to_friday.
      pose proof (Z.mod_pos_bound (4 - Date_getDay date) 7 eq_refl). lia. }
    assert (Hd' : (1 <= days_to_friday (Date_addDays date 1) <= 7)%Z).
    { unfold days_to_friday.
      pose proof (Z.mod_pos_bound (4 - Date_getDay (Date_addDays date 1)) 7
                    eq_refl). lia. }
    specialize (Hfuel ltac:(lia)).
    destruct (Date_getDay (Date_addDays date 1) =? 5)%Z eqn:E5.
    + apply IH.
      * rewrite length_app. cbn. lia.
      * rewrite length_app. cbn. lia.
    + apply IH; [exact Hle|]. intros _.
      apply Z.eqb_neq in E5.
      assert (Hstep : days_to_friday (Date_addDays date 1)
                      = (days_to_friday date - 1)%Z).
      { unfold days_to_friday. rewrite Hn in E5 |- *.
        assert (Hcases : Date_getDay date = 0%Z \/ Date_getDay date = 1%Z
                         \/ Date_getDay date = 2%Z \/ Date_getDay date = 3%Z
                         \/ Date_getDay date = 4%Z \/ Date_getDay date = 5%Z
                         \/ Date_getDay date = 6%Z) by lia.
        destruct Hcases as [G|[G|[G|[G|[G|[G|G]]]]]]; rewrite G in E5 |- *;
          try reflexivity.
        exfalso. apply E5. reflexivity. }
      lia.
Qed.

Lemma getNextFridays_length (now : Z) (count : nat) :
  length (getNextFridays now count) = count.
Proof.
  unfold getNextFridays. apply getNextFridays_loop_length; cbn; [lia|].
  intros Hc. unfold days_to_friday.
  pose proof (Z.mod_pos_bound (4 - Date_getDay now) 7 eq_refl). lia.
Qed.

End Fridays.

(** ** One synthesized contract *)



Lemma Qdiv_nonneg (x y : Q) : 0 <= x -> 0 <= y -> 0 <= x / y.
Proof.
  intros Hx Hy. unfold Qdiv. apply Qmult_le_0_compat; [exact Hx|].
  apply Qinv_le_0_compat, Hy.
Qed.

Section Contract.

Context `{HOST : Host}.


Hypothesis draws_unit : forall n, 0 <= draws n < 1.
Hypothesis sqrt_nonneg : forall x, 0 <= Math_sqrt x.
Hypothesis exp_le_1 : forall x, x <= 0 -> Math_exp x <= 1.

(** [calculateRealisticOptionPrice] is never negative. *)
Lemma calculateRealisticOptionPrice_nonneg
    (spot strike timeToExpiry volatility riskFreeRate : Q)
    (type : OptionSide) (n : nat) :
  0 <= spot -> 0 <= timeToExpiry -> 0 <= volatility -> 0 <= riskFreeRate ->
  0 <= fst (calculateRealisticOptionPrice spot strike timeToExpiry
              volatility riskFreeRate type n).
Proof.
  intros Hs Ht Hv Hr.
  unfold calculateRealisticOptionPrice, bind, ret, Math_random.
  pose proof (draws_unit n) as Hn.
  pose proof (draws_unit (S n)) as Hn'.
  pose proof (sqrt_nonneg timeToExpiry) as Hq.
  assert (Htv : 0 <= volatility * Math_sqrt timeToExpiry * spot
                     * (0.4 + draws n * 0.1)).
  { repeat apply Qmult_le_0_compat; lra. }
  assert (Hexp : Math_exp (- riskFreeRate * timeToExpiry) <= 1).
  { apply exp_le_1.
    assert (0 <= riskFreeRate * timeToExpiry) by (apply Qmult_le_0_compat; lra).
    lra. }
  set (tv := volatility * Math_sqrt timeToExpiry * spot
             * (0.4 + draws n * 0.1)) in *.
  set (I := Math_exp (- riskFreeRate * timeToExpiry)) in *.
  destruct type.
  - case_Qltb strike spot; simpl.
    + assert (0 <= (spot - strike) * (1 - I * 0.1))
        by (apply Qmult_le_0_compat; lra).
      lra.
    + apply Qmult_le_0_compat; lra.
  - case_Qltb spot strike; simpl.
    + assert (0 <= (strike - spot) * (1 - I * 0.1))
        by (apply Qmult_le_0_compat; lra).
      lra.
    + apply Qmult_le_0_compat; lra.
Qed.

Variables (now : Z) (symbol : string) (type : OptionSide)
  (currentPrice : Q) (expiry : string) (dateIndex : nat)
  (timeToExpiry0 riskFreeRate0 strike0 : Q) (n : nat).

Let c : OptionContract :=
  fst (generateMockOptions_strike now symbol type currentPrice expiry
         dateIndex timeToExpiry0 riskFreeRate0 strike0 n).

Ltac open_strike :=
  unfold c, generateMockOptions_strike;
  cbv beta iota zeta delta [bind ret Math_random];
  repeat match goal with
         | |- context [let (_, _) := ?m in _] => destruct m eqn:?
         end;
  cbn [fst snd strike expiryDate lastPrice bid ask volume openInterest
       inTheMoney isRecommended volatilityDifference delta gamma vega].

Lemma strike_strike : strike c = strike0 /\ expiryDate c = expiry.
Proof. open_strike. split; reflexivity. Qed.

Lemma strike_inTheMoney :
  inTheMoney c
  = match type with
    | call => Qltb strike0 currentPrice
    | put => Qltb currentPrice strike0
    end.
Proof. open_strike. reflexivity. Qed.

Lemma strike_counts : (50 <= volume c)%Z /\ (200 <= openInterest c)%Z.
Proof.
  open_strike.
  assert (Hfloor : forall (k : nat) (m : Q),
             0 <= m -> (0 <= Math_floor (draws k * m))%Z).
  { intros k m Hm. unfold Math_floor.
    replace 0%Z with (Qfloor 0) by reflexivity.
    apply Qfloor_resp_le. apply Qmult_le_0_compat; [apply draws_unit | exact Hm]. }
  split.
  - match goal with |- (50 <= ?a * ?b + 50)%Z =>
      assert (0 <= a)%Z by (apply Hfloor; lra);
      assert (0 <= b)%Z by (destruct (Qltb _ _); lia) end.
    nia.
  - match goal with |- (200 <= ?a * ?b + 200)%Z =>
      assert (0 <= a)%Z by (apply Hfloor; lra);
      assert (0 <= b)%Z by (destruct (Qltb _ _); lia) end.
    nia.
Qed.

Lemma impliedVolatility_nonneg (k : nat) :
  0 <= toFixed 4
         ((0.25 + inject_Z (Z.of_nat dateIndex) * 0.03
           + Math_abs (1 - strike0 / currentPrice) * 0.2)
          * (1 + (draws k * 0.4 - 0.2))).
Proof.
  apply toFixed_nonneg. pose proof (draws_unit k) as Hk.
  assert (0 <= inject_Z (Z.of_nat dateIndex)).
  { replace 0 with (inject_Z 0) by reflexivity. rewrite <- Zle_Qle. lia. }
  pose proof (Qabs_nonneg (1 - strike0 / currentPrice)) as Ha.
  unfold Math_abs. apply Qmult_le_0_compat; lra.
Qed.




(** Quotes: the price is not negative, the spread is 3 to 7 per cent of
    it and is laid half below and half above, and the three rounded
    quotes are ordered. *)
Lemma strike_quotes :
  0 <= currentPrice -> 0 <= timeToExpiry0 -> 0 <= riskFreeRate0 ->
  exists price s,
    0 <= price /\ 0.03 <= s <= 0.07
    /\ lastPrice c = toFixed 2 price
    /\ bid c = toFixed 2 (price - price * s / 2)
    /\ ask c = toFixed 2 (price + price * s / 2)
    /\ 0 <= bid c /\ bid c <= lastPrice c /\ lastPrice c <= ask c.
Proof.
  intros Hp Ht Hr. open_strike.
  match goal with
  | E : calculateRealisticOptionPrice ?s ?k ?T ?v ?r ?t ?m = (?q, ?m') |- _ =>
      pose proof (calculateRealisticOptionPrice_nonneg s k T v r t m) as Hprice;
      rewrite E in Hprice; cbn [fst] in Hprice;
      exists q, (0.03 + draws m' * 0.04);
      pose proof (draws_unit m') as Hm'
  end.
  assert (Hq : 0 <= q).
  { apply Hprice; [exact Hp | exact Ht | apply impliedVolatility_nonneg |].
    apply Qdiv_nonneg; lra. }
  assert (Hs : 0 <= q * (0.03 + draws n0 * 0.04) <= q * 0.07).
  { split; [apply Qmult_le_0_compat; lra|].
    rewrite !(Qmult_comm q). apply Qmult_le_compat_r; lra. }
  split; [exact Hq|]. split; [lra|].
  split; [reflexivity|]. split; [reflexivity|]. split; [reflexivity|].
  set (sp := q * (0.03 + draws n0 * 0.04)) in *.
  assert (Hhalf : sp / 2 == sp * (1 # 2)) by (unfold Qdiv; reflexivity).
  split; [apply toFixed_nonneg; rewrite Hhalf; lra|].
  split; apply toFixed_le; rewrite Hhalf; lra.
Qed.

(** The flag [isRecommended] is the draw that follows the delta draw. *)
Lemma strike_isRecommended :
  exists k, isRecommended c = Some (Qltb 0.8 (draws k)).
Proof. open_strike. eexists. reflexivity. Qed.

End Contract.

(** ** One synthesized chain *)

Lemma getStrikeIncrement_pos (price : Q) : 0 < getStrikeIncrement price.
Proof.
  unfold getStrikeIncrement.
  repeat match goal with |- context [Qltb ?a ?b] => destruct (Qltb a b) end;
    reflexivity.
Qed.

Lemma prices_pos (symbol : string) (p : Q) : prices !! symbol = Some p -> 0 < p.
Proof.
  unfold prices. intros E. apply elem_of_list_to_map_2 in E.
  repeat (apply elem_of_cons in E as [E|E]; [inversion E; reflexivity|]).
  inversion E.
Qed.

Lemma Qmax_hundredths (k : Z) :
  exists k', Math_max 1 (inject_Z k / 100) == inject_Z k' / 100.
Proof.
  unfold Math_max.
  destruct (Q.max_spec 1 (inject_Z k / 100)) as [[_ E]|[_ E]].
  - exists k. exact E.
  - exists 100%Z. rewrite E. reflexivity.
Qed.

Section Chain.

Context `{HOST : Host}.

Hypothesis draws_unit : forall n, 0 <= draws n < 1.

Lemma getStockPrice_pos (symbol : string) (n : nat) :
  0 < fst (getStockPrice symbol n).
Proof.
  unfold getStockPrice, bind, ret, Math_random.
  pose proof (draws_unit n) as Hn.
  destruct (prices !! symbol) as [p|] eqn:E; [|simpl; lra].
  destruct (Qeq_bool p 0); [simpl; lra|].
  simpl. apply (prices_pos symbol), E.
Qed.

(** Every contract of [generateMockOptions] is built by the body of the
    inner loop for an expiration of the ladder and a strike of the
    grid, with the time to expiry and the rate of that expiration. *)
Lemma generateMockOptions_In (now : Z) (symbol : string)
    (dates : list string) (strikes : list Q) (type : OptionSide)
    (currentPrice : Q) (n : nat) (c : OptionContract) :
  In c (fst (generateMockOptions now symbol dates strikes type currentPrice n)) ->
  exists expiry dateIndex m strike n',
    In expiry dates /\ In strike strikes
    /\ c = fst (generateMockOptions_strike now symbol type currentPrice
                  expiry dateIndex
                  (toFixed 6 (inject_Z (Date_getTime expiry - now) / ms_per_year))
                  (toFixed 3 (4.2 + inject_Z (Z.of_nat dateIndex) * 0.13
                              + (draws m * 0.18 - 0.09)))
                  strike n').
Proof.
  intros Hc. unfold generateMockOptions in Hc.
  apply forEachi_In in Hc. destruct Hc as (expiry & dateIndex & m & He & Hc).
  unfold generateMockOptions_expiry in Hc.
  cbv beta iota zeta delta [bind Math_random] in Hc.
  apply forEachi_In in Hc. destruct Hc as (strike & j & n' & Hs & Hc).
  cbv beta iota zeta delta [bind ret] in Hc.
  destruct (generateMockOptions_strike _ _ _ _ _ _ _ _ _ _) as [c' n''] eqn:E
    in Hc.
  simpl in Hc. destruct Hc as [<-|[]].
  exists expiry, dateIndex, m, strike, n'.
  split; [exact He|]. split; [exact Hs|]. rewrite E. reflexivity.
Qed.

(** The parts of a synthesized chain: the reference price, the strike
    grid inside the strike range, and the two sides built over the
    ladder and the grid. *)
Lemma generateMockOptionsData_parts (now : Z) (symbol : string) (n : nat) :
  let chain := fst (generateMockOptionsData now symbol n) in
  let currentPrice := fst (getStockPrice symbol n) in
  exists n1 n2,
    (forall s, In s (strike_grid currentPrice) ->
          strikeMin (strikeRange chain) <= s <= strikeMax (strikeRange chain))
    /\ expirationDates chain
       = List.map (fun date => before_T (Date_toISOString date))
           (getNextFridays now 6)
    /\ calls chain
       = fst (generateMockOptions now symbol (expirationDates chain)
                (strike_grid currentPrice) call currentPrice n1)
    /\ puts chain
       = fst (generateMockOptions now symbol (expirationDates chain)
                (strike_grid currentPrice) put currentPrice n2).
Proof.
  unfold generateMockOptionsData.
  cbv beta iota zeta delta [bind ret].
  destruct (getStockPrice symbol n) as [p n0] eqn:E0.
  fold (strike_grid p).
  match goal with
  | |- context [generateMockOptions ?a ?b ?d ?s call ?q ?m] =>
      destruct (generateMockOptions a b d s call q m) as [cs n1] eqn:E1
  end.
  match goal with
  | |- context [generateMockOptions ?a ?b ?d ?s put ?q ?m] =>
      destruct (generateMockOptions a b d s put q m) as [ps n2] eqn:E2
  end.
  cbn [fst calls puts expirationDates strikeRange strikeMin strikeMax].
  destruct (Qmax_hundredths (Math_round (p * 0.7 * 100))) as [kmin Hkmin].
  exists n0, n1.
  split.
  - intros s Hs. unfold strike_grid in Hs.
    eapply strikes_loop_range in Hs;
      [exact Hs | exact Hkmin | reflexivity
      | apply Qlt_le_weak, getStrikeIncrement_pos | apply Qle_refl].
  - rewrite E1, E2. repeat split; reflexivity.
Qed.

End Chain.

(** ** The Greek letters of a synthesized chain *)


(** ** Prices and quantities of a synthesized chain *)

(** C4: in every synthesized chain whose expirations are not in the past,
    every contract has [0 <= bid <= lastPrice <= ask], the bid and the ask
    being the price less and plus half of a spread of 3 to 7 per cent of
    the price (rounded to cents), a volume and an open interest that are
    not negative, and a strike inside the strike range of the chain. *)
Theorem C4_price_and_quantity_bounds `{HOST : Host}
    (now : Z) (symbol : string) (n : nat) :
  (forall k, 0 <= draws k < 1) ->
  (forall x, 0 <= Math_sqrt x) ->
  (forall x, x <= 0 -> Math_exp x <= 1) ->
  let chain := fst (generateMockOptionsData now symbol n) in
  Forall (fun e => (now <= Date_getTime e)%Z) (expirationDates chain) ->
  Forall (quotes_ok (strikeRange chain)) (calls chain ++ puts chain).
Proof.
  intros Hdraws Hsqrt Hexp chain Hfuture.
  destruct (generateMockOptionsData_parts now symbol n)
    as (n1 & n2 & Hrange & _ & Hcalls & Hputs).
  pose proof (getStockPrice_pos Hdraws symbol n) as Hp.
  fold chain in Hrange, Hcalls, Hputs.
  assert (Hone : forall type m c,
             In c (fst (generateMockOptions now symbol (expirationDates chain)
                          (strike_grid (fst (getStockPrice symbol n))) type
                          (fst (getStockPrice symbol n)) m)) ->
             quotes_ok (strikeRange chain) c).
  { intros type m c Hc. apply generateMockOptions_In in Hc.
    destruct Hc as (e & i & m' & k & n' & He & Hk & ->).
    rewrite List.Forall_forall in Hfuture. specialize (Hfuture e He).
    destruct (strike_quotes Hdraws Hsqrt Hexp now symbol type
                (fst (getStockPrice symbol n)) e i
                (toFixed 6 (inject_Z (Date_getTime e - now) / ms_per_year))
                (toFixed 3 (4.2 + inject_Z (Z.of_nat i) * 0.13
                            + (draws m' * 0.18 - 0.09)))
                k n')
      as (price & s & H1 & H2 & H3 & H4 & H5 & H6 & H7 & H8).
    - lra.
    - apply toFixed_nonneg, Qdiv_nonneg; [|unfold ms_per_year; lra].
      replace 0 with (inject_Z 0) by reflexivity. rewrite <- Zle_Qle. lia.
    - apply toFixed_nonneg. pose proof (Hdraws m') as Hm'.
      assert (0 <= inject_Z (Z.of_nat i)).
      { replace 0 with (inject_Z 0) by reflexivity. rewrite <- Zle_Qle. lia. }
      lra.
    - destruct (strike_counts Hdraws now symbol type
                  (fst (getStockPrice symbol n)) e i
                  (toFixed 6 (inject_Z (Date_getTime e - now) / ms_per_year))
                  (toFixed 3 (4.2 + inject_Z (Z.of_nat i) * 0.13
                              + (draws m' * 0.18 - 0.09)))
                  k n') as [Hv Ho].
      unfold quotes_ok.
      split; [repeat split; assumption|].
      split; [exists price, s; repeat split; assumption || apply H2|].
      split; [lia|]. split; [lia|].
      rewrite (proj1 (strike_strike now symbol type
                        (fst (getStockPrice symbol n)) e i
                        (toFixed 6 (inject_Z (Date_getTime e - now) / ms_per_year))
                        (toFixed 3 (4.2 + inject_Z (Z.of_nat i) * 0.13
                                    + (draws m' * 0.18 - 0.09)))
                        k n')).
      apply Hrange, Hk. }
  apply List.Forall_forall. intros c Hc. apply in_app_or in Hc.
  destruct Hc as [Hc|Hc].
  - rewrite Hcalls in Hc. exact (Hone call _ c Hc).
  - rewrite Hputs in Hc. exact (Hone put _ c Hc).
Qed.

(** ** The reference host meets the assumptions on hosts *)

Lemma ref_draw_unit (n : nat) : 0 <= RefHost.draw n < 1.
Proof.
  unfold RefHost.draw.
  pose proof (Z.mod_pos_bound (Z.of_nat n * 7919 + 4931) 10007 eq_refl) as [H1 H2].
  split.
  - apply Qle_shift_div_l; [reflexivity|]. rewrite Qmult_0_l.
    replace 0 with (inject_Z 0) by reflexivity. rewrite <- Zle_Qle. exact H1.
  - apply Qlt_shift_div_r; [reflexivity|]. rewrite Qmult_1_l.
    replace 10007 with (inject_Z 10007) by reflexivity.
    rewrite <- Zlt_Qlt. exact H2.
Qed.

Lemma ref_sqrt_nonneg (x : Q) : 0 <= RefHost.sqrt x.
Proof.
  unfold RefHost.sqrt. destruct (Qle_bool x 0); [apply Qle_refl|].
  apply Qle_shift_div_l; [apply pow10_Qpos|]. rewrite Qmult_0_l.
  replace 0 with (inject_Z 0) by reflexivity. rewrite <- Zle_Qle.
  apply Z.sqrt_nonneg.
Qed.

Lemma trunc15_nonneg (y : Q) : 0 <= y -> 0 <= RefHost.trunc15 y.
Proof.
  intros H. unfold RefHost.trunc15.
  apply Qle_shift_div_l; [apply pow10_Qpos|]. rewrite Qmult_0_l.
  replace 0 with (inject_Z 0) by reflexivity. rewrite <- Zle_Qle.
  replace 0%Z with (Qfloor 0) by reflexivity. apply Qfloor_resp_le.
  apply Qmult_le_0_compat; [exact H | apply Qlt_le_weak, pow10_Qpos].
Qed.

Lemma trunc15_ge_1 (y : Q) : 1 <= y -> 1 <= RefHost.trunc15 y.
Proof.
  intros H. unfold RefHost.trunc15.
  apply Qle_shift_div_l; [apply pow10_Qpos|]. rewrite Qmult_1_l.
  rewrite <- Zle_Qle. rewrite <- (Qfloor_Z (pow10 15)) at 1.
  apply Qfloor_resp_le.
  pose proof (pow10_Qpos 15) as Hp.
  rewrite <- (Qmult_1_l (inject_Z (pow10 15))) at 1.
  apply Qmult_le_compat_r; [exact H | apply Qlt_le_weak, Hp].
Qed.

Lemma exp_series_ge_1 (k : nat) (x : Q) :
  0 <= x ->
  forall (term acc : Q) (i : Z),
    0 <= term -> 1 <= acc -> (0 < i)%Z ->
    1 <= RefHost.exp_series k x term acc i.
Proof.
  intros Hx. induction k as [|k IH]; intros term acc i Ht Ha Hi; simpl.
  - exact Ha.
  - assert (Hterm : 0 <= RefHost.trunc15 (term * x / inject_Z i)).
    { apply trunc15_nonneg, Qdiv_nonneg.
      - apply Qmult_le_0_compat; assumption.
      - replace 0 with (inject_Z 0) by reflexivity. rewrite <- Zle_Qle. lia. }
    apply IH; [exact Hterm | apply trunc15_ge_1; lra | lia].
Qed.

Lemma ref_exp_le_1 (x : Q) : x <= 0 -> RefHost.exp x <= 1.
Proof.
  intros H. unfold RefHost.exp.
  replace (Qle_bool x 0) with true by (symmetry; apply Qle_bool_iff, H).
  assert (Hs : 1 <= RefHost.exp_series 16 (- x) 1 1 1).
  { apply exp_series_ge_1; try lra. lia. }
  apply Qle_shift_inv_r; lra.
Qed.

Lemma forEachi_first {A B : Type} (f : A -> nat -> Rand (list B))
    (a : A) (l : list A) (i n : nat) (b : B) :
  In b (fst (f a i n)) -> In b (fst (forEachi f (a :: l) i n)).
Proof.
  intros Hb. simpl. unfold bind, ret.
  destruct (f a i n) as [bs n1]. destruct (forEachi f l (S i) n1) as [rest n2].
  simpl in *. apply in_or_app. now left.
Qed.

(** The first contract of [generateMockOptions]: first expiration, first
    strike, after the draw for the rate. *)
Lemma generateMockOptions_first `{HOST : Host} (now : Z) (symbol : string)
    (e : string) (dates : list string) (k : Q) (strikes : list Q)
    (type : OptionSide) (currentPrice : Q) (n : nat) :
  In (fst (generateMockOptions_strike now symbol type currentPrice e 0
             (toFixed 6 (inject_Z (Date_getTime e - now) / ms_per_year))
             (toFixed 3 (4.2 + inject_Z (Z.of_nat 0) * 0.13
                         + (draws n * 0.18 - 0.09)))
             k (S n)))
     (fst (generateMockOptions now symbol (e :: dates) (k :: strikes) type
             currentPrice n)).
Proof.
  unfold generateMockOptions. apply forEachi_first.
  unfold generateMockOptions_expiry.
  cbv beta iota zeta delta [bind Math_random].
  apply forEachi_first.
  cbv beta iota zeta delta [bind ret].
  destruct (generateMockOptions_strike _ _ _ _ _ _ _ _ _ _) as [c n'].
  now left.
Qed.

(** ** Chains on the reference host *)

Lemma ref_ladder_future :
  Forall (fun e => (RefHost.now <= RefHost.getTime e)%Z)
    (expirationDates ref_chain).
Proof.
  unfold ref_chain.
  destruct (generateMockOptionsData_parts (HOST := RefHost.host)
              RefHost.now "AAPL" 0%nat) as (n1 & n2 & _ & Hd & _).
  rewrite Hd.
  assert (Hl : List.map
                 (fun date => before_T (@Date_toISOString RefHost.host date))
                 (getNextFridays (H := RefHost.host) RefHost.now 6)
               = [ "2026-11-06"; "2026-11-13"; "2026-11-20"; "2026-11-27";
                   "2026-12-04"; "2026-12-11" ]%string)
    by (vm_compute; reflexivity).
  rewrite Hl.
  repeat (constructor; [vm_compute; intro H; discriminate H|]).
  constructor.
Qed.


Lemma C4_price_and_quantity_bounds_witness :
  Forall (quotes_ok (strikeRange ref_chain)) (calls ref_chain ++ puts ref_chain).
Proof.
  exact (C4_price_and_quantity_bounds (HOST := RefHost.host) RefHost.now
           "AAPL" 0 ref_draw_unit ref_sqrt_nonneg ref_exp_le_1
           ref_ladder_future).
Defined.

(** The first call and the first put of the AAPL chain when every draw is
    [r]: first expiration, strike 122.66 under a reference price of 175.23,
    whatever the position in the stream of draws. *)
Lemma fixed_chain_first (r : Q) (type : OptionSide) :
  let H := RefHost.host_fixed r in
  let chain := fst (generateMockOptionsData (H := H) RefHost.now "AAPL" 0%nat) in
  exists n,
    In (fst (generateMockOptions_strike (H := H) RefHost.now "AAPL" type 175.23
               "2026-11-06" 0%nat
               (toFixed 6 (inject_Z (RefHost.getTime "2026-11-06" - RefHost.now)
                           / ms_per_year))
               (toFixed 3 (4.2 + inject_Z (Z.of_nat 0) * 0.13
                           + (r * 0.18 - 0.09)))
               122.66 n))
       (match type with call => calls chain | put => puts chain end).
Proof.
  intros H chain.
  destruct (generateMockOptionsData_parts (HOST := H) RefHost.now "AAPL" 0%nat)
    as (n1 & n2 & _ & Hd & Hc & Hp).
  fold chain in Hd, Hc, Hp. rewrite Hd in Hc, Hp.
  assert (Hl : exists tl,
             List.map (fun date => before_T (@Date_toISOString H date))
               (getNextFridays (H := H) RefHost.now 6)
             = "2026-11-06"%string :: tl)
    by (vm_compute; eexists; reflexivity).
  assert (Hs : fst (getStockPrice (H := H) "AAPL" 0%nat) = 175.23)
    by (vm_compute; reflexivity).
  assert (Hg : exists tl, strike_grid 175.23 = 122.66 :: tl)
    by (vm_compute; eexists; reflexivity).
  destruct Hl as [dtl Hl]. destruct Hg as [gtl Hg].
  rewrite Hs, Hl, Hg in Hc, Hp.
  destruct type.
  - exists (S n1). rewrite Hc.
    apply (generateMockOptions_first (HOST := H)).
  - exists (S n2). rewrite Hp.
    apply (generateMockOptions_first (HOST := H)).
Qed.


(** ** The valuation signal *)

Lemma getRecommendationBadge_bands (o : OptionContract) (d : Q) :
  (2 < d ->
   getRecommendationBadge (with_volatilityDifference (Some d) o)
   = Some (buy_badge d))
  /\ (d < -2 ->
      getRecommendationBadge (with_volatilityDifference (Some d) o)
      = Some (avoid_badge d))
  /\ (-2 <= d <= 2 ->
      getRecommendationBadge (with_volatilityDifference (Some d) o) = None).
Proof.
  unfold getRecommendationBadge, with_volatilityDifference; cbn.
  case_Qltb 2 d; case_Qltb d (-2); cbn; repeat split; intros;
    try reflexivity; lra.
Qed.

Lemma volatilityReasons_bands (d : Q) :
  (3 < d ->
   volatilityReasons d
   = [ ("Undervalued by " +:+ toFixed_string 3 (Math_abs d)
          +:+ "% based on volatility analysis")%string;
       "Our model predicts higher volatility than current market pricing"%string ])
  /\ (0 < d <= 3 ->
      volatilityReasons d
      = [ ("Slightly undervalued by " +:+ toFixed_string 3 d
             +:+ "% based on volatility analysis")%string ])
  /\ (d < -3 ->
      volatilityReasons d
      = [ ("Overvalued by " +:+ toFixed_string 3 (Math_abs d)
             +:+ "% based on volatility analysis")%string;
          "Market is pricing in more volatility than our model predicts"%string ])
  /\ (-3 <= d < 0 ->
      volatilityReasons d
      = [ ("Slightly overvalued by " +:+ toFixed_string 3 (Math_abs d)
             +:+ "% based on volatility analysis")%string ])
  /\ (d == 0 -> volatilityReasons d = []).
Proof.
  unfold volatilityReasons.
  case_Qltb 3 d; case_Qltb 0 d; case_Qltb d (-3); case_Qltb d 0;
    repeat split; intros; try reflexivity; lra.
Qed.

(** C1 (as the code has it): the signal of [getRecommendationBadge] and
    the volatility lines of [getRecommendationReasons] depend on the
    contract through its volatility difference only.  A difference above
    +2 gives the Buy badge, whose text quotes the difference; one below -2
    gives the Avoid badge; one in [-2, +2], or none, gives no badge.  The
    justification lines come in bands split at +3, 0 and -3 (not at 2):
    "Undervalued" above 3, "Slightly undervalued" in (0, 3], "Overvalued"
    below -3, "Slightly overvalued" in [-3, 0), and no line at 0.  At +3.4
    the output says "Undervalued" with 3.400, at +1.0 "Slightly
    undervalued", and at 0 there is neither line nor badge. *)
Theorem C1_valuation_signal (o : OptionContract) :
  (forall d,
      (2 < d ->
       getRecommendationBadge (with_volatilityDifference (Some d) o)
       = Some (buy_badge d))
      /\ (d < -2 ->
          getRecommendationBadge (with_volatilityDifference (Some d) o)
          = Some (avoid_badge d))
      /\ (-2 <= d <= 2 ->
          getRecommendationBadge (with_volatilityDifference (Some d) o) = None))
  /\ getRecommendationBadge (with_volatilityDifference None o) = None
  /\ (forall d,
        getRecommendationReasons (with_volatilityDifference d o)
        = match d with Some x => volatilityReasons x | None => [] end
          ++ otherReasons o)
  /\ (forall d,
        (3 < d ->
         volatilityReasons d
         = [ ("Undervalued by " +:+ toFixed_string 3 (Math_abs d)
                +:+ "% based on volatility analysis")%string;
             "Our model predicts higher volatility than current market pricing"%string ])
        /\ (0 < d <= 3 ->
            volatilityReasons d
            = [ ("Slightly undervalued by " +:+ toFixed_string 3 d
                   +:+ "% based on volatility analysis")%string ])
        /\ (d < -3 ->
            volatilityReasons d
            = [ ("Overvalued by " +:+ toFixed_string 3 (Math_abs d)
                   +:+ "% based on volatility analysis")%string;
                "Market is pricing in more volatility than our model predicts"%string ])
        /\ (-3 <= d < 0 ->
            volatilityReasons d
            = [ ("Slightly overvalued by " +:+ toFixed_string 3 (Math_abs d)
                   +:+ "% based on volatility analysis")%string ])
        /\ (d == 0 -> volatilityReasons d = []))
  /\ volatilityReasons 3.4
     = [ "Undervalued by 3.400% based on volatility analysis";
         "Our model predicts higher volatility than current market pricing" ]%string
  /\ badge_text (buy_badge 3.4)
     = "Undervalued by +3.400%. Predicted IV is higher than market IV."%string
  /\ volatilityReasons 1.0
     = [ "Slightly undervalued by 1.000% based on volatility analysis" ]%string
  /\ volatilityReasons 0 = [].
Proof.
  split; [intros d; apply getRecommendationBadge_bands|].
  split; [reflexivity|].
  split; [intros d; reflexivity|].
  split; [intros d; apply volatilityReasons_bands|].
  repeat split; reflexivity.
Qed.

(** C1, as stated, fails on the bands: a difference of 2.5 is above 2 and
    carries the Buy badge, yet its justification line is the "slightly
    undervalued" one, the very sentence of a difference of 1.0 in (0, 2]. *)
Lemma C1_counterexample :
  2 < 2.5
  /\ getRecommendationBadge (with_volatilityDifference (Some 2.5) sample_contract)
     = Some (buy_badge 2.5)
  /\ volatilityReasons 2.5
     = [ "Slightly undervalued by 2.500% based on volatility analysis" ]%string
  /\ volatilityReasons 1.0
     = [ "Slightly undervalued by 1.000% based on volatility analysis" ]%string.
Proof. repeat split; reflexivity. Qed.

(** ** Fetching a chain *)

(** Every contract of a synthesized chain expires on a date of the
    chain's ladder. *)
Lemma generateMockOptionsData_expiries `{HOST : Host}
    (now : Z) (symbol : string) (n : nat) :
  let chain := fst (generateMockOptionsData now symbol n) in
  Forall (fun c => In (expiryDate c) (expirationDates chain))
    (calls chain ++ puts chain).
Proof.
  intros chain.
  destruct (generateMockOptionsData_parts now symbol n)
    as (n1 & n2 & _ & _ & Hcalls & Hputs).
  fold chain in Hcalls, Hputs.
  apply List.Forall_forall. intros c Hc. apply in_app_or in Hc.
  destruct Hc as [Hc|Hc]; [rewrite Hcalls in Hc | rewrite Hputs in Hc];
    apply generateMockOptions_In in Hc;
    destruct Hc as (e & i & m & k & n' & He & _ & ->);
    match goal with
    | |- In (expiryDate (fst (generateMockOptions_strike ?a ?b ?t ?p ?e ?i ?T ?r ?k ?n))) _ =>
        rewrite (proj2 (strike_strike a b t p e i T r k n))
    end; exact He.
Qed.

Section Fetch.

Context `{HOST : Host}.

Variables (cache : gmap string NousMain.CacheEntry) (now : Z)
  (outcome : FetchOutcome) (later : Z) (symbol : string) (n : nat).

Let cacheKey : string := ("options_" +:+ toUpperCase symbol)%string.

(** A hit: the cached snapshot is returned as it is and nothing else
    changes. *)
Lemma fetch_hit (entry : NousMain.CacheEntry) :
  cache !! cacheKey = Some entry ->
  (now - NousMain.timestamp entry < NousMain.CACHE_EXPIRY)%Z ->
  NousMain.fetchOptionsData cache now outcome later symbol n
  = (Some (NousMain.data entry), cache,
     [ ConsoleLog ("Using cached data for " +:+ symbol) ], n).
Proof.
  intros Hlook Hfresh. unfold NousMain.fetchOptionsData.
  fold cacheKey. rewrite Hlook.
  apply Z.ltb_lt in Hfresh. rewrite Hfresh. reflexivity.
Qed.

(** A miss answered by usable data: the processed chain is returned and
    stored under the normalized key with the time of the call. *)
Lemma fetch_store (d : ApiData) :
  stale cache symbol now = true -> usable outcome = Some d ->
  let processed := NousMain.processOptionsData later d symbol n in
  NousMain.fetchOptionsData cache now outcome later symbol n
  = (Some (fst processed),
     <[cacheKey := {| NousMain.data := fst processed;
                      NousMain.timestamp := now |}]> cache,
     [], snd processed).
Proof.
  intros Hstale Hok processed. unfold NousMain.fetchOptionsData.
  unfold stale in Hstale. fold cacheKey in Hstale |- *.
  assert (Hfresh :
            (let* processedData := NousMain.processOptionsData later d symbol in
             ret (Some processedData,
                  <[cacheKey := {| NousMain.data := processedData;
                                   NousMain.timestamp := now |}]> cache,
                  @nil Notice)) n
            = (Some (fst processed),
               <[cacheKey := {| NousMain.data := fst processed;
                                NousMain.timestamp := now |}]> cache,
               [], snd processed)).
  { unfold bind, ret, processed.
    destruct (NousMain.processOptionsData later d symbol n). reflexivity. }
  destruct outcome as [msg|ok status body]; try discriminate Hok.
  destruct ok; try discriminate Hok.
  destruct body as [msg|d']; try discriminate Hok.
  cbn in Hok. cbn [negb].
  destruct (data_Error_Message d') eqn:E1; try discriminate Hok.
  destruct (data_Note d') eqn:E2; try discriminate Hok.
  injection Hok as ->.
  destruct (cache !! cacheKey) as [entry|].
  - apply negb_true_iff in Hstale. rewrite Hstale. exact Hfresh.
  - exact Hfresh.
Qed.

(** A miss answered by anything else: [null] is returned and the cache is
    left as it was. *)
Lemma fetch_null :
  stale cache symbol now = true -> usable outcome = None ->
  fst (fst (NousMain.fetchOptionsData cache now outcome later symbol n))
  = (None, cache).
Proof.
  intros Hstale Hbad. unfold NousMain.fetchOptionsData.
  unfold stale in Hstale. fold cacheKey in Hstale |- *.
  assert (Hfresh :
            fst (fst (match outcome with
             | FetchRejected message =>
                 ret (None, cache,
                      [ ConsoleError "Error fetching options data:";
                        Toast "error"
                          ("Failed to fetch options data: " +:+ message) "" ])
             | FetchResponse ok status body =>
                 if negb ok then
                   ret (None, cache,
                        [ ConsoleError "Error fetching options data:";
                          Toast "error"
                            ("Failed to fetch options data: "
                               +:+ ("API request failed with status: "
                                      +:+ Z_toString status)) "" ])
                 else
                   match body with
                   | JsonError message =>
                       ret (None, cache,
                            [ ConsoleError "Error fetching options data:";
                              Toast "error"
                                ("Failed to fetch options data: " +:+ message) "" ])
                   | JsonValue d =>
                       match data_Error_Message d with
                       | Some message =>
                           ret (None, cache,
                                [ ConsoleError "Error fetching options data:";
                                  Toast "error"
                                    ("Failed to fetch options data: " +:+ message)
                                    "" ])
                       | None =>
                           if data_Note d then
                             ret (None, cache,
                                  [ Toast "warning"
                                      "API call frequency limit reached. Please try again later."
                                      "" ])
                           else
                             let* processedData :=
                               NousMain.processOptionsData later d symbol in
                             ret (Some processedData,
                                  <[cacheKey := {| NousMain.data := processedData;
                                                   NousMain.timestamp := now |}]>
                                    cache,
                                  [])
                       end
                   end
             end n))
            = (None, cache)).
  { destruct outcome as [msg|ok status body]; [reflexivity|].
    destruct ok; [|reflexivity].
    destruct body as [msg|d']; [reflexivity|].
    cbn in Hbad |- *.
    destruct (data_Error_Message d'); [reflexivity|].
    destruct (data_Note d'); [reflexivity | discriminate Hbad]. }
  destruct (cache !! cacheKey) as [entry|].
  - apply negb_true_iff in Hstale. rewrite Hstale. exact Hfresh.
  - exact Hfresh.
Qed.

End Fetch.

Lemma processOptionsData_lastUpdate `{HOST : Host} (today : Z) (d : ApiData)
    (symbol : string) (n : nat) :
  lastUpdate (fst (NousMain.processOptionsData today d symbol n))
  = Date_toISOString today.
Proof.
  unfold NousMain.processOptionsData. cbv beta iota zeta delta [bind ret].
  repeat match goal with
         | |- context [let (_, _) := ?m in _] => destruct m
         end.
  reflexivity.
Qed.

(** C2 (as the code has it): the entry point of the generator module
    returns, whatever the network answers, the chain that
    [generateMockOptionsData] synthesizes for the symbol, every contract
    of which expires on a date of the chain's ladder; the entry point of
    [nous-main], on a cache miss, returns the processed chain when the
    answer is usable and [null], leaving the cache as it was, when the
    fetch is rejected, the response is not ok, the body does not parse or
    carries an error message, or the provider signals its rate limit. *)
Theorem C2_fetch_falls_back_or_null `{HOST : Host} :
  (forall now outcome symbol n,
      fst (fst (fetchOptionsData now outcome symbol n))
      = fst (generateMockOptionsData now symbol n))
  /\ (forall now symbol n,
        let chain := fst (generateMockOptionsData now symbol n) in
        Forall (fun c => In (expiryDate c) (expirationDates chain))
          (calls chain ++ puts chain))
  /\ (forall cache now outcome later symbol n,
        stale cache symbol now = true ->
        match usable outcome with
        | Some d =>
            fst (fst (fst (NousMain.fetchOptionsData cache now outcome later
                             symbol n)))
            = Some (fst (NousMain.processOptionsData later d symbol n))
        | None =>
            fst (fst (NousMain.fetchOptionsData cache now outcome later
                        symbol n))
            = (None, cache)
        end).
Proof.
  split; [|split].
  - intros now outcome symbol n.
    unfold fetchOptionsData, transformAlphaVantageData, bind, ret.
    destruct outcome as [msg|ok status [msg|d]];
      try (destruct (generateMockOptionsData now symbol n); reflexivity).
    destruct (data_note d || _);
      destruct (generateMockOptionsData now symbol n); reflexivity.
  - intros now symbol n. apply generateMockOptionsData_expiries.
  - intros cache now outcome later symbol n Hstale.
    destruct (usable outcome) as [d|] eqn:E.
    + rewrite (fetch_store cache now outcome later symbol n d Hstale E).
      reflexivity.
    + apply fetch_null; assumption.
Qed.

(** C2, as stated, fails for the entry point of [nous-main]: with an empty
    cache, a rejected fetch and a rate-limit answer both return [null]. *)
Lemma C2_counterexample :
  fst (fst (fst (NousMain.fetchOptionsData (H := RefHost.host) ∅ RefHost.now
                   (FetchRejected "Failed to fetch") RefHost.now "AAPL" 0%nat)))
  = None
  /\ fst (fst (fst (NousMain.fetchOptionsData (H := RefHost.host) ∅ RefHost.now
                      rate_limited RefHost.now "AAPL" 0%nat)))
     = None.
Proof. split; reflexivity. Qed.

(** C6 (as the code has it): after a request that misses the cache and is
    answered by usable data, a request for a symbol with the same upper
    case made less than five minutes after the first returns the stored
    snapshot, so the same generation time stamp, and leaves the cache
    alone; made five minutes or more after it, it returns a chain rebuilt
    at the time of the rebuild and stores it under the time of the call
    when the network answers with usable data, and returns [null] and
    keeps the old entry otherwise. *)
Theorem C6_cache_time_to_live `{HOST : Host}
    (cache : gmap string NousMain.CacheEntry) (symbol symbol' : string)
    (now1 later1 : Z) (outcome1 : FetchOutcome) (d1 : ApiData) (n1 : nat)
    (now2 later2 : Z) (outcome2 : FetchOutcome) (n2 : nat) :
  stale cache symbol now1 = true ->
  usable outcome1 = Some d1 ->
  toUpperCase symbol' = toUpperCase symbol ->
  let first :=
    NousMain.fetchOptionsData cache now1 outcome1 later1 symbol n1 in
  let chain1 := fst (NousMain.processOptionsData later1 d1 symbol n1) in
  let cache1 := snd (fst (fst first)) in
  let second :=
    NousMain.fetchOptionsData cache1 now2 outcome2 later2 symbol' n2 in
  fst (fst (fst first)) = Some chain1
  /\ lastUpdate chain1 = Date_toISOString later1
  /\ ((now2 - now1 < NousMain.CACHE_EXPIRY)%Z ->
      fst (fst second) = (Some chain1, cache1))
  /\ ((NousMain.CACHE_EXPIRY <= now2 - now1)%Z ->
      match usable outcome2 with
      | Some d2 =>
          let chain2 := fst (NousMain.processOptionsData later2 d2 symbol' n2) in
          fst (fst (fst second)) = Some chain2
          /\ lastUpdate chain2 = Date_toISOString later2
          /\ snd (fst (fst second)) !! ("options_" +:+ toUpperCase symbol)%string
             = Some {| NousMain.data := chain2; NousMain.timestamp := now2 |}
      | None => fst (fst second) = (None, cache1)
      end).
Proof.
  intros Hstale Hok Hup first chain1 cache1 second.
  pose proof (fetch_store cache now1 outcome1 later1 symbol n1 d1 Hstale Hok)
    as Hfirst.
  cbv zeta in Hfirst. fold first chain1 in Hfirst.
  assert (Hcache1 :
            cache1 = <[("options_" +:+ toUpperCase symbol)%string :=
                         {| NousMain.data := chain1;
                            NousMain.timestamp := now1 |}]> cache).
  { unfold cache1. rewrite Hfirst. reflexivity. }
  assert (Hlook :
            cache1 !! ("options_" +:+ toUpperCase symbol')%string
            = Some {| NousMain.data := chain1; NousMain.timestamp := now1 |}).
  { rewrite Hup, Hcache1. apply lookup_insert_eq. }
  split; [rewrite Hfirst; reflexivity|].
  split; [apply processOptionsData_lastUpdate|].
  split.
  - intros Hyoung. unfold second.
    rewrite (fetch_hit cache1 now2 outcome2 later2 symbol' n2 _ Hlook Hyoung).
    reflexivity.
  - intros Hold.
    assert (Hstale2 : stale cache1 symbol' now2 = true).
    { unfold stale. rewrite Hlook. cbn.
      apply negb_true_iff, Z.ltb_ge. exact Hold. }
    destruct (usable outcome2) as [d2|] eqn:E2.
    + intros chain2. unfold second.
      rewrite (fetch_store cache1 now2 outcome2 later2 symbol' n2 d2 Hstale2 E2).
      cbn [fst snd]. fold chain2.
      split; [reflexivity|].
      split; [apply processOptionsData_lastUpdate|].
      rewrite Hup. apply lookup_insert_eq.
    + apply fetch_null; assumption.
Qed.

Lemma stale_empty (symbol : string) (now : Z) : stale ∅ symbol now = true.
Proof. unfold stale. rewrite lookup_empty. reflexivity. Qed.

Lemma C6_cache_time_to_live_witness :
  let first :=
    NousMain.fetchOptionsData (H := RefHost.host) ∅ RefHost.now answered
      (RefHost.now + 350) "aapl" 0%nat in
  let chain1 :=
    fst (NousMain.processOptionsData (H := RefHost.host) (RefHost.now + 350)
           {| data_note := false; data_data := Some 1%nat;
              data_Error_Message := None; data_Note := false |} "aapl" 0%nat) in
  let second :=
    NousMain.fetchOptionsData (H := RefHost.host) (snd (fst (fst first)))
      (RefHost.now + 60000) rate_limited (RefHost.now + 60000) "AAPL" 7%nat in
  fst (fst (fst first)) = Some chain1
  /\ fst (fst second) = (Some chain1, snd (fst (fst first))).
Proof.
  intros first chain1 second.
  destruct (C6_cache_time_to_live (HOST := RefHost.host) ∅ "aapl" "AAPL"
              RefHost.now (RefHost.now + 350) answered
              {| data_note := false; data_data := Some 1%nat;
                 data_Error_Message := None; data_Note := false |} 0%nat
              (RefHost.now + 60000) (RefHost.now + 60000) rate_limited 7%nat
              (stale_empty "aapl" RefHost.now) eq_refl eq_refl)
    as (H1 & _ & H3 & _).
  split; [exact H1|]. apply H3. reflexivity.
Defined.

(** C6, as stated, fails after the time to live: with an entry that is
    five minutes old, a rate-limit answer makes the request return [null]
    and rebuilds nothing; the old entry stays. *)
Lemma C6_counterexample :
  let cache : gmap string NousMain.CacheEntry :=
    <["options_AAPL"%string := {| NousMain.data := empty_chain;
                                  NousMain.timestamp := RefHost.now |}]> ∅ in
  ~ (RefHost.now + 300000 - RefHost.now < NousMain.CACHE_EXPIRY)%Z
  /\ fst (fst (NousMain.fetchOptionsData (H := RefHost.host) cache
                 (RefHost.now + 300000) rate_limited (RefHost.now + 300000)
                 "AAPL" 0%nat))
     = (None, cache).
Proof.
  intros cache. split.
  - intros H. vm_compute in H. discriminate H.
  - apply fetch_null; reflexivity.
Qed.

(** ** Filtering *)

Lemma filter_all {A : Type} (l : list A) : List.filter (fun _ => true) l = l.
Proof. induction l as [|a l IH]; simpl; [|rewrite IH]; reflexivity. Qed.

Lemma filter_twice {A : Type} (p q : A -> bool) (l : list A) :
  List.filter q (List.filter p l) = List.filter (fun x => p x && q x) l.
Proof.
  induction l as [|a l IH]; simpl; [reflexivity|].
  destruct (p a); simpl; [destruct (q a)|]; rewrite IH; reflexivity.
Qed.

Lemma filter_sublist {A : Type} (p : A -> bool) (l : list A) :
  sublist (List.filter p l) l.
Proof.
  induction l as [|a l IH]; simpl; [constructor|].
  destruct (p a); [apply sublist_skip | apply sublist_cons]; exact IH.
Qed.

(** The stages of [getFilteredOptions], one filter after the other. *)
Lemma getFilteredOptions_stages (chain : OptionChain) (f : OptionsFilters) :
  getFilteredOptions (Some chain) f
  = List.filter (passes_recommended f)
      (List.filter (passes_minVolume f)
         (List.filter (passes_moneyness chain f)
            (List.filter (passes_maxStrike f)
               (List.filter (passes_minStrike f)
                  (List.filter (passes_expiry f)
                     (chain_side chain (optionType f))))))).
Proof.
  unfold getFilteredOptions, passes_recommended, passes_minVolume,
    passes_moneyness, passes_maxStrike, passes_minStrike, passes_expiry,
    near_mid_strike.
  destruct (filterExpiryDate f) as [d|]; [destruct (String.eqb d "")|];
    destruct (minStrike f), (maxStrike f), (moneyness f), (minVolume f),
      (showRecommendationsOnly f);
    rewrite ?filter_all; reflexivity.
Qed.

(** The stages together: one filter by the conjunction of the six tests. *)
Lemma getFilteredOptions_conj (chain : OptionChain) (f : OptionsFilters) :
  getFilteredOptions (Some chain) f
  = List.filter
      (fun o => passes_expiry f o && passes_minStrike f o
                && passes_maxStrike f o && passes_moneyness chain f o
                && passes_minVolume f o && passes_recommended f o)
      (chain_side chain (optionType f)).
Proof.
  rewrite getFilteredOptions_stages, !filter_twice.
  apply List.filter_ext. intros o. rewrite !andb_assoc. reflexivity.
Qed.

(** C5: [getFilteredOptions] applies the six tests in the order
    expiration, lower strike bound, upper strike bound, moneyness, minimum
    volume, recommended-only, each as a filter on the result of the one
    before; together they keep the contracts of the side that pass all six,
    in their order; a test whose field is unset passes every contract; the
    result is a subsequence of the side, no longer than it; and with every
    optional field unset the result is the side itself.  (The function is
    pure: the chain it reads is a value.) *)
Theorem C5_filter_narrows (chain : OptionChain) (f : OptionsFilters) :
  let side := chain_side chain (optionType f) in
  getFilteredOptions (Some chain) f
  = List.filter (passes_recommended f)
      (List.filter (passes_minVolume f)
         (List.filter (passes_moneyness chain f)
            (List.filter (passes_maxStrike f)
               (List.filter (passes_minStrike f)
                  (List.filter (passes_expiry f) side)))))
  /\ getFilteredOptions (Some chain) f
     = List.filter
         (fun o => passes_expiry f o && passes_minStrike f o
                   && passes_maxStrike f o && passes_moneyness chain f o
                   && passes_minVolume f o && passes_recommended f o)
         side
  /\ ((filterExpiryDate f = None \/ filterExpiryDate f = Some ""%string) ->
      forall o, passes_expiry f o = true)
  /\ (minStrike f = None -> forall o, passes_minStrike f o = true)
  /\ (maxStrike f = None -> forall o, passes_maxStrike f o = true)
  /\ (moneyness f = ALL -> forall o, passes_moneyness chain f o = true)
  /\ (minVolume f = None -> forall o, passes_minVolume f o = true)
  /\ (showRecommendationsOnly f = false ->
      forall o, passes_recommended f o = true)
  /\ sublist (getFilteredOptions (Some chain) f) side
  /\ (length (getFilteredOptions (Some chain) f) <= length side)%nat
  /\ (unset f -> getFilteredOptions (Some chain) f = side).
Proof.
  intros side. pose proof (getFilteredOptions_stages chain f) as Hst.
  pose proof (getFilteredOptions_conj chain f) as Hconj.
  fold side in Hst, Hconj.
  split; [exact Hst|]. split; [exact Hconj|].
  split.
  { intros [E|E] o; unfold passes_expiry; rewrite E; reflexivity. }
  split; [intros E o; unfold passes_minStrike; rewrite E; reflexivity|].
  split; [intros E o; unfold passes_maxStrike; rewrite E; reflexivity|].
  split; [intros E o; unfold passes_moneyness; rewrite E; reflexivity|].
  split; [intros E o; unfold passes_minVolume; rewrite E; reflexivity|].
  split; [intros E o; unfold passes_recommended; rewrite E; reflexivity|].
  split; [rewrite Hconj; apply filter_sublist|].
  split; [rewrite Hconj; apply sublist_length, filter_sublist|].
  intros (E1 & E2 & E3 & E4 & E5 & E6). rewrite Hconj.
  rewrite <- (filter_all side) at 2. apply List.filter_ext. intros o.
  unfold passes_expiry, passes_minStrike, passes_maxStrike, passes_moneyness,
    passes_minVolume, passes_recommended.
  rewrite E2, E3, E4, E5, E6. destruct E1 as [E1|E1]; rewrite E1; reflexivity.
Qed.


(** ** Volume by expiration *)

Lemma fold_left_volume (l : list OptionContract) (acc : Z) :
  List.fold_left (fun sum opt => (sum + volume opt)%Z) l acc
  = (acc + total (List.map volume l))%Z.
Proof.
  revert acc. induction l as [|o l IH]; intros acc; simpl.
  - lia.
  - rewrite IH. unfold total. lia.
Qed.

Lemma bucket_volume_cons (o : OptionContract) (l : list OptionContract)
    (date : string) :
  bucket_volume (o :: l) date
  = ((if String.eqb (expiryDate o) date then volume o else 0)
     + bucket_volume l date)%Z.
Proof.
  unfold bucket_volume. simpl.
  destruct (String.eqb (expiryDate o) date); simpl;
    rewrite !fold_left_volume; simpl; lia.
Qed.

(** Over a ladder without repeated dates, a date of the ladder is met
    once. *)
Lemma total_indicator (dates : list string) (e : string) (v : Z) :
  List.NoDup dates -> In e dates ->
  total (List.map (fun d => if String.eqb e d then v else 0%Z) dates) = v.
Proof.
  intros Hnd. induction Hnd as [|d dates Hd Hnd IH]; intros He.
  - destruct He.
  - simpl. destruct (String.eqb e d) eqn:E.
    + apply String.eqb_eq in E. subst d.
      assert (Hz : total (List.map (fun d => if String.eqb e d then v else 0%Z)
                            dates) = 0%Z).
      { clear IH He Hnd. induction dates as [|d' dates IH']; [reflexivity|].
        simpl. destruct (String.eqb e d') eqn:E'.
        - apply String.eqb_eq in E'. subst d'. exfalso. apply Hd. now left.
        - rewrite IH'; [reflexivity|]. intros Hin. apply Hd. now right. }
      rewrite Hz. lia.
    + destruct He as [He|He].
      * subst d. rewrite String.eqb_refl in E. discriminate E.
      * rewrite (IH He). lia.
Qed.

Lemma total_buckets (dates : list string) (options : list OptionContract) :
  List.NoDup dates ->
  Forall (fun c => In (expiryDate c) dates) options ->
  total (List.map (bucket_volume options) dates)
  = total (List.map volume options).
Proof.
  intros Hnd Hall. induction Hall as [|o options Ho Hall IH].
  - induction dates as [|d dates IHd]; [reflexivity|].
    inversion Hnd; subst. simpl. rewrite IHd by assumption. reflexivity.
  - simpl. rewrite <- IH, <- (total_indicator dates (expiryDate o) (volume o) Hnd Ho).
    clear. induction dates as [|d dates IHd]; [reflexivity|].
    simpl. rewrite bucket_volume_cons, IHd. lia.
Qed.

(** C9: for a chain whose ladder repeats no date and whose calls all
    expire on a date of the ladder, [volumeByExpiry] has one bucket per
    date of the ladder, in ladder order, and the volumes of the buckets add
    up to the volume of all calls (the side that the component queries). *)
Theorem C9_volume_conserved `{HOST : Host} (chain : OptionChain) :
  List.NoDup (expirationDates chain) ->
  Forall (fun c => In (expiryDate c) (expirationDates chain)) (calls chain) ->
  List.map fst (volumeByExpiry chain)
  = List.map Date_toLocaleDateString (expirationDates chain)
  /\ total (List.map snd (volumeByExpiry chain))
     = total (List.map volume (chain_side chain calls_side)).
Proof.
  intros Hnd Hall. unfold volumeByExpiry. rewrite !List.map_map. cbn [fst snd].
  split; [reflexivity|].
  fold (bucket_volume (chain_side chain calls_side)).
  change (fun x : string => bucket_volume (chain_side chain calls_side) x)
    with (bucket_volume (chain_side chain calls_side)).
  apply total_buckets; assumption.
Qed.

Lemma ref_ladder_NoDup : List.NoDup (expirationDates ref_chain).
Proof.
  unfold ref_chain.
  destruct (generateMockOptionsData_parts (HOST := RefHost.host)
              RefHost.now "AAPL" 0%nat) as (n1 & n2 & _ & Hd & _).
  rewrite Hd.
  assert (Hl : List.map
                 (fun date => before_T (@Date_toISOString RefHost.host date))
                 (getNextFridays (H := RefHost.host) RefHost.now 6)
               = [ "2026-11-06"; "2026-11-13"; "2026-11-20"; "2026-11-27";
                   "2026-12-04"; "2026-12-11" ]%string)
    by (vm_compute; reflexivity).
  rewrite Hl.
  repeat (constructor;
          [cbn; intros H; repeat (destruct H as [H|H]; [discriminate H|]);
           exact H|]).
  constructor.
Qed.

Lemma C9_volume_conserved_witness :
  List.map fst (volumeByExpiry (H := RefHost.host) ref_chain)
  = List.map RefHost.toLocaleDateString (expirationDates ref_chain)
  /\ total (List.map snd (volumeByExpiry (H := RefHost.host) ref_chain))
     = total (List.map volume (calls ref_chain)).
Proof.
  apply (C9_volume_conserved (HOST := RefHost.host) ref_chain ref_ladder_NoDup).
  pose proof (generateMockOptionsData_expiries (HOST := RefHost.host)
                RefHost.now "AAPL" 0%nat) as H.
  cbv zeta in H. apply Forall_app in H. exact (proj1 H).
Defined.

(** ** The recommended flag and the volatility difference *)

Section Independence.

Context (HOST : Host) (i : nat) (v : Q).

Let HOST' : Host := with_draw HOST i v.

Lemma draws_other (k : nat) : k <> i -> @draws HOST' k = @draws HOST k.
Proof.
  intros Hk. cbn. apply Nat.eqb_neq in Hk. rewrite Hk. reflexivity.
Qed.

Lemma price_other (spot strike T vol r : Q) (type : OptionSide) (m : nat) :
  (i < m)%nat ->
  calculateRealisticOptionPrice (H := HOST') spot strike T vol r type m
  = calculateRealisticOptionPrice (H := HOST) spot strike T vol r type m.
Proof.
  intros Hm. unfold calculateRealisticOptionPrice, bind, ret, Math_random.
  destruct type; [destruct (Qltb strike spot) | destruct (Qltb spot strike)];
    cbv beta; rewrite ?draws_other by lia; reflexivity.
Qed.

Lemma price_advances `{H : Host} (spot strike T vol r : Q)
    (type : OptionSide) (m : nat) :
  (m < snd (calculateRealisticOptionPrice spot strike T vol r type m))%nat.
Proof.
  unfold calculateRealisticOptionPrice, bind, ret, Math_random.
  destruct type; [destruct (Qltb strike spot) | destruct (Qltb spot strike)];
    simpl; lia.
Qed.

Lemma delta_other (spot strike : Q) (type : OptionSide) (T vol : Q) (m : nat) :
  (i < m)%nat ->
  calculateRealisticDelta (H := HOST') spot strike type T vol m
  = calculateRealisticDelta (H := HOST) spot strike type T vol m.
Proof.
  intros Hm. unfold calculateRealisticDelta, bind, ret, Math_random.
  destruct type, (Qltb strike spot);
    cbv beta; rewrite ?draws_other by lia; reflexivity.
Qed.

Lemma delta_advances `{H : Host} (spot strike : Q) (type : OptionSide)
    (T vol : Q) (m : nat) :
  (m < snd (calculateRealisticDelta spot strike type T vol m))%nat.
Proof.
  unfold calculateRealisticDelta, bind, ret, Math_random.
  destruct type, (Qltb strike spot); simpl; lia.
Qed.

End Independence.

(** In one synthesized contract the volatility difference is read off the
    second draw, and replacing that draw changes neither the flag
    [isRecommended] nor the draw it is computed from. *)
Lemma strike_flag_independent (HOST : Host) (now : Z) (symbol : string)
    (type : OptionSide) (currentPrice : Q) (expiry : string) (dateIndex : nat)
    (T r strike0 : Q) (n : nat) (v : Q) :
  let c :=
    fst (generateMockOptions_strike (H := HOST) now symbol type currentPrice
           expiry dateIndex T r strike0 n) in
  let c' :=
    fst (generateMockOptions_strike (H := with_draw HOST (S n) v) now symbol
           type currentPrice expiry dateIndex T r strike0 n) in
  volatilityDifference c
  = array_get volatilityDifferenceValues (Math_floor (@draws HOST (S n) * 24))
  /\ volatilityDifference c'
     = array_get volatilityDifferenceValues (Math_floor (v * 24))
  /\ isRecommended c' = isRecommended c
  /\ exists k, (S n < k)%nat
       /\ isRecommended c = Some (Qltb 0.8 (@draws HOST k)).
Proof.
  intros c c'. unfold c, c', generateMockOptions_strike.
  cbv beta iota zeta delta [bind ret Math_random].
  rewrite (draws_other HOST (S n) v n) by lia.
  set (iv := toFixed 4 _).
  rewrite (price_other HOST (S n) v) by lia.
  pose proof (price_advances (H := HOST) currentPrice strike0 T iv (r / 100)
                type (S (S n))) as Hadv.
  destruct (calculateRealisticOptionPrice (H := HOST) currentPrice strike0 T iv
              (r / 100) type (S (S n))) as [price n1].
  cbn [snd] in Hadv.
  rewrite (delta_other HOST (S n) v) by lia.
  pose proof (delta_advances (H := HOST) currentPrice strike0 type T iv
                (S (S (S (S n1))))) as Hadv'.
  destruct (calculateRealisticDelta (H := HOST) currentPrice strike0 type T iv
              (S (S (S (S n1))))) as [rawDelta n2].
  cbn [snd] in Hadv'.
  cbn [fst volatilityDifference isRecommended].
  rewrite (draws_other HOST (S n) v n2) by lia.
  split; [reflexivity|]. split.
  - cbn [draws with_draw]. rewrite Nat.eqb_refl. reflexivity.
  - split; [reflexivity|]. exists n2. split; [lia | reflexivity].
Qed.

(** In [nous-main] the flag is a draw below 0.1 and no contract carries a
    volatility difference. *)
Lemma nous_flag `{HOST : Host} (today : Z) (symbol : string) (basePrice : Q)
    (isCall : bool) (expiry : string) (strike0 : Q) (n : nat) :
  let c :=
    fst (NousMain.generateOptions_strike today symbol basePrice isCall expiry
           strike0 n) in
  volatilityDifference c = None
  /\ isRecommended c = Some (Qltb (draws (S (S n))) 0.1).
Proof.
  unfold NousMain.generateOptions_strike.
  cbv beta iota zeta delta [bind ret Math_random].
  destruct (Qltb (draws (S (S n))) 0.1); split; reflexivity.
Qed.

(** C10: the flag [isRecommended] of a synthesized contract does not
    depend on its volatility difference.  The difference is read off one
    draw, the flag is a later draw compared with 0.8, and replacing the
    draw of the difference leaves the flag as it was; in [nous-main] the
    flag is a draw compared with 0.1 and there is no volatility
    difference.  With every draw at 0.75 the first AAPL call has a
    difference of 3.114, so the Buy badge, and is not recommended: the
    recommended-only filter drops it. *)
Theorem C10_flag_independent_of_difference :
  (forall (HOST : Host) now symbol type currentPrice expiry dateIndex T r
          strike0 n v,
      let c :=
        fst (generateMockOptions_strike (H := HOST) now symbol type
               currentPrice expiry dateIndex T r strike0 n) in
      let c' :=
        fst (generateMockOptions_strike (H := with_draw HOST (S n) v) now
               symbol type currentPrice expiry dateIndex T r strike0 n) in
      volatilityDifference c
      = array_get volatilityDifferenceValues (Math_floor (@draws HOST (S n) * 24))
      /\ volatilityDifference c'
         = array_get volatilityDifferenceValues (Math_floor (v * 24))
      /\ isRecommended c' = isRecommended c
      /\ exists k, (S n < k)%nat
           /\ isRecommended c = Some (Qltb 0.8 (@draws HOST k)))
  /\ (forall (HOST : Host) today symbol basePrice isCall expiry strike0 n,
        let c :=
          fst (NousMain.generateOptions_strike (H := HOST) today symbol
                 basePrice isCall expiry strike0 n) in
        volatilityDifference c = None
        /\ isRecommended c = Some (Qltb (@draws HOST (S (S n))) 0.1))
  /\ (let chain :=
        fst (generateMockOptionsData (H := RefHost.host_fixed 0.75)
               RefHost.now "AAPL" 0%nat) in
      exists c d,
        In c (calls chain)
        /\ volatilityDifference c = Some d /\ 2 < d
        /\ getRecommendationBadge c = Some (buy_badge d)
        /\ isRecommended c = Some false
        /\ passes_recommended
             {| ticker := "AAPL"; optionType := calls_side;
                filterExpiryDate := None; minStrike := None;
                maxStrike := None; moneyness := ALL; minVolume := None;
                showRecommendationsOnly := true |} c = false).
Proof.
  split; [intros; apply strike_flag_independent|].
  split; [intros; apply nous_flag|].
  intros chain.
  destruct (fixed_chain_first 0.75 call) as [n Hin].
  match type of Hin with
  | In ?c _ =>
      let v := eval vm_compute in (volatilityDifference c) in
      match v with Some ?d => exists c, d end
  end.
  split; [exact Hin|].
  repeat split; vm_compute; reflexivity.
Qed.

(** ** Sorting: what follows from a consistent comparison function *)

Section Consistent.

Context {A : Type} (cmp : A -> A -> Z) (dom : list A).

Hypothesis Hcons : consistent_on cmp dom.

Lemma cons_refl (a : A) : In a dom -> cmp a a = 0%Z.
Proof. intros Ha. exact (proj1 (Hcons a a a Ha Ha Ha)). Qed.

Lemma cons_sym (a b : A) :
  In a dom -> In b dom -> cmp a b = 0%Z -> cmp b a = 0%Z.
Proof.
  intros Ha Hb. exact (proj1 (proj2 (Hcons a b a Ha Hb Ha))).
Qed.

Lemma cons_eq_trans (a b c : A) :
  In a dom -> In b dom -> In c dom ->
  cmp a b = 0%Z -> cmp b c = 0%Z -> cmp a c = 0%Z.
Proof.
  intros Ha Hb Hc. exact (proj1 (proj2 (proj2 (Hcons a b c Ha Hb Hc)))).
Qed.

Lemma cons_lt_trans (a b c : A) :
  In a dom -> In b dom -> In c dom ->
  (cmp a b < 0)%Z -> (cmp b c < 0)%Z -> (cmp a c < 0)%Z.
Proof.
  intros Ha Hb Hc.
  exact (proj1 (proj2 (proj2 (proj2 (Hcons a b c Ha Hb Hc))))).
Qed.

Lemma cons_gt_trans (a b c : A) :
  In a dom -> In b dom -> In c dom ->
  (cmp a b > 0)%Z -> (cmp b c > 0)%Z -> (cmp a c > 0)%Z.
Proof.
  intros Ha Hb Hc.
  exact (proj2 (proj2 (proj2 (proj2 (Hcons a b c Ha Hb Hc))))).
Qed.

(** A larger element is met by a smaller one the other way round. *)
Lemma cons_gt_lt (a b : A) :
  In a dom -> In b dom -> (cmp a b > 0)%Z -> (cmp b a < 0)%Z.
Proof.
  intros Ha Hb Hgt.
  destruct (Z.lt_trichotomy (cmp b a) 0) as [H|[H|H]]; [exact H| |].
  - apply (cons_sym b a Hb Ha) in H. lia.
  - pose proof (cons_gt_trans a b a Ha Hb Ha Hgt ltac:(lia)) as Hc.
    rewrite (cons_refl a Ha) in Hc. lia.
Qed.

Lemma cons_lt_gt (a b : A) :
  In a dom -> In b dom -> (cmp a b < 0)%Z -> (cmp b a > 0)%Z.
Proof.
  intros Ha Hb Hlt.
  destruct (Z.lt_trichotomy (cmp b a) 0) as [H|[H|H]]; [| |lia].
  - pose proof (cons_lt_trans a b a Ha Hb Ha Hlt H) as Hc.
    rewrite (cons_refl a Ha) in Hc. lia.
  - apply (cons_sym b a Hb Ha) in H. lia.
Qed.

Lemma cons_le_trans (a b c : A) :
  In a dom -> In b dom -> In c dom ->
  (cmp a b <= 0)%Z -> (cmp b c <= 0)%Z -> (cmp a c <= 0)%Z.
Proof.
  intros Ha Hb Hc Hab Hbc.
  destruct (Z.lt_trichotomy (cmp a c) 0) as [H|[H|H]]; [lia|lia|].
  exfalso.
  assert (Hca : (cmp c a < 0)%Z) by (apply cons_gt_lt; [assumption..|lia]).
  destruct (Z.eq_dec (cmp a b) 0%Z) as [Eab|Nab];
    destruct (Z.eq_dec (cmp b c) 0%Z) as [Ebc|Nbc].
  - pose proof (cons_eq_trans a b c Ha Hb Hc Eab Ebc). lia.
  - (* a = b < c, yet c < a *)
    pose proof (cons_lt_trans b c a Hb Hc Ha ltac:(lia) Hca) as Hba.
    apply (cons_sym a b Ha Hb) in Eab. lia.
  - (* a < b = c, yet c < a *)
    pose proof (cons_lt_trans c a b Hc Ha Hb Hca ltac:(lia)) as Hcb.
    apply (cons_sym b c Hb Hc) in Ebc. lia.
  - pose proof (cons_lt_trans a b c Ha Hb Hc ltac:(lia) ltac:(lia)). lia.
Qed.

Lemma insert_sorted_perm (x : A) (l : list A) :
  Permutation (x :: l) (insert_sorted cmp x l).
Proof.
  induction l as [|y l IH]; simpl; [apply Permutation_refl|].
  destruct (cmp x y <=? 0)%Z; [apply Permutation_refl|].
  eapply Permutation_trans; [apply perm_swap|]. apply perm_skip, IH.
Qed.

Lemma insertion_sort_perm (l : list A) : Permutation l (insertion_sort cmp l).
Proof.
  induction l as [|x l IH]; simpl; [apply perm_nil|].
  eapply Permutation_trans; [apply perm_skip, IH | apply insert_sorted_perm].
Qed.

Lemma insert_sorted_Forall (P : A -> Prop) (x : A) (l : list A) :
  P x -> Forall P l -> Forall P (insert_sorted cmp x l).
Proof.
  intros Hx Hl.
  apply (Permutation_Forall (insert_sorted_perm x l)). now constructor.
Qed.

Lemma insert_sorted_ascending (x : A) (l : list A) :
  In x dom -> Forall (fun y => In y dom) l ->
  ascending cmp l -> ascending cmp (insert_sorted cmp x l).
Proof.
  intros Hx Hl Hasc. induction Hasc as [|y l Hy Hasc IH]; simpl.
  - constructor; constructor.
  - inversion Hl as [|? ? Hyd Hld]; subst.
    destruct (cmp x y <=? 0)%Z eqn:E.
    + apply Z.leb_le in E. constructor; [|constructor; assumption].
      constructor; [exact E|].
      rewrite List.Forall_forall in Hy, Hld |- *. intros z Hz.
      apply (cons_le_trans x y z); auto.
    + apply Z.leb_gt in E. constructor; [|apply IH; assumption].
      apply insert_sorted_Forall; [|exact Hy].
      pose proof (cons_gt_lt x y Hx Hyd ltac:(lia)). lia.
Qed.

Lemma insertion_sort_ascending (l : list A) :
  Forall (fun y => In y dom) l -> ascending cmp (insertion_sort cmp l).
Proof.
  intros Hl. induction Hl as [|x l Hx Hl IH]; simpl; [constructor|].
  apply insert_sorted_ascending; [exact Hx| |exact IH].
  apply (Permutation_Forall (insertion_sort_perm l)), Hl.
Qed.

(** Inserting [x] puts it in front of the elements equal to [a] that the
    list holds, when [x] equals [a], and leaves them alone otherwise. *)
Lemma insert_sorted_equal_to (a x : A) (l : list A) :
  In a dom -> In x dom -> Forall (fun y => In y dom) l ->
  equal_to cmp a (insert_sorted cmp x l) = equal_to cmp a (x :: l).
Proof.
  intros Ha Hx Hl. induction Hl as [|y l Hy Hl IH]; [reflexivity|].
  cbn [insert_sorted]. destruct (cmp x y <=? 0)%Z eqn:E; [reflexivity|].
  apply Z.leb_gt in E.
  unfold equal_to in *. cbn [List.filter] in *. rewrite IH.
  destruct (cmp a x =? 0)%Z eqn:Eax; [|reflexivity].
  destruct (cmp a y =? 0)%Z eqn:Eay; [|reflexivity].
  exfalso. apply Z.eqb_eq in Eax, Eay.
  pose proof (cons_eq_trans x a y Hx Ha Hy (cons_sym a x Ha Hx Eax) Eay). lia.
Qed.

Lemma insertion_sort_equal_to (a : A) (l : list A) :
  In a dom -> Forall (fun y => In y dom) l ->
  equal_to cmp a (insertion_sort cmp l) = equal_to cmp a l.
Proof.
  intros Ha Hl. induction Hl as [|x l Hx Hl IH]; [reflexivity|].
  cbn [insertion_sort]. rewrite insert_sorted_equal_to; [|assumption..|].
  - unfold equal_to in *. cbn [List.filter]. rewrite IH. reflexivity.
  - apply (Permutation_Forall (insertion_sort_perm l)), Hl.
Qed.

End Consistent.

Lemma Forall_In_self {A : Type} (l : list A) : Forall (fun y => In y l) l.
Proof. apply List.Forall_forall. auto. Qed.

(** Straight insertion meets the contract. *)
Lemma insertion_engine_contract : sort_contract insertion_engine.
Proof.
  intros A cmp l Hcons. unfold Array_sort, insertion_engine.
  split; [apply insertion_sort_perm|].
  split.
  - apply (insertion_sort_ascending cmp l Hcons), Forall_In_self.
  - intros a Ha.
    apply (insertion_sort_equal_to cmp l Hcons); [exact Ha|apply Forall_In_self].
Qed.



(** ** Sorting: the comparison function of the table *)

Lemma field_same_kind (key : ContractKey) (a b : OptionContract)
    (va vb : JsValue) :
  field key a = Some va -> field key b = Some vb -> same_kind va vb.
Proof.
  destruct key; cbn; intros Ha Hb;
    repeat match goal with
           | H : option_map _ ?o = Some _ |- _ => destruct o; cbn in H
           | H : Some _ = Some _ |- _ => injection H as <-
           | H : None = Some _ |- _ => discriminate H
           end;
    exact I.
Qed.

Lemma ascii_compare_lt_trans (a b c : ascii) :
  Ascii.compare a b = Lt -> Ascii.compare b c = Lt -> Ascii.compare a c = Lt.
Proof.
  unfold Ascii.compare. rewrite !N.compare_lt_iff. apply N.lt_trans.
Qed.

Lemma string_compare_lt_trans (s t u : string) :
  String.compare s t = Lt -> String.compare t u = Lt -> String.compare s u = Lt.
Proof.
  revert t u. induction s as [|a s IH]; intros [|b t] [|c u]; cbn;
    try discriminate; try reflexivity.
  destruct (Ascii.compare a b) eqn:Eab; try discriminate;
    destruct (Ascii.compare b c) eqn:Ebc; try discriminate; intros Hst Htu.
  - apply Ascii.compare_eq_iff in Eab, Ebc. subst.
    replace (Ascii.compare c c) with Eq
      by (symmetry; unfold Ascii.compare; apply N.compare_refl).
    exact (IH t u Hst Htu).
  - apply Ascii.compare_eq_iff in Eab. subst. rewrite Ebc. reflexivity.
  - apply Ascii.compare_eq_iff in Ebc. subst. rewrite Eab. reflexivity.
  - rewrite (ascii_compare_lt_trans a b c Eab Ebc). reflexivity.
Qed.

Lemma string_compare_refl (s : string) : String.compare s s = Eq.
Proof.
  induction s as [|a s IH]; cbn; [reflexivity|].
  replace (Ascii.compare a a) with Eq
    by (symmetry; unfold Ascii.compare; apply N.compare_refl).
  exact IH.
Qed.

Lemma string_ltb_irrefl (s : string) : String.ltb s s = false.
Proof. unfold String.ltb. rewrite string_compare_refl. reflexivity. Qed.

Lemma string_ltb_trans (s t u : string) :
  String.ltb s t = true -> String.ltb t u = true -> String.ltb s u = true.
Proof.
  unfold String.ltb.
  destruct (String.compare s t) eqn:E1; try discriminate.
  destruct (String.compare t u) eqn:E2; try discriminate.
  rewrite (string_compare_lt_trans s t u E1 E2). reflexivity.
Qed.

(** Strings that are not below one another are the same string. *)
Lemma string_ltb_neither (s t : string) :
  String.ltb s t = false -> String.ltb t s = false -> s = t.
Proof.
  unfold String.ltb. rewrite (String.compare_antisym s t).
  destruct (String.compare t s) eqn:E; cbn; try discriminate.
  intros _ _. symmetry. apply String.compare_eq_iff, E.
Qed.

Lemma js_lt_irrefl (a : JsValue) : js_lt a a = false.
Proof.
  destruct a as [q|s|b]; cbn.
  - apply Qltb_false, Qle_refl.
  - apply string_ltb_irrefl.
  - destruct b; reflexivity.
Qed.

Lemma js_lt_trans (a b c : JsValue) :
  js_lt a b = true -> js_lt b c = true -> js_lt a c = true.
Proof.
  destruct a as [x|s|p], b as [y|t|q], c as [z|u|r]; cbn; try discriminate.
  - rewrite !Qltb_true. apply Qlt_trans.
  - apply string_ltb_trans.
  - destruct p, q, r; cbn; congruence.
Qed.

(** Being neither below nor above is transitive on values of one type. *)
Lemma js_lt_neither_trans (a b c : JsValue) :
  same_kind a b -> same_kind b c ->
  js_lt a b = false -> js_lt b a = false ->
  js_lt b c = false -> js_lt c b = false ->
  js_lt a c = false /\ js_lt c a = false.
Proof.
  destruct a as [x|s|p], b as [y|t|q], c as [z|u|r]; cbn;
    try (intros []; fail); try (intros _ []; fail); intros _ _.
  - rewrite !Qltb_false. intros. split; lra.
  - intros H1 H2 H3 H4.
    rewrite (string_ltb_neither s t H1 H2), (string_ltb_neither t u H3 H4).
    split; apply string_ltb_irrefl.
  - destruct p, q, r; cbn; try discriminate; auto.
Qed.

(** The sign of the comparison function in terms of the order of the two
    keys. *)
Lemma compareOptions_sign (key : ContractKey) (direction : SortDirection)
    (a b : OptionContract) (va vb : JsValue) :
  field key a = Some va -> field key b = Some vb ->
  (compareOptions key direction a b = 0%Z
   <-> js_lt va vb = false /\ js_lt vb va = false)
  /\ ((compareOptions key direction a b < 0)%Z
      <-> match direction with
          | asc => js_lt va vb = true
          | desc => js_lt va vb = false /\ js_lt vb va = true
          end)
  /\ ((compareOptions key direction a b > 0)%Z
      <-> match direction with
          | asc => js_lt va vb = false /\ js_lt vb va = true
          | desc => js_lt va vb = true
          end).
Proof.
  intros Ha Hb. unfold compareOptions. rewrite Ha, Hb.
  destruct (js_lt va vb), (js_lt vb va), direction;
    repeat split; intros; try lia; try discriminate; try tauto;
    try (destruct H; discriminate).
Qed.

(** Undefined keys compare as equal to everything. *)
Lemma compareOptions_undefined (key : ContractKey) (direction : SortDirection)
    (a b : OptionContract) :
  field key a = None \/ field key b = None ->
  compareOptions key direction a b = 0%Z.
Proof.
  intros [H|H]; unfold compareOptions; rewrite H;
    [|destruct (field key a)]; reflexivity.
Qed.

(** On contracts whose key is defined the comparison function is
    consistent. *)
Lemma compareOptions_consistent (key : ContractKey) (direction : SortDirection)
    (l : list OptionContract) :
  Forall (fun o => field key o <> None) l ->
  consistent_on (compareOptions key direction) l.
Proof.
  intros Hdef a b c Ha Hb Hc.
  rewrite List.Forall_forall in Hdef.
  destruct (field key a) as [va|] eqn:Ea; [|exfalso; exact (Hdef a Ha Ea)].
  destruct (field key b) as [vb|] eqn:Eb; [|exfalso; exact (Hdef b Hb Eb)].
  destruct (field key c) as [vc|] eqn:Ec; [|exfalso; exact (Hdef c Hc Ec)].
  pose proof (field_same_kind key a b va vb Ea Eb) as Kab.
  pose proof (field_same_kind key b c vb vc Eb Ec) as Kbc.
  destruct (compareOptions_sign key direction a a va va Ea Ea) as (Haa & _).
  destruct (compareOptions_sign key direction a b va vb Ea Eb) as (Hab0 & Habl & Habg).
  destruct (compareOptions_sign key direction b a vb va Eb Ea) as (Hba0 & _).
  destruct (compareOptions_sign key direction b c vb vc Eb Ec) as (Hbc0 & Hbcl & Hbcg).
  destruct (compareOptions_sign key direction a c va vc Ea Ec) as (Hac0 & Hacl & Hacg).
  assert (Hasym : forall x y, js_lt x y = true -> js_lt y x = false).
  { intros x y Hxy. destruct (js_lt y x) eqn:Hyx; [|reflexivity].
    pose proof (js_lt_trans x y x Hxy Hyx) as Hxx.
    rewrite js_lt_irrefl in Hxx. discriminate Hxx. }
  split; [apply Haa; split; apply js_lt_irrefl|].
  split; [intros H; apply Hba0; apply Hab0 in H; tauto|].
  split.
  { intros H1 H2. apply Hac0. apply Hab0 in H1. apply Hbc0 in H2.
    destruct H1, H2. apply (js_lt_neither_trans va vb vc); assumption. }
  split.
  - intros H1 H2. apply Hacl. apply Habl in H1. apply Hbcl in H2.
    destruct direction.
    + exact (js_lt_trans va vb vc H1 H2).
    + destruct H1 as [_ H1], H2 as [_ H2].
      pose proof (js_lt_trans vc vb va H2 H1) as H. split; [apply Hasym, H|exact H].
  - intros H1 H2. apply Hacg. apply Habg in H1. apply Hbcg in H2.
    destruct direction.
    + destruct H1 as [_ H1], H2 as [_ H2].
      pose proof (js_lt_trans vc vb va H2 H1) as H. split; [apply Hasym, H|exact H].
    + exact (js_lt_trans va vb vc H1 H2).
Qed.

(** When no contract has the key the comparison function is constantly
    zero, hence consistent. *)
Lemma compareOptions_consistent_undefined (key : ContractKey)
    (direction : SortDirection) (l : list OptionContract) :
  Forall (fun o => field key o = None) l ->
  consistent_on (compareOptions key direction) l.
Proof.
  intros Hund a b c Ha Hb Hc. rewrite List.Forall_forall in Hund.
  assert (Hz : forall x y, In x l -> compareOptions key direction x y = 0%Z).
  { intros x y Hx. apply compareOptions_undefined. left. exact (Hund x Hx). }
  rewrite !Hz by assumption. repeat split; intros; lia.
Qed.

(** ** Sorting the table *)




(** ** The weekdays of the reference host cycle *)

Lemma ref_getDay_range (t : Z) : (0 <= RefHost.getDay t < 7)%Z.
Proof. unfold RefHost.getDay. apply Z.mod_pos_bound. reflexivity. Qed.

Lemma ref_getDay_next (t : Z) :
  RefHost.getDay (RefHost.addDays t 1) = ((RefHost.getDay t + 1) mod 7)%Z.
Proof.
  unfold RefHost.getDay, RefHost.addDays.
  rewrite Z.div_add by (unfold RefHost.ms_per_day; lia).
  rewrite Zplus_mod_idemp_l. f_equal. lia.
Qed.

Lemma ref_ladder_length (now : Z) (count : nat) :
  length (getNextFridays (H := RefHost.host) now count) = count.
Proof.
  exact (getNextFridays_length (HOST := RefHost.host) ref_getDay_range
           ref_getDay_next now count).
Qed.

(** * Further properties *)

(** ** The ladder of [getNextFridays] *)

Lemma getNextFridays_loop_filter `{HOST : Host} (count : nat) :
  forall (fuel : nat) (date : Z) (fridays : list Z),
    (length fridays <= count)%nat ->
    getNextFridays_loop fuel date fridays count
    = fridays ++ List.firstn (count - length fridays)
                   (List.filter is_friday (days_after date fuel)).
Proof.
  induction fuel as [|fuel IH]; intros date fridays Hle.
  - cbn. rewrite List.firstn_nil, app_nil_r. reflexivity.
  - cbn [getNextFridays_loop days_after List.filter].
    destruct (length fridays <? count)%nat eqn:E.
    + apply Nat.ltb_lt in E. unfold is_friday at 1.
      destruct (Date_getDay (Date_addDays date 1) =? 5)%Z.
      * rewrite IH by (rewrite length_app; cbn; lia).
        rewrite length_app. cbn [length].
        replace (count - length fridays)%nat
          with (S (count - (length fridays + 1)))%nat by lia.
        cbn [List.firstn]. rewrite <- app_assoc. reflexivity.
      * apply IH. exact Hle.
    + apply Nat.ltb_ge in E.
      replace (count - length fridays)%nat with 0%nat by lia.
      cbn. rewrite app_nil_r. reflexivity.
Qed.

Lemma days_after_later `{HOST : Host} :
  (forall t, (t < Date_addDays t 1)%Z) ->
  forall (n : nat) (date : Z),
    Forall (fun d => (date < d)%Z) (days_after date n)
    /\ StronglySorted Z.lt (days_after date n).
Proof.
  intros Hlater. induction n as [|n IH]; intros date; cbn.
  - split; constructor.
  - destruct (IH (Date_addDays date 1)) as [Hall Hsorted].
    pose proof (Hlater date) as Hd.
    split.
    + constructor; [exact Hd|].
      eapply List.Forall_impl; [|exact Hall]. cbn. intros d Hlt. lia.
    + constructor; assumption.
Qed.

Lemma StronglySorted_filter {A : Type} (R : A -> A -> Prop) (p : A -> bool)
    (l : list A) :
  StronglySorted R l -> StronglySorted R (List.filter p l).
Proof.
  induction 1 as [|a l Hs IH Ha]; cbn; [constructor|].
  destruct (p a); [|exact IH].
  constructor; [exact IH|].
  rewrite List.Forall_forall in Ha |- *. intros x Hx.
  apply List.filter_In in Hx. apply Ha, Hx.
Qed.

Lemma In_firstn {A : Type} (n : nat) (l : list A) (x : A) :
  In x (List.firstn n l) -> In x l.
Proof.
  revert l. induction n as [|n IH]; intros [|a l]; cbn; try tauto.
  intros [H|H]; [now left | right; apply IH, H].
Qed.

Lemma StronglySorted_firstn {A : Type} (R : A -> A -> Prop) (n : nat)
    (l : list A) :
  StronglySorted R l -> StronglySorted R (List.firstn n l).
Proof.
  intros H. revert n. induction H as [|a l Hs IH Ha]; intros [|n]; cbn;
    try constructor.
  - apply IH.
  - rewrite List.Forall_forall in Ha |- *. intros x Hx.
    apply Ha. exact (In_firstn n l x Hx).
Qed.

(** X1: On a host whose weekday advances by one, modulo 7, with each day
    added and whose clock advances with it, [getNextFridays] finds all the
    [count] dates it is asked for: they are the first [count] Fridays among
    the [7 * count] days after now, each a Friday later than now, in
    strictly increasing order. *)
Theorem getNextFridays_first_fridays `{HOST : Host} (now : Z) (count : nat) :
  (forall t, (0 <= Date_getDay t < 7)%Z) ->
  (forall t, Date_getDay (Date_addDays t 1) = ((Date_getDay t + 1) mod 7)%Z) ->
  (forall t, (t < Date_addDays t 1)%Z) ->
  let fridays := getNextFridays now count in
  fridays
  = List.firstn count (List.filter is_friday (days_after now (7 * count)))
  /\ length fridays = count
  /\ Forall (fun d => Date_getDay d = 5%Z /\ (now < d)%Z) fridays
  /\ StronglySorted Z.lt fridays.
Proof.
  intros Hrange Hnext Hlater fridays.
  assert (Hform : fridays
                  = List.firstn count
                      (List.filter is_friday (days_after now (7 * count)))).
  { unfold fridays, getNextFridays.
    rewrite getNextFridays_loop_filter by (cbn; lia).
    cbn [length app]. rewrite Nat.sub_0_r. reflexivity. }
  destruct (days_after_later Hlater (7 * count) now) as [Hall Hsorted].
  split; [exact Hform|].
  split; [apply (getNextFridays_length Hrange Hnext)|].
  split.
  - rewrite Hform. apply List.Forall_forall. intros d Hd.
    apply In_firstn in Hd. apply List.filter_In in Hd. destruct Hd as [Hd Hf].
    split; [apply Z.eqb_eq, Hf|].
    rewrite List.Forall_forall in Hall. apply Hall, Hd.
  - rewrite Hform. apply StronglySorted_firstn, StronglySorted_filter, Hsorted.
Qed.

Lemma ref_addDays_later (t : Z) : (t < RefHost.addDays t 1)%Z.
Proof. unfold RefHost.addDays, RefHost.ms_per_day. lia. Qed.

Lemma getNextFridays_first_fridays_witness :
  let fridays := getNextFridays (H := RefHost.host) RefHost.now 6 in
  fridays
  = List.firstn 6
      (List.filter (is_friday (H := RefHost.host))
         (days_after (H := RefHost.host) RefHost.now (7 * 6)))
  /\ length fridays = 6%nat
  /\ Forall (fun d => @Date_getDay RefHost.host d = 5%Z /\ (RefHost.now < d)%Z)
       fridays
  /\ StronglySorted Z.lt fridays.
Proof.
  exact (getNextFridays_first_fridays (HOST := RefHost.host) RefHost.now 6
           ref_getDay_range ref_getDay_next ref_addDays_later).
Defined.

(** ** The ladder of [processOptionsData] *)

(** X2: The expiration dates of [processOptionsData] are the dates of
    four days a week apart, the first [(5 - weekday) mod 7] days after
    today, which is between 0 and 6 and is 0 exactly when today is a Friday;
    on a host whose weekday advances with the days added, all four are
    Fridays. *)
Theorem processOptionsData_fridays `{HOST : Host} (today : Z) (d : ApiData)
    (symbol : string) (n : nat) :
  (forall t, (0 <= Date_getDay t < 7)%Z) ->
  (forall t k, (0 <= k)%Z ->
     Date_getDay (Date_addDays t k) = ((Date_getDay t + k) mod 7)%Z) ->
  let chain := fst (NousMain.processOptionsData today d symbol n) in
  let offset := ((5 - Date_getDay today) mod 7)%Z in
  let fridays :=
    List.map (fun i : nat => Date_addDays today (offset + Z.of_nat i * 7))
      (List.seq 0 4) in
  expirationDates chain
  = List.map (fun t => before_T (Date_toISOString t)) fridays
  /\ (0 <= offset <= 6)%Z
  /\ (offset = 0%Z <-> Date_getDay today = 5%Z)
  /\ Forall (fun t => Date_getDay t = 5%Z) fridays.
Proof.
  intros Hrange Hadd chain offset fridays.
  pose proof (Hrange today) as Hg.
  assert (Hrem : Z.rem (5 - Date_getDay today + 7) 7 = offset).
  { unfold offset. rewrite Z.rem_mod_nonneg by lia.
    replace (5 - Date_getDay today + 7)%Z
      with (5 - Date_getDay today + 1 * 7)%Z by lia.
    apply Z.mod_add. lia. }
  assert (Hoff : (0 <= offset <= 6)%Z).
  { unfold offset.
    pose proof (Z.mod_pos_bound (5 - Date_getDay today) 7 eq_refl). lia. }
  split.
  { unfold chain, NousMain.processOptionsData.
    cbv beta iota zeta delta [bind ret].
    repeat match goal with
           | |- context [let (_, _) := ?m in _] => destruct m
           end.
    cbn [fst expirationDates]. unfold fridays.
    cbn [List.map List.seq]. rewrite Hrem. reflexivity. }
  split; [exact Hoff|].
  split.
  { unfold offset.
    assert (Hcases : Date_getDay today = 0%Z \/ Date_getDay today = 1%Z
                     \/ Date_getDay today = 2%Z \/ Date_getDay today = 3%Z
                     \/ Date_getDay today = 4%Z \/ Date_getDay today = 5%Z
                     \/ Date_getDay today = 6%Z) by lia.
    destruct Hcases as [G|[G|[G|[G|[G|[G|G]]]]]]; rewrite G;
      split; intros E; try reflexivity; try discriminate E. }
  unfold fridays. apply List.Forall_forall. intros t Ht.
  apply List.in_map_iff in Ht. destruct Ht as (i & <- & _).
  rewrite Hadd by lia. unfold offset.
  rewrite Z.add_assoc, Z.mod_add by lia.
  rewrite Zplus_mod_idemp_r.
  replace (Date_getDay today + (5 - Date_getDay today))%Z with 5%Z by lia.
  reflexivity.
Qed.

Lemma ref_getDay_add (t k : Z) :
  (0 <= k)%Z ->
  RefHost.getDay (RefHost.addDays t k) = ((RefHost.getDay t + k) mod 7)%Z.
Proof.
  intros _. unfold RefHost.getDay, RefHost.addDays.
  rewrite Z.div_add by (unfold RefHost.ms_per_day; lia).
  rewrite Zplus_mod_idemp_l. f_equal. lia.
Qed.

Lemma processOptionsData_fridays_witness :
  let chain :=
    fst (NousMain.processOptionsData (H := RefHost.host) RefHost.now
           {| data_note := false; data_data := Some 1%nat;
              data_Error_Message := None; data_Note := false |} "AAPL" 0%nat) in
  let offset := ((5 - @Date_getDay RefHost.host RefHost.now) mod 7)%Z in
  let fridays :=
    List.map
      (fun i : nat =>
         @Date_addDays RefHost.host RefHost.now (offset + Z.of_nat i * 7))
      (List.seq 0 4) in
  expirationDates chain
  = List.map (fun t => before_T (@Date_toISOString RefHost.host t)) fridays
  /\ (0 <= offset <= 6)%Z
  /\ (offset = 0%Z <-> @Date_getDay RefHost.host RefHost.now = 5%Z)
  /\ Forall (fun t => @Date_getDay RefHost.host t = 5%Z) fridays.
Proof.
  exact (processOptionsData_fridays (HOST := RefHost.host) RefHost.now
           {| data_note := false; data_data := Some 1%nat;
              data_Error_Message := None; data_Note := false |} "AAPL"
           0%nat ref_getDay_range ref_getDay_add).
Defined.

(** ** The reference price *)

Lemma prices_range (symbol : string) (p : Q) :
  prices !! symbol = Some p ->
  Qeq_bool p 0 = false /\ 37.89 <= p <= 785.92.
Proof.
  unfold prices. intros E. apply elem_of_list_to_map_2 in E.
  repeat (apply elem_of_cons in E as [E|E];
          [inversion E; split; [reflexivity | split; unfold Qle; cbn; lia]|]).
  inversion E.
Qed.

(** X3: For a symbol without lower-case letters (the names that the
    object [prices] inherits all have one), [getStockPrice]
    returns the listed price of a listed symbol without consuming a draw,
    and for any other symbol [150 + 100 r] for the next draw [r], a price in
    [[150, 250)]; either way the price lies between 37.89 and 785.92. *)
Theorem getStockPrice_listed_or_drawn `{HOST : Host} (symbol : string) (n : nat) :
  upper_case symbol ->
  (forall k, 0 <= draws k < 1) ->
  match prices !! symbol with
  | Some p => getStockPrice symbol n = (p, n)
  | None =>
      getStockPrice symbol n = (150 + draws n * 100, S n)
      /\ 150 <= fst (getStockPrice symbol n) < 250
  end
  /\ 37.89 <= fst (getStockPrice symbol n) <= 785.92.
Proof.
  intros _ Hdraws. unfold getStockPrice, bind, ret, Math_random.
  pose proof (Hdraws n) as Hn.
  destruct (prices !! symbol) as [p|] eqn:E.
  - destruct (prices_range symbol p E) as [Hz Hp]. rewrite Hz.
    split; [reflexivity | exact Hp].
  - cbn [fst]. split; [split; [reflexivity | lra] | lra].
Qed.

Lemma getStockPrice_listed_or_drawn_witness :
  (getStockPrice (H := RefHost.host) "XYZ" 0%nat
   = (150 + RefHost.draw 0 * 100, 1%nat)
   /\ 150 <= fst (getStockPrice (H := RefHost.host) "XYZ" 0%nat) < 250)
  /\ 37.89 <= fst (getStockPrice (H := RefHost.host) "XYZ" 0%nat) <= 785.92.
Proof.
  exact (getStockPrice_listed_or_drawn (HOST := RefHost.host) "XYZ" 0%nat
           eq_refl ref_draw_unit).
Defined.

(** ** The strike grid *)










(** ** Rounding exact decimals *)

Lemma toFixed_exact (d : nat) (x : Q) (k : Z) :
  x == inject_Z k / inject_Z (pow10 d) -> toFixed d x == x.
Proof.
  intros Hx. pose proof (pow10_Qpos d) as Hp.
  assert (Hk : x * inject_Z (pow10 d) == inject_Z k).
  { rewrite Hx. field. lra. }
  unfold toFixed, toFixed_units. case_Qltb x 0.
  - assert (E0 : Qabs x * inject_Z (pow10 d) + (1 # 2)
                 == inject_Z (- k) + (1 # 2)).
    { rewrite Qabs_neg by lra. rewrite inject_Z_opp, <- Hk. ring. }
    rewrite (Qfloor_comp _ _ E0), Qfloor_half, inject_Z_opp, Hx. field. lra.
  - assert (E0 : Qabs x * inject_Z (pow10 d) + (1 # 2)
                 == inject_Z k + (1 # 2)).
    { rewrite Qabs_pos by lra. rewrite Hk. reflexivity. }
    rewrite (Qfloor_comp _ _ E0), Qfloor_half, Hx. reflexivity.
Qed.

(** A number rounded to [d] decimals is a whole number of units of the
    [d]-th decimal. *)
Lemma toFixed_decimal (d : nat) (x : Q) :
  0 <= x -> toFixed d x == inject_Z (toFixed_units d x) / inject_Z (pow10 d).
Proof.
  intros Hx. unfold toFixed. case_Qltb x 0; [lra | reflexivity].
Qed.

Lemma toFixed_lower (d : nat) (a x : Q) :
  toFixed d a == a -> a <= x -> a <= toFixed d x.
Proof. intros Ha H. rewrite <- Ha. apply toFixed_le, H. Qed.

(** ** The table of volatility differences *)

Lemma volatilityDifferenceValues_In (d : Q) :
  In d volatilityDifferenceValues ->
  (exists m : Z, d == inject_Z m / inject_Z (pow10 3))
  /\ ~ d == 0 /\ -6.492 <= d <= 6.421.
Proof.
  unfold volatilityDifferenceValues. cbn [In]. intros H.
  repeat (destruct H as [<-|H];
          [split;
           [match goal with
            | |- exists m : Z, ?x == _ => exists (Qnum x); reflexivity
            end
           | split; [intros E; discriminate E
                    | split; unfold Qle; cbn; lia]]|]).
  destruct H.
Qed.

Lemma array_get_draw (r : Q) :
  0 <= r < 1 ->
  exists d,
    array_get volatilityDifferenceValues
      (Math_floor (r * inject_Z (Z.of_nat (length volatilityDifferenceValues))))
    = Some d
    /\ In d volatilityDifferenceValues.
Proof.
  intros Hr. unfold array_get, Math_floor.
  change (inject_Z (Z.of_nat (length volatilityDifferenceValues))) with 24.
  pose proof (Qfloor_le (r * 24)) as H1.
  assert (H0 : (0 <= Qfloor (r * 24))%Z).
  { replace 0%Z with (Qfloor 0) by reflexivity. apply Qfloor_resp_le. lra. }
  assert (H24 : (Qfloor (r * 24) < 24)%Z).
  { rewrite Zlt_Qlt. apply Qle_lt_trans with (r * 24); [exact H1|].
    change (inject_Z 24) with 24. lra. }
  replace (Qfloor (r * 24) <? 0)%Z with false by (symmetry; apply Z.ltb_ge, H0).
  destruct (List.nth_error volatilityDifferenceValues (Z.to_nat (Qfloor (r * 24))))
    as [d|] eqn:E.
  - exists d. split; [reflexivity|]. eapply List.nth_error_In, E.
  - apply List.nth_error_None in E. cbn [length volatilityDifferenceValues] in E.
    lia.
Qed.

(** ** One synthesized contract: the other fields *)

Section MoreOfContract.

Context `{HOST : Host}.

Hypothesis draws_unit : forall n, 0 <= draws n < 1.

Variables (now : Z) (symbol : string) (type : OptionSide)
  (currentPrice : Q) (expiry : string) (dateIndex : nat)
  (timeToExpiry0 riskFreeRate0 strike0 : Q) (n : nat).

Let c : OptionContract :=
  fst (generateMockOptions_strike now symbol type currentPrice expiry
         dateIndex timeToExpiry0 riskFreeRate0 strike0 n).

Ltac open_contract :=
  unfold c, generateMockOptions_strike;
  cbv beta iota zeta delta [bind ret Math_random];
  repeat match goal with
         | |- context [let (_, _) := ?m in _] => destruct m eqn:?
         end;
  cbn [fst snd contractSymbol strike expiryDate lastPrice bid ask change
       percentChange volume openInterest impliedVolatility inTheMoney
       lastTradeDate isRecommended confidence timeToExpiry riskFreeRate
       predictedVolatility volatilityDifference delta gamma theta vega rho].

Lemma strike_impliedVolatility_floor (k : nat) :
  0.2 <= toFixed 4
           ((0.25 + inject_Z (Z.of_nat dateIndex) * 0.03
             + Math_abs (1 - strike0 / currentPrice) * 0.2)
            * (1 + (draws k * 0.4 - 0.2))).
Proof.
  apply toFixed_lower; [reflexivity|]. pose proof (draws_unit k) as Hk.
  assert (Hi : 0 <= inject_Z (Z.of_nat dateIndex)).
  { replace 0 with (inject_Z 0) by reflexivity. rewrite <- Zle_Qle. lia. }
  pose proof (Qabs_nonneg (1 - strike0 / currentPrice)) as Ha.
  unfold Math_abs.
  set (base := 0.25 + inject_Z (Z.of_nat dateIndex) * 0.03
               + Qabs (1 - strike0 / currentPrice) * 0.2).
  assert (Hb : 0.25 <= base) by (unfold base; lra).
  assert (H : 0.25 * 0.8 <= base * (1 + (draws k * 0.4 - 0.2))).
  { apply Qle_trans with (base * 0.8).
    - apply Qmult_le_compat_r; lra.
    - rewrite !(Qmult_comm base). apply Qmult_le_compat_r; lra. }
  lra.
Qed.

Lemma strike_volatility : volatility_ok c.
Proof.
  unfold volatility_ok. open_contract.
  destruct (array_get_draw (draws (S n)) (draws_unit (S n))) as (d & Hd & Hin).
  rewrite Hd. cbn [option_map].
  eexists d, _. split; [reflexivity|]. split; [exact Hin|].
  split; [reflexivity|].
  destruct (volatilityDifferenceValues_In d Hin) as ([m Hm] & _ & _).
  pose proof (strike_impliedVolatility_floor n) as Hiv.
  set (x := (0.25 + inject_Z (Z.of_nat dateIndex) * 0.03
             + Math_abs (1 - strike0 / currentPrice) * 0.2)
            * (1 + (draws n * 0.4 - 0.2))) in *.
  assert (Hx : 0 <= x).
  { destruct (Qlt_le_dec x 0) as [Hneg|Hpos]; [|exact Hpos].
    pose proof (toFixed_nonpos 4 x (Qlt_le_weak _ _ Hneg)). lra. }
  pose proof (toFixed_decimal 4 x Hx) as Eiv.
  set (u := toFixed_units 4 x) in *.
  set (iv := toFixed 4 x) in *.
  assert (E100 : iv * 100 == inject_Z u / inject_Z (pow10 2)).
  { rewrite Eiv. change (inject_Z (pow10 4)) with 10000.
    change (inject_Z (pow10 2)) with 100. field. }
  assert (Esum : iv * 100 + d == inject_Z (10 * u + m) / inject_Z (pow10 3)).
  { rewrite E100, Hm, inject_Z_plus, inject_Z_mult.
    change (inject_Z (pow10 2)) with 100.
    change (inject_Z (pow10 3)) with 1000. change (inject_Z 10) with 10.
    field. }
  rewrite (toFixed_exact 3 _ _ Esum), (toFixed_exact 2 _ _ E100).
  reflexivity.
Qed.

Lemma floor_draw_range (k : nat) (m : Z) :
  (0 < m)%Z -> (0 <= Math_floor (draws k * inject_Z m) <= m - 1)%Z.
Proof.
  intros Hm. unfold Math_floor. pose proof (draws_unit k) as Hk.
  assert (Hq : 0 < inject_Z m).
  { replace 0 with (inject_Z 0) by reflexivity. rewrite <- Zlt_Qlt. exact Hm. }
  pose proof (Qfloor_le (draws k * inject_Z m)) as H1.
  split.
  - replace 0%Z with (Qfloor 0) by reflexivity. apply Qfloor_resp_le.
    apply Qmult_le_0_compat; lra.
  - assert (H : (Qfloor (draws k * inject_Z m) < m)%Z).
    { rewrite Zlt_Qlt. eapply Qle_lt_trans; [exact H1|].
      rewrite <- (Qmult_1_l (inject_Z m)) at 2.
      apply Qmult_lt_compat_r; lra. }
    lia.
Qed.

Lemma strike_quantities : quantities_ok c.
Proof.
  unfold quantities_ok. open_contract.
  match goal with
  | |- context [Math_floor (draws ?k * 1000)] =>
      pose proof (floor_draw_range k 1000 eq_refl) as Hv
  end.
  match goal with
  | |- context [Math_floor (draws ?k * 5000)] =>
      pose proof (floor_draw_range k 5000 eq_refl) as Ho
  end.
  change (inject_Z 1000) with 1000 in Hv. change (inject_Z 5000) with 5000 in Ho.
  split; [destruct (Qltb _ 0.05); lia|].
  split; [destruct (Qltb _ 0.05); lia|].
  split; [eexists; reflexivity|].
  split.
  { eexists. split; [reflexivity|].
    match goal with
    | |- _ <= toFixed 3 (draws ?k * _ + _) <= _ => pose proof (draws_unit k)
    end.
    apply toFixed_between; [reflexivity | reflexivity | lra]. }
  split.
  { match goal with
    | |- _ <= toFixed 3 (draws ?k * _ - _) <= _ => pose proof (draws_unit k)
    end.
    apply toFixed_between; [reflexivity | reflexivity | lra]. }
  apply toFixed_lower; [reflexivity|].
  pose proof (strike_impliedVolatility_floor n). lra.
Qed.


Lemma otherReasons_length (o : OptionContract) :
  (length (otherReasons o) <= 3)%nat.
Proof.
  unfold otherReasons. rewrite !length_app.
  destruct (delta o) as [dl|];
    [destruct (negb (Qeq_bool dl 0) && Qltb 0.7 (Math_abs dl))|];
    destruct (negb (openInterest o =? 0)%Z && (1000 <? openInterest o)%Z);
    (destruct (timeToExpiry o) as [t|];
     [destruct (Qltb t 0.08); [|destruct (Qltb 0.25 t)]|]);
    cbn; lia.
Qed.

Lemma volatilityReasons_nonzero (d : Q) :
  ~ d == 0 ->
  exists line rest,
    volatilityReasons d = line :: rest /\ (length rest <= 1)%nat.
Proof.
  intros Hd. unfold volatilityReasons.
  case_Qltb 3 d; [eexists _, _; split; [reflexivity | cbn; lia]|].
  case_Qltb 0 d; [eexists _, _; split; [reflexivity | cbn; lia]|].
  case_Qltb d (-3); [eexists _, _; split; [reflexivity | cbn; lia]|].
  case_Qltb d 0; [eexists _, _; split; [reflexivity | cbn; lia]|].
  exfalso. apply Hd. lra.
Qed.

Lemma strike_reasons : reasons_ok c.
Proof.
  destruct strike_volatility as (d & p & Hd & Hin & _).
  destruct (volatilityDifferenceValues_In d Hin) as (_ & Hnz & _).
  destruct (volatilityReasons_nonzero d Hnz) as (line & rest & Hv & Hlen).
  exists d, line, (rest ++ otherReasons c).
  split; [exact Hd|].
  split; [unfold getRecommendationReasons; rewrite Hd, Hv; reflexivity|].
  split; [rewrite Hv; reflexivity|].
  rewrite length_app. pose proof (otherReasons_length c). lia.
Qed.

End MoreOfContract.

(** ** Every contract of a synthesized chain *)

Lemma generateMockOptionsData_Forall `{HOST : Host} (P : OptionContract -> Prop)
    (now : Z) (symbol : string) (n : nat) :
  let chain := fst (generateMockOptionsData now symbol n) in
  let currentPrice := fst (getStockPrice symbol n) in
  (forall type expiry dateIndex m strike0 n',
      In expiry (expirationDates chain) ->
      In strike0 (strike_grid currentPrice) ->
      P (fst (generateMockOptions_strike now symbol type currentPrice expiry
                dateIndex
                (toFixed 6 (inject_Z (Date_getTime expiry - now) / ms_per_year))
                (toFixed 3 (4.2 + inject_Z (Z.of_nat dateIndex) * 0.13
                            + (draws m * 0.18 - 0.09)))
                strike0 n'))) ->
  Forall P (calls chain ++ puts chain).
Proof.
  intros chain currentPrice HP.
  destruct (generateMockOptionsData_parts now symbol n)
    as (n1 & n2 & _ & _ & Hcalls & Hputs).
  fold chain currentPrice in Hcalls, Hputs.
  apply List.Forall_forall. intros c Hc. apply in_app_or in Hc.
  destruct Hc as [Hc|Hc]; [rewrite Hcalls in Hc | rewrite Hputs in Hc];
    apply generateMockOptions_In in Hc;
    destruct Hc as (e & i & m & k & n' & He & Hk & ->);
    apply HP; assumption.
Qed.

(** X5: For a symbol without lower-case letters, every contract of a
    synthesized chain carries a volatility
    difference taken from the table of 24 values and a predicted volatility
    that equals its implied volatility, in per cent, plus that difference. *)
Theorem generated_volatility_fields `{HOST : Host}
    (now : Z) (symbol : string) (n : nat) :
  upper_case symbol ->
  (forall k, 0 <= draws k < 1) ->
  let chain := fst (generateMockOptionsData now symbol n) in
  Forall volatility_ok (calls chain ++ puts chain).
Proof.
  intros _ Hdraws chain. apply generateMockOptionsData_Forall.
  intros. apply strike_volatility, Hdraws.
Qed.

Lemma generated_volatility_fields_witness :
  Forall volatility_ok (calls ref_chain ++ puts ref_chain).
Proof.
  exact (generated_volatility_fields (HOST := RefHost.host) RefHost.now "AAPL"
           0%nat eq_refl ref_draw_unit).
Defined.

(** X6: For a symbol without lower-case letters, every contract of a
    synthesized chain has a volume between 50
    and 10040, an open interest between 200 and 25195, a recommendation
    flag, a confidence between 0.7 and 1, a percent change between -5 and 5
    and an implied volatility of at least 20 per cent. *)
Theorem generated_quantities `{HOST : Host}
    (now : Z) (symbol : string) (n : nat) :
  upper_case symbol ->
  (forall k, 0 <= draws k < 1) ->
  let chain := fst (generateMockOptionsData now symbol n) in
  Forall quantities_ok (calls chain ++ puts chain).
Proof.
  intros _ Hdraws chain. apply generateMockOptionsData_Forall.
  intros. apply strike_quantities, Hdraws.
Qed.

Lemma generated_quantities_witness :
  Forall quantities_ok (calls ref_chain ++ puts ref_chain).
Proof.
  exact (generated_quantities (HOST := RefHost.host) RefHost.now "AAPL"
           0%nat eq_refl ref_draw_unit).
Defined.

(** X7: For every contract of a synthesized chain, of a symbol without
    lower-case letters, [getRecommendationReasons] gives at least one reason, the first being
    the first sentence for its volatility difference, and at most five; for
    any contract whatever it gives at most five. *)
Theorem generated_reasons `{HOST : Host}
    (now : Z) (symbol : string) (n : nat) :
  upper_case symbol ->
  (forall k, 0 <= draws k < 1) ->
  let chain := fst (generateMockOptionsData now symbol n) in
  Forall reasons_ok (calls chain ++ puts chain)
  /\ (forall o : OptionContract,
        (length (getRecommendationReasons o) <= 5)%nat).
Proof.
  intros _ Hdraws chain. split.
  - apply generateMockOptionsData_Forall.
    intros. apply strike_reasons, Hdraws.
  - intros o. unfold getRecommendationReasons. rewrite length_app.
    pose proof (otherReasons_length o).
    assert (length (match volatilityDifference o with
                    | Some d => volatilityReasons d
                    | None => []
                    end) <= 2)%nat; [|lia].
    destruct (volatilityDifference o) as [d|]; [|cbn; lia].
    unfold volatilityReasons.
    destruct (Qltb 3 d), (Qltb 0 d), (Qltb d (-3)), (Qltb d 0); cbn; lia.
Qed.

Lemma generated_reasons_witness :
  Forall reasons_ok (calls ref_chain ++ puts ref_chain)
  /\ (forall o : OptionContract,
        (length (getRecommendationReasons o) <= 5)%nat).
Proof.
  exact (generated_reasons (HOST := RefHost.host) RefHost.now "AAPL"
           0%nat eq_refl ref_draw_unit).
Defined.

(** ** The shape of a synthesized chain *)

Lemma forEachi_map {A B C : Type} (g : B -> C) (h : A -> list C)
    (f : A -> nat -> Rand (list B)) :
  (forall a i n, List.map g (fst (f a i n)) = h a) ->
  forall (l : list A) (i n : nat),
    List.map g (fst (forEachi f l i n)) = List.flat_map h l.
Proof.
  intros Hf. induction l as [|a l IH]; intros i n; [reflexivity|].
  cbn [forEachi List.flat_map]. unfold bind, ret.
  pose proof (Hf a i n) as Ha.
  destruct (f a i n) as [bs n1].
  pose proof (IH (S i) n1) as Hl.
  destruct (forEachi f l (S i) n1) as [rest n2].
  cbn [fst] in *. rewrite List.map_app, Ha, Hl. reflexivity.
Qed.

Lemma generateMockOptions_grid `{HOST : Host} (now : Z) (symbol : string)
    (dates : list string) (strikes : list Q) (type : OptionSide)
    (currentPrice : Q) (n : nat) :
  List.map grid_key
    (fst (generateMockOptions now symbol dates strikes type currentPrice n))
  = List.map (fun '(e, s) => (e, s, in_the_money type currentPrice s))
      (List.list_prod dates strikes).
Proof.
  unfold generateMockOptions.
  rewrite (forEachi_map grid_key
             (fun e => List.map
                         (fun s => (e, s, in_the_money type currentPrice s))
                         strikes)).
  - induction dates as [|e dates IH]; [reflexivity|].
    cbn [List.flat_map List.list_prod].
    rewrite List.map_app, List.map_map, IH. reflexivity.
  - intros e i m. unfold generateMockOptions_expiry.
    cbv beta iota zeta delta [bind Math_random].
    rewrite (forEachi_map grid_key
               (fun s => [(e, s, in_the_money type currentPrice s)])).
    + clear. induction strikes as [|s strikes IH]; [reflexivity|].
      cbn [List.flat_map List.map]. rewrite IH. reflexivity.
    + intros s j m'. cbv beta iota zeta delta [bind ret].
      destruct (generateMockOptions_strike _ _ _ _ _ _ _ _ _ _) as [c m''] eqn:E.
      cbn [fst List.map]. unfold grid_key.
      match type of E with
      | generateMockOptions_strike ?a ?b ?t ?p ?e ?i ?T ?r ?k ?n = _ =>
          pose proof (strike_strike a b t p e i T r k n) as [Hs He];
          pose proof (strike_inTheMoney a b t p e i T r k n) as Hm;
          rewrite E in Hs, He, Hm; cbn [fst] in Hs, He, Hm
      end.
      rewrite Hs, He, Hm. reflexivity.
Qed.

(** X8: For a symbol without lower-case letters, the calls and the puts
    of a synthesized chain run through the
    pairs of an expiration date and a strike in the same order, dates first,
    one contract per pair; a call is flagged in the money exactly when its
    strike is below the reference price and a put exactly when it is above,
    so the call and the put at one position share the date and the strike
    and are never both in the money. *)
Theorem generated_chain_grid `{HOST : Host} (now : Z) (symbol : string)
    (n : nat) :
  upper_case symbol ->
  let chain := fst (generateMockOptionsData now symbol n) in
  let currentPrice := fst (getStockPrice symbol n) in
  let pairs := List.list_prod (expirationDates chain) (strike_grid currentPrice) in
  List.map grid_key (calls chain)
  = List.map (fun '(e, s) => (e, s, Qltb s currentPrice)) pairs
  /\ List.map grid_key (puts chain)
     = List.map (fun '(e, s) => (e, s, Qltb currentPrice s)) pairs
  /\ length (calls chain) = length pairs
  /\ length (puts chain) = length pairs
  /\ (forall (i : nat) (c p : OptionContract),
        List.nth_error (calls chain) i = Some c ->
        List.nth_error (puts chain) i = Some p ->
        expiryDate c = expiryDate p /\ strike c = strike p
        /\ inTheMoney c && inTheMoney p = false).
Proof.
  intros _ chain currentPrice pairs.
  destruct (generateMockOptionsData_parts now symbol n)
    as (n1 & n2 & _ & _ & Hcalls & Hputs).
  fold chain currentPrice in Hcalls, Hputs.
  assert (Hc : List.map grid_key (calls chain)
               = List.map (fun '(e, s) => (e, s, Qltb s currentPrice)) pairs).
  { rewrite Hcalls. apply generateMockOptions_grid. }
  assert (Hp : List.map grid_key (puts chain)
               = List.map (fun '(e, s) => (e, s, Qltb currentPrice s)) pairs).
  { rewrite Hputs. apply generateMockOptions_grid. }
  split; [exact Hc|]. split; [exact Hp|].
  split.
  { rewrite <- (List.length_map grid_key), Hc. apply List.length_map. }
  split.
  { rewrite <- (List.length_map grid_key), Hp. apply List.length_map. }
  intros i c p Hic Hip.
  apply (List.map_nth_error grid_key) in Hic, Hip.
  rewrite Hc in Hic. rewrite Hp in Hip.
  destruct (List.nth_error pairs i) as [[e s]|] eqn:E.
  - erewrite List.map_nth_error in Hic by exact E.
    erewrite List.map_nth_error in Hip by exact E.
    injection Hic as He Hs Hm. injection Hip as He' Hs' Hm'.
    split; [congruence|]. split; [congruence|].
    rewrite <- Hm, <- Hm'.
    case_Qltb s currentPrice; case_Qltb currentPrice s; try reflexivity.
    lra.
  - apply List.nth_error_None in E.
    assert (Hnone : List.nth_error
                      (List.map (fun '(e, s) => (e, s, Qltb s currentPrice)) pairs)
                      i = None).
    { apply List.nth_error_None. rewrite List.length_map. exact E. }
    rewrite Hnone in Hic. discriminate Hic.
Qed.

Lemma generated_chain_grid_witness :
  let chain :=
    fst (generateMockOptionsData (H := RefHost.host) RefHost.now "AAPL" 0%nat) in
  let currentPrice := fst (getStockPrice (H := RefHost.host) "AAPL" 0%nat) in
  let pairs := List.list_prod (expirationDates chain) (strike_grid currentPrice) in
  List.map grid_key (calls chain)
  = List.map (fun '(e, s) => (e, s, Qltb s currentPrice)) pairs
  /\ List.map grid_key (puts chain)
     = List.map (fun '(e, s) => (e, s, Qltb currentPrice s)) pairs
  /\ length (calls chain) = length pairs
  /\ length (puts chain) = length pairs
  /\ (forall (i : nat) (c p : OptionContract),
        List.nth_error (calls chain) i = Some c ->
        List.nth_error (puts chain) i = Some p ->
        expiryDate c = expiryDate p /\ strike c = strike p
        /\ inTheMoney c && inTheMoney p = false).
Proof.
  exact (generated_chain_grid (HOST := RefHost.host) RefHost.now "AAPL" 0%nat
           eq_refl).
Defined.

(** ** The bounds of [calculateRealisticOptionPrice] *)

(** X9: With non-negative spot, time, volatility and rate, on a host
    whose square root is not negative and whose exponential of a number at
    most 0 lies between 0 and 1, [calculateRealisticOptionPrice] takes one
    draw and returns a price between [0.9 intrinsic + 0.4 scale] and
    [intrinsic + 0.5 scale] when the intrinsic value is positive, and takes
    two draws and returns a price between 0 and [0.55 scale] otherwise,
    where [scale] is volatility times the square root of the time times the
    spot. *)
Theorem calculateRealisticOptionPrice_bounds `{HOST : Host}
    (spot strike timeToExpiry volatility riskFreeRate : Q)
    (type : OptionSide) (n : nat) :
  (forall k, 0 <= draws k < 1) ->
  (forall x, 0 <= Math_sqrt x) ->
  (forall x, x <= 0 -> 0 <= Math_exp x <= 1) ->
  0 <= spot -> 0 <= timeToExpiry -> 0 <= volatility -> 0 <= riskFreeRate ->
  let price :=
    fst (calculateRealisticOptionPrice spot strike timeToExpiry volatility
           riskFreeRate type n) in
  let used :=
    (snd (calculateRealisticOptionPrice spot strike timeToExpiry volatility
            riskFreeRate type n) - n)%nat in
  let intrinsic :=
    match type with call => spot - strike | put => strike - spot end in
  let scale := volatility * Math_sqrt timeToExpiry * spot in
  if Qltb 0 intrinsic
  then used = 1%nat
       /\ intrinsic * 0.9 + scale * 0.4 <= price
       /\ price <= intrinsic + scale * 0.5
  else used = 2%nat /\ 0 <= price /\ price <= scale * 0.55.
Proof.
  intros Hdraws Hsqrt Hexp Hs Ht Hv Hr price used intrinsic scale.
  unfold price, used, calculateRealisticOptionPrice, bind, ret, Math_random.
  pose proof (Hdraws n) as Hn. pose proof (Hdraws (S n)) as Hn'.
  pose proof (Hsqrt timeToExpiry) as Hq.
  assert (Hscale : 0 <= scale).
  { unfold scale. repeat apply Qmult_le_0_compat; assumption. }
  fold scale.
  assert (HI : 0 <= Math_exp (- riskFreeRate * timeToExpiry) <= 1).
  { apply Hexp.
    assert (0 <= riskFreeRate * timeToExpiry) by (apply Qmult_le_0_compat; lra).
    lra. }
  set (I := Math_exp (- riskFreeRate * timeToExpiry)) in *.
  assert (Htv : scale * 0.4 <= scale * (0.4 + draws n * 0.1) <= scale * 0.5).
  { split; rewrite !(Qmult_comm scale); apply Qmult_le_compat_r; lra. }
  set (tv := scale * (0.4 + draws n * 0.1)) in *.
  assert (Hin : forall x, 0 < x ->
                  x * 0.9 <= x * (1 - I * 0.1) <= x).
  { intros x Hx. split.
    - rewrite !(Qmult_comm x). apply Qmult_le_compat_r; lra.
    - rewrite <- (Qmult_1_r x) at 2. rewrite !(Qmult_comm x).
      apply Qmult_le_compat_r; lra. }
  assert (Hout : 0 <= tv * (1 + draws (S n) * 0.1) <= scale * 0.55).
  { split; [apply Qmult_le_0_compat; lra|].
    apply Qle_trans with (scale * 0.5 * (1 + draws (S n) * 0.1)).
    - apply Qmult_le_compat_r; lra.
    - assert (E : scale * 0.55 == scale * 0.5 * 1.1) by ring.
      rewrite E. rewrite !(Qmult_comm (scale * 0.5)).
      apply Qmult_le_compat_r; lra. }
  unfold intrinsic. destruct type.
  - case_Qltb strike spot.
    + replace (Qltb 0 (spot - strike)) with true
        by (symmetry; apply Qltb_true; lra).
      cbn [fst snd]. pose proof (Hin (spot - strike) ltac:(lra)).
      split; [lia | lra].
    + replace (Qltb 0 (spot - strike)) with false
        by (symmetry; apply Qltb_false; lra).
      cbn [fst snd]. split; [lia | lra].
  - case_Qltb spot strike.
    + replace (Qltb 0 (strike - spot)) with true
        by (symmetry; apply Qltb_true; lra).
      cbn [fst snd]. pose proof (Hin (strike - spot) ltac:(lra)).
      split; [lia | lra].
    + replace (Qltb 0 (strike - spot)) with false
        by (symmetry; apply Qltb_false; lra).
      cbn [fst snd]. split; [lia | lra].
Qed.

Lemma ref_exp_unit (x : Q) : x <= 0 -> 0 <= RefHost.exp x <= 1.
Proof.
  intros H. split; [|apply ref_exp_le_1, H].
  unfold RefHost.exp.
  replace (Qle_bool x 0) with true by (symmetry; apply Qle_bool_iff, H).
  assert (Hs : 1 <= RefHost.exp_series 16 (- x) 1 1 1).
  { apply exp_series_ge_1; try lra. lia. }
  apply Qinv_le_0_compat. lra.
Qed.

Lemma calculateRealisticOptionPrice_bounds_witness :
  let price :=
    fst (calculateRealisticOptionPrice (H := RefHost.host) 175.23 170 0.1 0.3
           0.042 call 0%nat) in
  let used :=
    (snd (calculateRealisticOptionPrice (H := RefHost.host) 175.23 170 0.1 0.3
            0.042 call 0%nat) - 0)%nat in
  let intrinsic := 175.23 - 170 in
  let scale := 0.3 * @Math_sqrt RefHost.host 0.1 * 175.23 in
  if Qltb 0 intrinsic
  then used = 1%nat
       /\ intrinsic * 0.9 + scale * 0.4 <= price
       /\ price <= intrinsic + scale * 0.5
  else used = 2%nat /\ 0 <= price /\ price <= scale * 0.55.
Proof.
  apply (calculateRealisticOptionPrice_bounds (HOST := RefHost.host)
           175.23 170 0.1 0.3 0.042 call 0%nat ref_draw_unit ref_sqrt_nonneg
           ref_exp_unit);
    unfold Qle; cbn; lia.
Defined.

(** ** Rounding and shifts by whole units *)

Lemma toFixed_comp (d : nat) (x y : Q) : x == y -> toFixed d x == toFixed d y.
Proof.
  intros E. apply Qle_antisym; apply toFixed_le; rewrite E; apply Qle_refl.
Qed.

Lemma Qfloor_add_Z (y : Q) (k : Z) : Qfloor (y + inject_Z k) = (Qfloor y + k)%Z.
Proof.
  pose proof (Qfloor_le y) as H1. pose proof (Qlt_floor y) as H2.
  pose proof (Qfloor_le (y + inject_Z k)) as H3.
  pose proof (Qlt_floor (y + inject_Z k)) as H4.
  rewrite inject_Z_plus in H2, H4. change (inject_Z 1) with 1 in H2, H4.
  assert (Hlo : (Qfloor y + k <= Qfloor (y + inject_Z k))%Z).
  { rewrite <- (Qfloor_Z (Qfloor y + k)). apply Qfloor_resp_le.
    rewrite inject_Z_plus. lra. }
  assert (Hhi : (Qfloor (y + inject_Z k) < Qfloor y + k + 1)%Z).
  { rewrite Zlt_Qlt, !inject_Z_plus. change (inject_Z 1) with 1. lra. }
  lia.
Qed.

(** Rounding commutes with adding units of the last decimal kept. *)
Lemma toFixed_shift (d : nat) (x : Q) (k : Z) :
  0 <= x -> (0 <= k)%Z ->
  toFixed d (x + inject_Z k / inject_Z (pow10 d))
  == toFixed d x + inject_Z k / inject_Z (pow10 d).
Proof.
  intros Hx Hk. pose proof (pow10_Qpos d) as Hp.
  assert (Hq : 0 <= inject_Z k / inject_Z (pow10 d)).
  { apply Qdiv_nonneg; [|lra].
    replace 0 with (inject_Z 0) by reflexivity. rewrite <- Zle_Qle. exact Hk. }
  unfold toFixed, toFixed_units.
  replace (Qltb (x + inject_Z k / inject_Z (pow10 d)) 0) with false
    by (symmetry; apply Qltb_false; lra).
  replace (Qltb x 0) with false by (symmetry; apply Qltb_false; lra).
  assert (E : Qabs (x + inject_Z k / inject_Z (pow10 d)) * inject_Z (pow10 d)
              + (1 # 2)
              == Qabs x * inject_Z (pow10 d) + (1 # 2) + inject_Z k).
  { rewrite !Qabs_pos by lra. field. lra. }
  rewrite (Qfloor_comp _ _ E), Qfloor_add_Z, inject_Z_plus. field. lra.
Qed.

(** ** One contract of [processOptionsData] *)

Section NousContract.

Context `{HOST : Host}.

Hypothesis draws_unit : forall n, 0 <= draws n < 1.
Hypothesis exp_nonneg : forall x, 0 <= Math_exp x.

Variables (today : Z) (symbol : string) (basePrice : Q) (isCall : bool)
  (expiry : string) (strike0 : Q) (n : nat).

Let c : OptionContract :=
  fst (NousMain.generateOptions_strike today symbol basePrice isCall expiry
         strike0 n).

Ltac open_nous :=
  unfold c, NousMain.generateOptions_strike;
  cbv beta iota zeta delta [bind ret Math_random];
  destruct (Qltb (draws (S (S n))) 0.1) eqn:Erec;
  cbn [fst snd contractSymbol strike expiryDate lastPrice bid ask change
       percentChange volume openInterest impliedVolatility inTheMoney
       lastTradeDate isRecommended confidence timeToExpiry riskFreeRate
       predictedVolatility volatilityDifference delta gamma theta vega rho].

Lemma nous_strike :
  grid_key c
  = (expiry, strike0, in_the_money (if isCall then call else put) basePrice strike0).
Proof. unfold grid_key. open_nous; destruct isCall; reflexivity. Qed.

Lemma nous_quotes (lastPrice0 : Q) :
  0 <= lastPrice0 ->
  let bid0 := toFixed 2 (Math_max 0 (lastPrice0 - 0.05)) in
  let ask0 := toFixed 2 (bid0 + 0.10) in
  (0 <= bid0 /\ bid0 <= toFixed 2 lastPrice0 /\ toFixed 2 lastPrice0 <= ask0)
  /\ ask0 == bid0 + 0.1.
Proof.
  intros Hl bid0 ask0.
  set (m := Math_max 0 (lastPrice0 - 0.05)) in *.
  assert (Hm0 : 0 <= m) by (unfold m, Math_max; apply Q.le_max_l).
  assert (Hml : m <= lastPrice0).
  { unfold m, Math_max. apply Q.max_lub; lra. }
  assert (Hlm : lastPrice0 <= m + 0.05).
  { unfold m, Math_max. pose proof (Q.le_max_r 0 (lastPrice0 - 0.05)). lra. }
  assert (Hb0 : 0 <= bid0) by (apply toFixed_nonneg, Hm0).
  assert (Eask : ask0 == bid0 + 0.1).
  { unfold ask0.
    pose proof (toFixed_decimal 2 m Hm0) as Eb. fold bid0 in Eb.
    assert (E : bid0 + 0.10
                == inject_Z (toFixed_units 2 m + 10) / inject_Z (pow10 2)).
    { rewrite Eb, inject_Z_plus. change (inject_Z (pow10 2)) with 100.
      change (inject_Z 10) with 10. field. }
    rewrite (toFixed_exact 2 _ _ E). lra. }
  split; [|exact Eask].
  split; [exact Hb0|]. split; [apply toFixed_le, Hml|].
  rewrite Eask.
  apply Qle_trans with (toFixed 2 (m + inject_Z 5 / inject_Z (pow10 2))).
  - apply toFixed_le. change (inject_Z 5 / inject_Z (pow10 2)) with (5 / 100).
    assert (E5 : 5 / 100 == 0.05) by reflexivity. lra.
  - rewrite toFixed_shift by (lra || lia). fold bid0.
    change (inject_Z 5 / inject_Z (pow10 2)) with (5 / 100).
    assert (E5 : 5 / 100 == 0.05) by reflexivity. lra.
Qed.

Lemma nous_contract : nous_contract_ok c.
Proof.
  assert (Hprice : forall intrinsic : Q,
             0 <= intrinsic ->
             0 <= intrinsic + 5 * Math_exp (-0.05 * inject_Z (Math_round
                      (inject_Z (Date_getTime expiry - today)
                       / (1000 * 3600 * 24))))).
  { intros x Hx. pose proof (exp_nonneg (-0.05 * inject_Z (Math_round
                      (inject_Z (Date_getTime expiry - today)
                       / (1000 * 3600 * 24))))). lra. }
  assert (Hlast : 0 <=
            (if isCall
             then if (if isCall then Qltb strike0 basePrice
                      else Qltb basePrice strike0)
                  then (basePrice - strike0)
                       + 5 * Math_exp (-0.05 * inject_Z (Math_round
                           (inject_Z (Date_getTime expiry - today)
                            / (1000 * 3600 * 24))))
                  else 5 * Math_exp (-0.05 * inject_Z (Math_round
                           (inject_Z (Date_getTime expiry - today)
                            / (1000 * 3600 * 24))))
             else if (if isCall then Qltb strike0 basePrice
                      else Qltb basePrice strike0)
                  then (strike0 - basePrice)
                       + 5 * Math_exp (-0.05 * inject_Z (Math_round
                           (inject_Z (Date_getTime expiry - today)
                            / (1000 * 3600 * 24))))
                  else 5 * Math_exp (-0.05 * inject_Z (Math_round
                           (inject_Z (Date_getTime expiry - today)
                            / (1000 * 3600 * 24)))))).
  { pose proof (Hprice 0 (Qle_refl 0)) as H0.
    destruct isCall.
    - case_Qltb strike0 basePrice; [apply Hprice; lra | lra].
    - case_Qltb basePrice strike0; [apply Hprice; lra | lra]. }
  pose proof (nous_quotes _ Hlast) as Hq. cbv zeta in Hq.
  assert (Hvol : forall x : Q, (0 <= Math_floor (10000 * Math_exp x))%Z).
  { intros x. unfold Math_floor. replace 0%Z with (Qfloor 0) by reflexivity.
    apply Qfloor_resp_le. pose proof (exp_nonneg x). lra. }
  assert (Hoi : forall v : Z, (0 <= v)%Z -> (v <= Math_floor (inject_Z v * 1.5))%Z).
  { intros v Hv. unfold Math_floor. rewrite <- (Qfloor_Z v) at 1.
    apply Qfloor_resp_le.
    assert (0 <= inject_Z v).
    { replace 0 with (inject_Z 0) by reflexivity. rewrite <- Zle_Qle. exact Hv. }
    lra. }
  assert (Hgamma : 0.01 <= toFixed 4 (0.04 - 0.03 * Math_min (Math_abs
                       (strike0 - basePrice)) 25 / 25) <= 0.04).
  { apply toFixed_between; [reflexivity | reflexivity|].
    set (mn := Math_min (Math_abs (strike0 - basePrice)) 25).
    assert (Hmn : 0 <= mn <= 25).
    { unfold mn, Math_min, Math_abs. split.
      - apply Q.min_glb; [apply Qabs_nonneg | lra].
      - apply Q.le_min_r. }
    assert (E : 0.03 * mn / 25 == 0.03 * mn * (1 # 25))
      by (unfold Qdiv; reflexivity).
    rewrite E. lra. }
  pose proof (draws_unit n) as Hn.
  pose proof (draws_unit (S n)) as Hn1.
  assert (Hiv : 0.3 <= toFixed 2 (0.3 + 0.05 * draws n) <= 0.35)
    by (apply toFixed_between; [reflexivity | reflexivity | lra]).
  assert (Htheta : -0.05 <= toFixed 4 (-0.03 - 0.02 * draws (S n)) <= -0.03)
    by (apply toFixed_between; [reflexivity | reflexivity | lra]).
  unfold nous_contract_ok. open_nous.
  - split; [exact (proj1 Hq)|]. split; [exact (proj2 Hq)|].
    split; [split; [apply Hvol | apply Hoi, Hvol]|].
    split; [exact Hiv|].
    split; [eexists _, _; repeat split; try reflexivity;
            first [apply Hgamma | apply Htheta]|].
    eexists. split; [reflexivity|].
    pose proof (draws_unit (S (S (S n)))).
    apply toFixed_between; [reflexivity | reflexivity | lra].
  - split; [exact (proj1 Hq)|]. split; [exact (proj2 Hq)|].
    split; [split; [apply Hvol | apply Hoi, Hvol]|].
    split; [exact Hiv|].
    split; [eexists _, _; repeat split; try reflexivity;
            first [apply Hgamma | apply Htheta]|].
    reflexivity.
Qed.

(** The keys of the analytics are undefined, the confidence is defined on
    the recommended contracts only, and every other key is defined. *)
Lemma nous_fields (key : ContractKey) :
  key <> k_confidence ->
  if analytics_key key then field key c = None else field key c <> None.
Proof.
  intros Hk. destruct key; try (exfalso; apply Hk; reflexivity);
    cbn [analytics_key field]; open_nous; cbn [option_map];
    try reflexivity; discriminate.
Qed.

End NousContract.

(** ** Every contract of a processed chain *)

Lemma processOptionsData_parts `{HOST : Host} (today : Z) (d : ApiData)
    (symbol : string) (n : nat) :
  let chain := fst (NousMain.processOptionsData today d symbol n) in
  exists n1 n2,
    strikeRange chain = {| strikeMin := 125; strikeMax := 175 |}
    /\ length (expirationDates chain) = 4%nat
    /\ calls chain
       = fst (NousMain.generateOptions today symbol 150
                (expirationDates chain) nous_strikes true n1)
    /\ puts chain
       = fst (NousMain.generateOptions today symbol 150
                (expirationDates chain) nous_strikes false n2).
Proof.
  unfold NousMain.processOptionsData.
  cbv beta iota zeta delta [bind ret].
  change (List.map (fun i : nat => 150 - 25 + inject_Z (Z.of_nat i) * 5)
            (List.seq 0 11)) with nous_strikes.
  match goal with
  | |- context [NousMain.generateOptions ?a ?b ?p ?d ?s true ?m] =>
      destruct (NousMain.generateOptions a b p d s true m) as [cs n1] eqn:E1
  end.
  match goal with
  | |- context [NousMain.generateOptions ?a ?b ?p ?d ?s false ?m] =>
      destruct (NousMain.generateOptions a b p d s false m) as [ps n2] eqn:E2
  end.
  cbn [fst calls puts expirationDates strikeRange].
  exists n, n1. rewrite E1, E2.
  split; [reflexivity|]. split; [reflexivity|]. split; reflexivity.
Qed.

Lemma generateOptions_In `{HOST : Host} (today : Z) (symbol : string)
    (basePrice : Q) (dates : list string) (strikes : list Q) (isCall : bool)
    (n : nat) (c : OptionContract) :
  In c (fst (NousMain.generateOptions today symbol basePrice dates strikes
               isCall n)) ->
  exists expiry strike0 n',
    In expiry dates /\ In strike0 strikes
    /\ c = fst (NousMain.generateOptions_strike today symbol basePrice isCall
                  expiry strike0 n').
Proof.
  intros Hc. unfold NousMain.generateOptions in Hc.
  apply forEachi_In in Hc. destruct Hc as (expiry & i & m & He & Hc).
  apply forEachi_In in Hc. destruct Hc as (strike0 & j & n' & Hs & Hc).
  cbv beta iota zeta delta [bind ret] in Hc.
  destruct (NousMain.generateOptions_strike _ _ _ _ _ _ _) as [c' n''] eqn:E
    in Hc.
  simpl in Hc. destruct Hc as [<-|[]].
  exists expiry, strike0, n'.
  split; [exact He|]. split; [exact Hs|]. rewrite E. reflexivity.
Qed.

Lemma processOptionsData_Forall `{HOST : Host} (P : OptionContract -> Prop)
    (today : Z) (d : ApiData) (symbol : string) (n : nat) :
  let chain := fst (NousMain.processOptionsData today d symbol n) in
  (forall isCall expiry strike0 n',
      In expiry (expirationDates chain) -> In strike0 nous_strikes ->
      P (fst (NousMain.generateOptions_strike today symbol 150 isCall expiry
                strike0 n'))) ->
  Forall P (calls chain ++ puts chain).
Proof.
  intros chain HP.
  destruct (processOptionsData_parts today d symbol n)
    as (n1 & n2 & _ & _ & Hcalls & Hputs).
  fold chain in Hcalls, Hputs.
  apply List.Forall_forall. intros c Hc. apply in_app_or in Hc.
  destruct Hc as [Hc|Hc]; [rewrite Hcalls in Hc | rewrite Hputs in Hc];
    apply generateOptions_In in Hc;
    destruct Hc as (e & k & n' & He & Hk & ->);
    apply HP; assumption.
Qed.

(** X10: Every contract of a chain of [processOptionsData] has
    [0 <= bid <= lastPrice <= ask] with the ask 0.10 above the bid, a volume
    between 0 and its open interest, an implied volatility between 0.30 and
    0.35, a gamma between 0.01 and 0.04, a theta between -0.05 and -0.03,
    and a confidence, between 0.7 and 1, exactly when it is recommended. *)
Theorem processed_contracts `{HOST : Host} (today : Z) (d : ApiData)
    (symbol : string) (n : nat) :
  (forall k, 0 <= draws k < 1) ->
  (forall x, 0 <= Math_exp x) ->
  let chain := fst (NousMain.processOptionsData today d symbol n) in
  Forall nous_contract_ok (calls chain ++ puts chain).
Proof.
  intros Hdraws Hexp chain. apply processOptionsData_Forall.
  intros. apply nous_contract; assumption.
Qed.

Lemma ref_exp_nonneg (x : Q) : 0 <= RefHost.exp x.
Proof.
  unfold RefHost.exp. destruct (Qle_bool x 0) eqn:E.
  - apply Qle_bool_iff in E.
    assert (Hs : 1 <= RefHost.exp_series 16 (- x) 1 1 1).
    { apply exp_series_ge_1; try lra. lia. }
    apply Qinv_le_0_compat. lra.
  - assert (Hx : 0 <= x).
    { destruct (Qlt_le_dec x 0) as [Hneg|Hpos]; [|exact Hpos].
      assert (Qle_bool x 0 = true) by (apply Qle_bool_iff; lra). congruence. }
    assert (Hs : 1 <= RefHost.exp_series 16 x 1 1 1).
    { apply exp_series_ge_1; try lra. lia. }
    lra.
Qed.

Lemma processed_contracts_witness :
  let chain :=
    fst (NousMain.processOptionsData (H := RefHost.host) RefHost.now
           {| data_note := false; data_data := Some 1%nat;
              data_Error_Message := None; data_Note := false |} "AAPL" 0%nat) in
  Forall nous_contract_ok (calls chain ++ puts chain).
Proof.
  exact (processed_contracts (HOST := RefHost.host) RefHost.now
           {| data_note := false; data_data := Some 1%nat;
              data_Error_Message := None; data_Note := false |} "AAPL" 0%nat
           ref_draw_unit ref_exp_nonneg).
Defined.

(** ** The shape of a processed chain *)

Lemma generateOptions_grid `{HOST : Host} (today : Z) (symbol : string)
    (basePrice : Q) (dates : list string) (strikes : list Q) (isCall : bool)
    (n : nat) :
  List.map grid_key
    (fst (NousMain.generateOptions today symbol basePrice dates strikes isCall n))
  = List.map
      (fun '(e, s) =>
         (e, s, in_the_money (if isCall then call else put) basePrice s))
      (List.list_prod dates strikes).
Proof.
  unfold NousMain.generateOptions.
  rewrite (forEachi_map grid_key
             (fun e => List.map
                         (fun s => (e, s, in_the_money
                                            (if isCall then call else put)
                                            basePrice s))
                         strikes)).
  - induction dates as [|e dates IH]; [reflexivity|].
    cbn [List.flat_map List.list_prod].
    rewrite List.map_app, List.map_map, IH. reflexivity.
  - intros e i m.
    rewrite (forEachi_map grid_key
               (fun s => [(e, s, in_the_money (if isCall then call else put)
                                   basePrice s)])).
    + clear. induction strikes as [|s strikes IH]; [reflexivity|].
      cbn [List.flat_map List.map]. rewrite IH. reflexivity.
    + intros s j m'. cbv beta iota zeta delta [bind ret].
      destruct (NousMain.generateOptions_strike _ _ _ _ _ _ _) as [c m''] eqn:E.
      cbn [fst List.map].
      pose proof (nous_strike today symbol basePrice isCall e s m') as Hk.
      rewrite E in Hk. cbn [fst] in Hk. rewrite Hk. reflexivity.
Qed.

(** X11: Whatever the data, the symbol and the clock, a chain of
    [processOptionsData] has the strike range from 125 to 175, four
    expiration dates, and 44 calls and 44 puts: one per pair of a date and a
    strike among 125, 130, ..., 175, dates first, the calls in the money
    below 150 and the puts above. *)
Theorem processed_chain_grid `{HOST : Host} (today : Z) (d : ApiData)
    (symbol : string) (n : nat) :
  let chain := fst (NousMain.processOptionsData today d symbol n) in
  let pairs := List.list_prod (expirationDates chain) nous_strikes in
  strikeRange chain = {| strikeMin := 125; strikeMax := 175 |}
  /\ length (expirationDates chain) = 4%nat
  /\ List.map grid_key (calls chain)
     = List.map (fun '(e, s) => (e, s, Qltb s 150)) pairs
  /\ List.map grid_key (puts chain)
     = List.map (fun '(e, s) => (e, s, Qltb 150 s)) pairs
  /\ length (calls chain) = 44%nat /\ length (puts chain) = 44%nat.
Proof.
  intros chain pairs.
  destruct (processOptionsData_parts today d symbol n)
    as (n1 & n2 & Hrange & Hdates & Hcalls & Hputs).
  fold chain in Hrange, Hdates, Hcalls, Hputs.
  assert (Hc : List.map grid_key (calls chain)
               = List.map (fun '(e, s) => (e, s, Qltb s 150)) pairs).
  { rewrite Hcalls. apply generateOptions_grid. }
  assert (Hp : List.map grid_key (puts chain)
               = List.map (fun '(e, s) => (e, s, Qltb 150 s)) pairs).
  { rewrite Hputs. apply generateOptions_grid. }
  assert (Hlen : length pairs = 44%nat).
  { unfold pairs. rewrite List.length_prod, Hdates. reflexivity. }
  split; [exact Hrange|]. split; [exact Hdates|].
  split; [exact Hc|]. split; [exact Hp|].
  split.
  - rewrite <- (List.length_map grid_key), Hc, List.length_map. exact Hlen.
  - rewrite <- (List.length_map grid_key), Hp, List.length_map. exact Hlen.
Qed.

(** ** At the money on a processed chain *)

Lemma processed_strikes `{HOST : Host} (today : Z) (d : ApiData)
    (symbol : string) (n : nat) :
  let chain := fst (NousMain.processOptionsData today d symbol n) in
  Forall (fun c => In (strike c) nous_strikes) (calls chain ++ puts chain).
Proof.
  intros chain. apply processOptionsData_Forall.
  intros isCall expiry strike0 n' _ Hk.
  pose proof (nous_strike today symbol 150 isCall expiry strike0 n') as E.
  unfold grid_key in E. injection E as _ E _. rewrite E. exact Hk.
Qed.

Lemma chain_side_In (chain : OptionChain) (t : OptionType) (o : OptionContract) :
  In o (chain_side chain t) -> In o (calls chain ++ puts chain).
Proof.
  intros H. apply in_or_app. destruct t; [left | right]; exact H.
Qed.

(** X12: On a chain of [processOptionsData] the moneyness [ATM] keeps,
    of the contracts that the other fields of the filter keep, exactly those
    with strike 150. *)
Theorem processed_chain_at_the_money `{HOST : Host} (today : Z) (d : ApiData)
    (symbol : string) (n : nat) (f : OptionsFilters) :
  let chain := fst (NousMain.processOptionsData today d symbol n) in
  getFilteredOptions (Some chain) (with_moneyness ATM f)
  = List.filter (strike_is 150)
      (getFilteredOptions (Some chain) (with_moneyness ALL f)).
Proof.
  intros chain.
  rewrite !getFilteredOptions_conj, filter_twice.
  change (optionType (with_moneyness ATM f)) with (optionType f).
  change (optionType (with_moneyness ALL f)) with (optionType f).
  apply List.filter_ext_in. intros o Ho.
  unfold passes_expiry, passes_minStrike, passes_maxStrike, passes_moneyness,
    passes_minVolume, passes_recommended.
  cbn [with_moneyness filterExpiryDate minStrike maxStrike moneyness
       minVolume showRecommendationsOnly].
  assert (Hnear : near_mid_strike chain o = strike_is 150 o).
  { destruct (processOptionsData_parts today d symbol n)
      as (n1 & n2 & Hrange & _).
    fold chain in Hrange.
    unfold near_mid_strike, strike_is. rewrite Hrange.
    cbn [strikeMin strikeMax].
    pose proof (processed_strikes today d symbol n) as Hs.
    cbv zeta in Hs. fold chain in Hs. rewrite List.Forall_forall in Hs.
    specialize (Hs o (chain_side_In chain _ o Ho)).
    unfold nous_strikes in Hs. cbn [In] in Hs.
    repeat (destruct Hs as [<-|Hs]; [reflexivity|]). destruct Hs. }
  rewrite Hnear.
  destruct (match filterExpiryDate f with
            | Some d0 => if String.eqb d0 "" then true
                         else String.eqb (expiryDate o) d0
            | None => true
            end),
    (match minStrike f with Some m => Qle_bool m (strike o) | None => true end),
    (match maxStrike f with Some m => Qle_bool (strike o) m | None => true end),
    (match minVolume f with
     | Some m => Qle_bool m (inject_Z (volume o))
     | None => true
     end),
    (if showRecommendationsOnly f
     then match isRecommended o with Some b => b | None => false end
     else true),
    (strike_is 150 o); reflexivity.
Qed.

(** ** Volume by strike *)

Lemma total_app (l1 l2 : list Z) : total (l1 ++ l2) = (total l1 + total l2)%Z.
Proof.
  unfold total. induction l1 as [|x l1 IH]; cbn; [reflexivity|].
  rewrite IH. lia.
Qed.

(** Ten adjoining buckets of width [w] from [lo] hold a strike once when it
    lies in [[lo, lo + 10 w)] and not at all otherwise. *)
Lemma total_bucket_indicator (lo w s : Q) (v : Z) (n : nat) :
  total
    (List.map
       (fun i : nat =>
          if Qle_bool (lo + inject_Z (Z.of_nat i) * w) s
             && Qltb s (lo + inject_Z (Z.of_nat i) * w + w)
          then v else 0%Z)
       (List.seq 0 n))
  = if Qle_bool lo s && Qltb s (lo + inject_Z (Z.of_nat n) * w) then v else 0%Z.
Proof.
  induction n as [|n IH].
  - cbn [List.seq List.map total List.fold_right].
    change (inject_Z (Z.of_nat 0)) with 0.
    destruct (Qle_bool lo s) eqn:E1; [|reflexivity].
    apply Qle_bool_iff in E1.
    replace (Qltb s (lo + 0 * w)) with false
      by (symmetry; apply Qltb_false; lra).
    reflexivity.
  - rewrite List.seq_S, List.map_app, total_app, IH.
    cbn [List.map total List.fold_right Nat.add].
    rewrite Nat2Z.inj_succ. unfold Z.succ. rewrite inject_Z_plus.
    change (inject_Z 1) with 1.
    set (nw := inject_Z (Z.of_nat n) * w).
    assert (Enw : (inject_Z (Z.of_nat n) + 1) * w == nw + w)
      by (unfold nw; ring).
    assert (Hn : 0 <= inject_Z (Z.of_nat n)).
    { replace 0 with (inject_Z 0) by reflexivity. rewrite <- Zle_Qle. lia. }
    assert (Hsign : (0 <= w -> 0 <= nw) /\ (w <= 0 -> nw <= 0)).
    { unfold nw. split; intros Hw.
      - apply Qmult_le_0_compat; assumption.
      - assert (0 <= inject_Z (Z.of_nat n) * (- w))
          by (apply Qmult_le_0_compat; lra).
        lra. }
    destruct Hsign as [Hpos Hneg].
    destruct (Qle_bool lo s) eqn:E1; cbn [andb];
      [apply Qle_bool_iff in E1
      |assert (N1 : ~ lo <= s)
         by (intros H; apply Qle_bool_iff in H; congruence)].
    + case_Qltb s (lo + nw); case_Qltb s (lo + nw + w);
        case_Qltb s (lo + (inject_Z (Z.of_nat n) + 1) * w);
        (destruct (Qle_bool (lo + nw) s) eqn:E5;
         [apply Qle_bool_iff in E5
         |assert (N5 : ~ lo + nw <= s)
            by (intros H; apply Qle_bool_iff in H; congruence)]);
        cbn [andb]; try lia; exfalso;
        destruct (Qlt_le_dec w 0) as [Hw|Hw];
        try (specialize (Hneg (Qlt_le_weak _ _ Hw)); lra);
        try (specialize (Hpos Hw); lra);
        try (apply N5; specialize (Hpos Hw); lra);
        try (apply N5; specialize (Hneg (Qlt_le_weak _ _ Hw)); lra).
    + destruct (Qle_bool (lo + nw) s) eqn:E5; cbn [andb]; [|lia].
      apply Qle_bool_iff in E5.
      case_Qltb s (lo + nw + w); [|lia].
      exfalso. destruct (Qlt_le_dec w 0) as [Hw|Hw].
      * lra.
      * specialize (Hpos Hw). apply N1. lra.
Qed.

Lemma strike_bucket_cons (p : OptionContract -> bool) (o : OptionContract)
    (l : list OptionContract) :
  List.fold_left (fun sum opt => (sum + volume opt)%Z)
    (List.filter p (o :: l)) 0%Z
  = ((if p o then volume o else 0)
     + List.fold_left (fun sum opt => (sum + volume opt)%Z)
         (List.filter p l) 0%Z)%Z.
Proof.
  cbn [List.filter]. destruct (p o); cbn [List.fold_left];
    rewrite !fold_left_volume; lia.
Qed.

Lemma volumeByStrike_total (chain : OptionChain) :
  let lo := strikeMin (strikeRange chain) in
  let w := strikeInterval chain in
  total (List.map snd (volumeByStrike chain))
  = total (List.map volume
             (List.filter (strike_within lo (lo + 10 * w)) (calls chain))).
Proof.
  intros lo w.
  unfold volumeByStrike. rewrite List.map_map. cbn [snd chain_side].
  fold lo w.
  induction (calls chain) as [|o l IH].
  - cbn. reflexivity.
  - transitivity
      ((if strike_within lo (lo + 10 * w) o then volume o else 0)
       + total (List.map volume
                  (List.filter (strike_within lo (lo + 10 * w)) l)))%Z.
    2:{ cbn [List.filter]. destruct (strike_within lo (lo + 10 * w) o);
          cbn [List.map total List.fold_right]; unfold total; lia. }
    rewrite <- IH.
    pose proof (total_bucket_indicator lo w (strike o) (volume o) 10) as Hind.
    change (inject_Z (Z.of_nat 10)) with 10 in Hind.
    unfold strike_within at 1. rewrite <- Hind. clear Hind.
    clear IH. generalize (List.seq 0 10). intros idx.
    induction idx as [|i idx IHi]; [reflexivity|].
    cbn [List.map total List.fold_right] in IHi |- *.
    rewrite strike_bucket_cons. unfold total in IHi. rewrite IHi. lia.
Qed.


Lemma nous_strikes_below_175 (l : list OptionContract) :
  Forall (fun c => In (strike c) nous_strikes) l ->
  (total (List.map volume (List.filter (strike_within 125 (125 + 10 * 5)) l))
   + total (List.map volume (List.filter (strike_is 175) l)))%Z
  = total (List.map volume l).
Proof.
  induction 1 as [|o l Ho Hs IH]; [reflexivity|].
  cbn [List.filter List.map].
  assert (Hcase : strike_within 125 (125 + 10 * 5) o
                  = negb (strike_is 175 o)).
  { unfold strike_within, strike_is, nous_strikes in *. cbn [In] in Ho.
    repeat (destruct Ho as [<-|Ho]; [reflexivity|]). destruct Ho. }
  rewrite Hcase. destruct (strike_is 175 o); cbn [negb List.map];
    unfold total in *; cbn [List.fold_right]; lia.
Qed.

(** X14: On a chain of [processOptionsData] the buckets of
    [volumeByStrike] are 5 wide and leave out exactly the four calls at the
    top strike 175: the volumes of the buckets and of those calls add up to
    the volume of the calls. *)
Theorem processed_chain_volumeByStrike `{HOST : Host} (today : Z) (d : ApiData)
    (symbol : string) (n : nat) :
  let chain := fst (NousMain.processOptionsData today d symbol n) in
  strikeInterval chain == 5
  /\ (total (List.map snd (volumeByStrike chain))
      + total (List.map volume (List.filter (strike_is 175) (calls chain))))%Z
     = total (List.map volume (calls chain))
  /\ length (List.filter (strike_is 175) (calls chain)) = 4%nat.
Proof.
  intros chain.
  destruct (processOptionsData_parts today d symbol n)
    as (n1 & n2 & Hrange & Hdates & Hcalls & _).
  fold chain in Hrange, Hdates, Hcalls.
  assert (Hw : strikeInterval chain = 5).
  { unfold strikeInterval. rewrite Hrange. reflexivity. }
  split; [rewrite Hw; reflexivity|].
  split.
  - pose proof (volumeByStrike_total chain) as Hsum. cbv zeta in Hsum.
    rewrite Hsum, Hw, Hrange. cbn [strikeMin strikeMax].
    pose proof (processed_strikes today d symbol n) as Hs.
    cbv zeta in Hs. fold chain in Hs.
    apply Forall_app in Hs. destruct Hs as [Hs _].
    apply nous_strikes_below_175, Hs.
  - assert (Hc : List.map grid_key (calls chain)
                 = List.map (fun '(e, s) => (e, s, Qltb s 150))
                     (List.list_prod (expirationDates chain) nous_strikes)).
    { rewrite Hcalls. apply generateOptions_grid. }
    assert (Hlen : forall l : list OptionContract,
               length (List.filter (strike_is 175) l)
               = length (List.filter (fun k : string * Q * bool =>
                                        Qeq_bool (snd (fst k)) 175)
                           (List.map grid_key l))).
    { induction l as [|o l IH]; [reflexivity|].
      cbn [List.map List.filter]. unfold strike_is at 1, grid_key at 1.
      cbn [fst snd]. destruct (Qeq_bool (strike o) 175); cbn [length];
        rewrite IH; reflexivity. }
    rewrite Hlen, Hc.
    destruct (expirationDates chain) as [|e1 [|e2 [|e3 [|e4 [|e5 rest]]]]];
      try discriminate Hdates.
    reflexivity.
Qed.

(** ** The most active contracts *)

Lemma byVolumeDescending_consistent (l : list OptionContract) :
  consistent_on byVolumeDescending l.
Proof.
  intros a b c _ _ _. unfold byVolumeDescending. repeat split; intros; lia.
Qed.

Lemma ascending_app {A : Type} (cmp : A -> A -> Z) (l1 l2 : list A) :
  ascending cmp (l1 ++ l2) ->
  ascending cmp l1
  /\ forall a b, In a l1 -> In b l2 -> (cmp a b <= 0)%Z.
Proof.
  induction l1 as [|x l1 IH]; cbn [app]; intros H.
  - split; [constructor | intros a b []].
  - inversion H as [|? ? Hx Hrest]; subst.
    destruct (IH Hrest) as [Hasc Hcross].
    apply Forall_app in Hx. destruct Hx as [Hx1 Hx2].
    split; [constructor; assumption|].
    intros a b [<-|Ha] Hb.
    + rewrite List.Forall_forall in Hx2. apply Hx2, Hb.
    + apply Hcross; assumption.
Qed.

(** X15: With a sort that meets the contract of [Array.prototype.sort],
    [mostActiveOptions] returns five calls, or all of them when there are
    fewer, in order of volume from the largest down, and no call that is
    left out has a larger volume than one that is returned. *)
Theorem mostActiveOptions_top `{E : ArraySort} (chain : OptionChain) :
  sort_contract E ->
  let top := mostActiveOptions chain in
  exists rest,
    Permutation (calls chain) (top ++ rest)
    /\ length top = Nat.min 5 (length (calls chain))
    /\ ascending byVolumeDescending top
    /\ (forall a b, In a top -> In b rest -> (volume b <= volume a)%Z).
Proof.
  intros Hcontract top.
  destruct (Hcontract OptionContract byVolumeDescending (calls chain)
              (byVolumeDescending_consistent (calls chain)))
    as (Hperm & Hasc & _).
  set (sorted := Array_sort OptionContract byVolumeDescending (calls chain)) in *.
  assert (Htop : top = List.firstn 5 sorted) by reflexivity.
  exists (List.skipn 5 sorted).
  rewrite Htop, List.firstn_skipn.
  rewrite <- (List.firstn_skipn 5 sorted) in Hasc.
  apply ascending_app in Hasc. destruct Hasc as [Hasc Hcross].
  split; [exact Hperm|].
  split.
  { rewrite List.length_firstn. f_equal. symmetry.
    apply Permutation_length, Hperm. }
  split; [exact Hasc|].
  intros a b Ha Hb. specialize (Hcross a b Ha Hb).
  unfold byVolumeDescending in Hcross. lia.
Qed.

Lemma mostActiveOptions_top_witness :
  let top := mostActiveOptions (H := insertion_engine) ref_chain in
  exists rest,
    Permutation (calls ref_chain) (top ++ rest)
    /\ length top = Nat.min 5 (length (calls ref_chain))
    /\ ascending byVolumeDescending top
    /\ (forall a b, In a top -> In b rest -> (volume b <= volume a)%Z).
Proof.
  exact (mostActiveOptions_top (E := insertion_engine) ref_chain
           insertion_engine_contract).
Defined.

(** ** Sorting the chains of the two generators *)

Lemma getFilteredOptions_In (chain : OptionChain) (f : OptionsFilters)
    (o : OptionContract) :
  In o (getFilteredOptions (Some chain) f) -> In o (calls chain ++ puts chain).
Proof.
  rewrite getFilteredOptions_conj. intros H. apply List.filter_In in H.
  apply (chain_side_In chain (optionType f)), H.
Qed.



Lemma sort_undefined_keys `{E : ArraySort} (options : list OptionContract)
    (key : ContractKey) (direction : SortDirection) :
  sort_contract E ->
  Forall (fun o => field key o = None) options ->
  getSortedOptions options (Some (key, direction)) = options.
Proof.
  intros Hcontract Hund.
  destruct (Hcontract OptionContract (compareOptions key direction) options
              (compareOptions_consistent_undefined key direction options Hund))
    as (Hperm & _ & Hstable).
  unfold getSortedOptions.
  set (sorted := Array_sort OptionContract (compareOptions key direction)
                   options) in *.
  destruct options as [|a options'] eqn:Eo.
  - apply Permutation_nil, Hperm.
  - specialize (Hstable a (or_introl eq_refl)).
    assert (Hall : forall l, equal_to (compareOptions key direction) a l = l).
    { intros l. unfold equal_to. rewrite <- (filter_all l) at 2.
      apply List.filter_ext. intros x.
      rewrite compareOptions_undefined; [reflexivity|].
      left. inversion Hund; assumption. }
    rewrite !Hall in Hstable. exact Hstable.
Qed.

(** X17: On a chain of [processOptionsData] a key other than
    [confidence] is defined on every contract or, for the four analytics
    keys, on none; so the table sorts the filtered contracts by it into an
    ordered permutation that keeps equal keys in their order, and sorting by
    an analytics key leaves the order as it is. *)
Theorem processed_chain_sorts `{HOST : Host} `{E : ArraySort}
    (today : Z) (d : ApiData) (symbol : string) (n : nat) (f : OptionsFilters)
    (key : ContractKey) (direction : SortDirection) :
  key <> k_confidence ->
  sort_contract E ->
  let chain := fst (NousMain.processOptionsData today d symbol n) in
  let shown := getFilteredOptions (Some chain) f in
  let cmp := compareOptions key direction in
  let sorted := getSortedOptions shown (Some (key, direction)) in
  Forall (fun o => if analytics_key key then field key o = None
                   else field key o <> None)
    (calls chain ++ puts chain)
  /\ Permutation shown sorted
  /\ ascending cmp sorted
  /\ (forall a, In a shown -> equal_to cmp a sorted = equal_to cmp a shown)
  /\ (analytics_key key = true -> sorted = shown).
Proof.
  intros Hkey Hcontract chain shown cmp sorted.
  assert (Hdef : Forall (fun o => if analytics_key key then field key o = None
                                  else field key o <> None)
                   (calls chain ++ puts chain)).
  { apply processOptionsData_Forall. intros. apply nous_fields, Hkey. }
  assert (Hshown : Forall (fun o => if analytics_key key then field key o = None
                                    else field key o <> None) shown).
  { apply List.Forall_forall. intros o Ho.
    rewrite List.Forall_forall in Hdef.
    apply Hdef, (getFilteredOptions_In chain f), Ho. }
  split; [exact Hdef|].
  destruct (analytics_key key) eqn:Ek.
  - pose proof (Hcontract OptionContract cmp shown
                  (compareOptions_consistent_undefined key direction shown Hshown))
      as (Hperm & Hasc & Hstable).
    repeat split; try assumption.
    intros _. apply sort_undefined_keys; assumption.
  - pose proof (Hcontract OptionContract cmp shown
                  (compareOptions_consistent key direction shown Hshown))
      as (Hperm & Hasc & Hstable).
    repeat split; try assumption. intros H. discriminate H.
Qed.

Lemma processed_chain_sorts_witness :
  let chain :=
    fst (NousMain.processOptionsData (H := RefHost.host) RefHost.now
           {| data_note := false; data_data := Some 1%nat;
              data_Error_Message := None; data_Note := false |} "AAPL" 0%nat) in
  let shown := getFilteredOptions (Some chain) initialFilters in
  let cmp := compareOptions k_delta asc in
  let sorted := getSortedOptions (H := insertion_engine) shown (Some (k_delta, asc)) in
  Forall (fun o => if analytics_key k_delta then field k_delta o = None
                   else field k_delta o <> None)
    (calls chain ++ puts chain)
  /\ Permutation shown sorted
  /\ ascending cmp sorted
  /\ (forall a, In a shown -> equal_to cmp a sorted = equal_to cmp a shown)
  /\ (analytics_key k_delta = true -> sorted = shown).
Proof.
  apply (processed_chain_sorts (HOST := RefHost.host) (E := insertion_engine)
           RefHost.now
           {| data_note := false; data_data := Some 1%nat;
              data_Error_Message := None; data_Note := false |} "AAPL" 0%nat
           initialFilters k_delta asc).
  - discriminate.
  - exact insertion_engine_contract.
Defined.

(** ** The cache: what a request leaves alone *)

(** X18: A call of the cached [fetchOptionsData] removes no entry of the
    cache and leaves the entries under every other key as they are; when it
    returns [null] the cache is unchanged, and otherwise the cache is
    unchanged or holds the returned chain under the key of the upper-cased
    symbol with the time of the call. *)
Theorem fetchOptionsData_cache_frame `{HOST : Host}
    (cache : gmap string NousMain.CacheEntry) (now : Z)
    (outcome : FetchOutcome) (later : Z) (symbol : string) (n : nat) :
  let result := NousMain.fetchOptionsData cache now outcome later symbol n in
  let returned := fst (fst (fst result)) in
  let cache' := snd (fst (fst result)) in
  let cacheKey := ("options_" +:+ toUpperCase symbol)%string in
  (forall k, k <> cacheKey -> cache' !! k = cache !! k)
  /\ (forall k, is_Some (cache !! k) -> is_Some (cache' !! k))
  /\ (returned = None -> cache' = cache)
  /\ (cache' = cache
      \/ exists chain,
           returned = Some chain
           /\ cache' = <[cacheKey := {| NousMain.data := chain;
                                        NousMain.timestamp := now |}]> cache).
Proof.
  intros result returned cache' cacheKey.
  assert (Hcases :
            (cache' = cache
             /\ (returned = None
                 \/ exists entry, cache !! cacheKey = Some entry
                                  /\ returned = Some (NousMain.data entry)))
            \/ exists chain,
                 returned = Some chain
                 /\ cache' = <[cacheKey := {| NousMain.data := chain;
                                              NousMain.timestamp := now |}]> cache).
  { unfold returned, cache', result, NousMain.fetchOptionsData.
    fold cacheKey.
    assert (Hfresh : forall m,
               m = match outcome with
                   | FetchRejected message =>
                       ret (None, cache,
                            [ ConsoleError "Error fetching options data:";
                              Toast "error"
                                ("Failed to fetch options data: " +:+ message) "" ])
                   | FetchResponse ok status body =>
                       if negb ok then
                         ret (None, cache,
                              [ ConsoleError "Error fetching options data:";
                                Toast "error"
                                  ("Failed to fetch options data: "
                                     +:+ ("API request failed with status: "
                                            +:+ Z_toString status)) "" ])
                       else
                         match body with
                         | JsonError message =>
                             ret (None, cache,
                                  [ ConsoleError "Error fetching options data:";
                                    Toast "error"
                                      ("Failed to fetch options data: " +:+ message)
                                      "" ])
                         | JsonValue d =>
                             match data_Error_Message d with
                             | Some message =>
                                 ret (None, cache,
                                      [ ConsoleError "Error fetching options data:";
                                        Toast "error"
                                          ("Failed to fetch options data: "
                                             +:+ message) "" ])
                             | None =>
                                 if data_Note d then
                                   ret (None, cache,
                                        [ Toast "warning"
                                            "API call frequency limit reached. Please try again later."
                                            "" ])
                                 else
                                   let* processedData :=
                                     NousMain.processOptionsData later d symbol in
                                   ret (Some processedData,
                                        <[cacheKey := {|
                                            NousMain.data := processedData;
                                            NousMain.timestamp := now |}]> cache,
                                        [])
                             end
                         end
                   end n ->
               (snd (fst (fst m)) = cache /\ fst (fst (fst m)) = None)
               \/ exists chain,
                    fst (fst (fst m)) = Some chain
                    /\ snd (fst (fst m))
                       = <[cacheKey := {| NousMain.data := chain;
                                          NousMain.timestamp := now |}]> cache).
    { intros m ->.
      destruct outcome as [msg|ok status body]; [left; split; reflexivity|].
      destruct ok; [|left; split; reflexivity].
      destruct body as [msg|d]; [left; split; reflexivity|].
      cbn [negb].
      destruct (data_Error_Message d); [left; split; reflexivity|].
      destruct (data_Note d); [left; split; reflexivity|].
      right. unfold bind, ret.
      destruct (NousMain.processOptionsData later d symbol n) as [chain n'].
      exists chain. split; reflexivity. }
    destruct (cache !! cacheKey) as [entry|] eqn:Elook.
    - destruct (now - NousMain.timestamp entry <? NousMain.CACHE_EXPIRY)%Z.
      + left. split; [reflexivity|]. right. exists entry.
        split; reflexivity.
      + destruct (Hfresh _ eq_refl) as [[H1 H2]|H]; [left|right; exact H].
        split; [exact H1 | left; exact H2].
    - destruct (Hfresh _ eq_refl) as [[H1 H2]|H]; [left|right; exact H].
      split; [exact H1 | left; exact H2]. }
  split.
  { intros k Hk. destruct Hcases as [[-> _]|(chain & _ & ->)]; [reflexivity|].
    apply lookup_insert_ne. congruence. }
  split.
  { intros k Hk. destruct Hcases as [[-> _]|(chain & _ & ->)]; [exact Hk|].
    destruct (decide (k = cacheKey)) as [->|Hne].
    - rewrite lookup_insert_eq. eexists. reflexivity.
    - rewrite lookup_insert_ne by congruence. exact Hk. }
  split.
  { intros Hnone. destruct Hcases as [[-> _]|(chain & Hsome & _)]; [reflexivity|].
    rewrite Hsome in Hnone. discriminate Hnone. }
  destruct Hcases as [[H _]|H]; [left; exact H | right; exact H].
Qed.

(** ** The reasons of [nous-main] *)

(** X19: [getRecommendationReasons] of [nous-main] returns between one
    and five reasons: the sentences it pushed when there is one, and the
    fall-back sentence alone otherwise; the fall-back sentence is never one
    of the pushed sentences. *)
Theorem nous_reasons_never_empty (opt : OptionContract) :
  let reasons := NousMain.getRecommendationReasons opt in
  (1 <= length reasons <= 5)%nat
  /\ (NousMain.pushedReasons opt = [] ->
      reasons = [ "Based on balanced risk-reward profile"%string ])
  /\ (NousMain.pushedReasons opt <> [] -> reasons = NousMain.pushedReasons opt)
  /\ ~ In "Based on balanced risk-reward profile"%string
         (NousMain.pushedReasons opt).
Proof.
  intros reasons.
  assert (Hlen : (length (NousMain.pushedReasons opt) <= 5)%nat).
  { unfold NousMain.pushedReasons. rewrite !length_app.
    destruct (delta opt) as [dl|];
      [destruct (negb (Qeq_bool dl 0) && Qltb 0.5 (Math_abs dl))|];
      (destruct (Qltb 0.3 (impliedVolatility opt));
       [|destruct (Qltb (impliedVolatility opt) 0.2)]);
      destruct (NousMain.high_volume_ratio opt);
      (destruct (gamma opt) as [g|]; [destruct (Qltb 0.03 g)|]);
      (destruct (theta opt) as [t|]; [destruct (Qltb 0.03 (Math_abs t))|]);
      cbn; lia. }
  unfold reasons, NousMain.getRecommendationReasons.
  destruct (NousMain.pushedReasons opt) as [|r rs] eqn:E.
  - cbn. repeat split; try lia; try congruence; try (intros []).
  - cbn [length Nat.ltb Nat.leb] in *.
    split; [lia|]. split; [intros H; discriminate H|].
    split; [reflexivity|].
    rewrite <- E. unfold NousMain.pushedReasons.
    rewrite !in_app_iff.
    intros [H|[H|[H|[H|H]]]];
      repeat match type of H with
             | In _ (match ?o with Some _ => _ | None => _ end) =>
                 destruct o
             | In _ (if ?b then _ else _) => destruct b
             end;
      cbn [In] in H;
      repeat match type of H with
             | _ \/ _ => destruct H as [H|H]
             | False => destruct H
             end;
      discriminate H.
Qed.

(** ** Sort requests *)

Lemma js_lt_asym (x y : JsValue) : js_lt x y = true -> js_lt y x = false.
Proof.
  intros Hxy. destruct (js_lt y x) eqn:Hyx; [|reflexivity].
  pose proof (js_lt_trans x y x Hxy Hyx) as Hxx.
  rewrite js_lt_irrefl in Hxx. discriminate Hxx.
Qed.

(** X20: The comparison function of the table is antisymmetric, and the
    descending comparison is the ascending one with its arguments exchanged;
    requesting a key twice in a row gives the direction opposite to the
    first request, and requesting a key after another key gives ascending
    order. *)
Theorem compareOptions_directions (key : ContractKey) (a b : OptionContract) :
  (forall direction,
      compareOptions key direction b a = (- compareOptions key direction a b)%Z)
  /\ compareOptions key desc a b = compareOptions key asc b a
  /\ (forall sortConfig,
        requestSort (requestSort sortConfig key) key
        = Some (key, match requestSort sortConfig key with
                     | Some (_, asc) => desc
                     | _ => asc
                     end))
  /\ (forall sortConfig key',
        key' <> key ->
        requestSort (requestSort sortConfig key') key = Some (key, asc)).
Proof.
  assert (Hanti : forall direction,
             compareOptions key direction b a
             = (- compareOptions key direction a b)%Z).
  { intros direction. unfold compareOptions.
    destruct (field key a) as [va|], (field key b) as [vb|]; try reflexivity.
    destruct (js_lt va vb) eqn:E1.
    - rewrite (js_lt_asym va vb E1). destruct direction; reflexivity.
    - destruct (js_lt vb va); destruct direction; reflexivity. }
  split; [exact Hanti|].
  split.
  { rewrite (Hanti asc). unfold compareOptions.
    destruct (field key a) as [va|], (field key b) as [vb|]; try reflexivity.
    destruct (js_lt va vb), (js_lt vb va); reflexivity. }
  split.
  { intros sortConfig. unfold requestSort.
    destruct sortConfig as [[k [|]]|];
      try destruct (ContractKey_eq_dec k key);
      destruct (ContractKey_eq_dec key key); try reflexivity; congruence. }
  intros sortConfig key' Hne. unfold requestSort.
  destruct sortConfig as [[k [|]]|];
    try destruct (ContractKey_eq_dec k key');
    destruct (ContractKey_eq_dec key' key); try reflexivity; congruence.
Qed.

Lemma headerClick_keeps (config : list Column) (clicks : list Column) :
  Forall (fun column => In column config) clicks ->
  forall sortConfig key direction,
    sortConfig = Some (key, direction) ->
    In key (sortable_keys config) ->
    exists key' direction',
      List.fold_left headerClick clicks sortConfig = Some (key', direction')
      /\ In key' (sortable_keys config).
Proof.
  induction 1 as [|column clicks Hc Hall IH]; intros sortConfig key direction E Hk.
  - exists key, direction. split; assumption.
  - cbn [List.fold_left]. unfold headerClick at 2.
    destruct (column_sortable column) eqn:Es.
    + unfold requestSort.
      eapply IH; [reflexivity|].
      unfold sortable_keys. apply List.in_map, List.filter_In.
      split; assumption.
    + eapply IH; eassumption.
Qed.

(** X21: From the initial sort, by strike ascending, every sequence of
    clicks on column headers leaves a sort configuration whose key is a
    sortable column, never [confidence]; in the earlier table it is never
    one of the analytics keys either. *)
Theorem sortConfig_stays_sortable (clicks : list Column) :
  (Forall (fun column => In column columnConfig) clicks ->
   exists key direction,
     List.fold_left headerClick clicks initialSortConfig = Some (key, direction)
     /\ In key (sortable_keys columnConfig)
     /\ key <> k_confidence)
  /\ (Forall (fun column => In column EarlierTable.columnConfig) clicks ->
      exists key direction,
        List.fold_left headerClick clicks initialSortConfig
        = Some (key, direction)
        /\ In key (sortable_keys EarlierTable.columnConfig)
        /\ key <> k_confidence /\ analytics_key key = false).
Proof.
  split; intros Hclicks.
  - destruct (headerClick_keeps columnConfig clicks Hclicks initialSortConfig
                k_strike asc eq_refl) as (key & direction & E & Hin).
    { cbn. left. reflexivity. }
    exists key, direction. split; [exact E|]. split; [exact Hin|].
    cbn in Hin.
    repeat (destruct Hin as [<-|Hin]; [discriminate|]). destruct Hin.
  - destruct (headerClick_keeps EarlierTable.columnConfig clicks Hclicks
                initialSortConfig k_strike asc eq_refl)
      as (key & direction & E & Hin).
    { cbn. left. reflexivity. }
    exists key, direction. split; [exact E|]. split; [exact Hin|].
    cbn in Hin.
    repeat (destruct Hin as [<-|Hin]; [split; [discriminate | reflexivity]|]).
    destruct Hin.
Qed.

(** ** The renderings of the valuation *)

(** X22: The badge, the highlight of the row, the colour of the cell of
    the volatility difference and the analysis list agree on the thresholds
    2 and -2: above 2 a highlighted row with the badge Buy, the profit
    colour and the line Undervalued; below -2 a row without highlight with
    the badge Avoid, the loss colour and the line Overvalued; in between no
    badge, no colour and the line on fair value; without a difference
    nothing.  The magnitude in the texts always carries a plus sign. *)
Theorem valuation_renderings_agree (o : OptionContract) :
  (forall d,
      volatilityDifference o = Some d -> 2 < d ->
      getRecommendationBadge o
      = Some {| badge_class := "profit"; badge_label := "Buy";
                badge_title := "Recommended Investment";
                badge_text :=
                  ("Undervalued by "
                     +:+ ("+" +:+ toFixed_string 3 (Math_abs d) +:+ "%")
                     +:+ ". Predicted IV is higher than market IV.")%string |}
      /\ rowHighlight o = "bg-option-highlight"%string
      /\ getColumnClassName k_volatilityDifference (volatilityDifference o)
         = " text-profit font-medium"%string
      /\ volatilityAnalysis o
         = Some [ ("text-profit",
                   "Undervalued by "
                     +:+ ("+" +:+ toFixed_string 3 (Math_abs d) +:+ "%"));
                  ("text-muted-foreground",
                   "Our model predicts higher volatility than the market is pricing in");
                  ("text-muted-foreground",
                   "Potential opportunity for a profitable trade") ]%string)
  /\ (forall d,
        volatilityDifference o = Some d -> d < -2 ->
        getRecommendationBadge o
        = Some {| badge_class := "loss"; badge_label := "Avoid";
                  badge_title := "Not Recommended";
                  badge_text :=
                    ("Overvalued by "
                       +:+ ("+" +:+ toFixed_string 3 (Math_abs d) +:+ "%")
                       +:+ ". Market IV is higher than predicted IV.")%string |}
        /\ rowHighlight o = ""%string
        /\ getColumnClassName k_volatilityDifference (volatilityDifference o)
           = " text-loss font-medium"%string
        /\ volatilityAnalysis o
           = Some [ ("text-loss",
                     "Overvalued by "
                       +:+ ("+" +:+ toFixed_string 3 (Math_abs d) +:+ "%"));
                    ("text-muted-foreground",
                     "The market is pricing in higher volatility than our model predicts");
                    ("text-muted-foreground",
                     "Consider avoiding this contract or selling if owned") ]%string)
  /\ (forall d,
        volatilityDifference o = Some d -> -2 <= d <= 2 ->
        getRecommendationBadge o = None
        /\ rowHighlight o = ""%string
        /\ getColumnClassName k_volatilityDifference (volatilityDifference o)
           = ""%string
        /\ volatilityAnalysis o
           = Some [ ("text-muted-foreground",
                     "Contract is fairly valued (within 2% volatility difference)") ]%string)
  /\ (volatilityDifference o = None ->
      getRecommendationBadge o = None
      /\ rowHighlight o = ""%string
      /\ getColumnClassName k_volatilityDifference (volatilityDifference o)
         = ""%string
      /\ volatilityAnalysis o = None).
Proof.
  assert (Habs : forall d, Qle_bool (Math_abs d) 2 = true <-> -2 <= d <= 2).
  { intros d. rewrite Qle_bool_iff. unfold Math_abs.
    rewrite Qabs_Qle_condition. reflexivity. }
  unfold getRecommendationBadge, rowHighlight, getColumnClassName,
    profit_loss_class, volatilityAnalysis, formatValue.
  split; [|split; [|split]].
  - intros d -> Hd.
    assert (Hpos : Qltb 0 (Math_abs d) = true).
    { apply Qltb_true. unfold Math_abs. rewrite Qabs_pos; lra. }
    replace (Qltb 2 d) with true by (symmetry; apply Qltb_true; lra).
    replace (Qltb d (-2)) with false by (symmetry; apply Qltb_false; lra).
    replace (Qeq_bool d 0) with false
      by (symmetry; apply not_true_iff_false; intros E;
          apply Qeq_bool_iff in E; lra).
    replace (Qle_bool (Math_abs d) 2) with false
      by (symmetry; apply not_true_iff_false; intros E; apply Habs in E; lra).
    rewrite Hpos. cbn. repeat split; reflexivity.
  - intros d -> Hd.
    assert (Hpos : Qltb 0 (Math_abs d) = true).
    { apply Qltb_true. unfold Math_abs. rewrite Qabs_neg; lra. }
    replace (Qltb 2 d) with false by (symmetry; apply Qltb_false; lra).
    replace (Qltb d (-2)) with true by (symmetry; apply Qltb_true; lra).
    replace (Qltb d (- (2))) with true by (symmetry; apply Qltb_true; lra).
    replace (Qle_bool (Math_abs d) 2) with false
      by (symmetry; apply not_true_iff_false; intros E; apply Habs in E; lra).
    rewrite Hpos. cbn. rewrite andb_false_r. repeat split; reflexivity.
  - intros d -> Hd.
    replace (Qltb 2 d) with false by (symmetry; apply Qltb_false; lra).
    replace (Qltb d (-2)) with false by (symmetry; apply Qltb_false; lra).
    replace (Qltb d (- (2))) with false by (symmetry; apply Qltb_false; lra).
    replace (Qle_bool (Math_abs d) 2) with true
      by (symmetry; apply Habs; exact Hd).
    cbn. rewrite andb_false_r. repeat split; reflexivity.
  - intros ->. repeat split; reflexivity.
Qed.

(** ** The expiration select *)

(** X23: For filters whose date is not the literal [all_dates],
    handing the value shown by the expiration select back to
    [handleExpiryChange] changes neither the filtered contracts nor the
    value shown; the date afterwards is never the empty string, and filters
    whose date is not the empty string are unchanged. *)
Theorem handleExpiryChange_round_trip (chain : option OptionChain)
    (f : OptionsFilters) :
  filterExpiryDate f <> Some "all_dates"%string ->
  let f' := handleFilterChange f (handleExpiryChange (expirySelectValue f)) in
  getFilteredOptions chain f' = getFilteredOptions chain f
  /\ expirySelectValue f' = expirySelectValue f
  /\ filterExpiryDate f' <> Some ""%string
  /\ (filterExpiryDate f <> Some ""%string -> f' = f).
Proof.
  intros Hne f'. unfold f', handleFilterChange, handleExpiryChange,
    expirySelectValue, getFilteredOptions.
  destruct f as [t ot e mn mx mo mv sr]. cbn in Hne |- *.
  destruct e as [d|]; cbn.
  - destruct (String.eqb d "") eqn:E0; cbn.
    + apply String.eqb_eq in E0. subst d.
      repeat split; try reflexivity; try discriminate.
      intros H. exfalso. apply H. reflexivity.
    + destruct (String.eqb d "all_dates") eqn:E1.
      { apply String.eqb_eq in E1. subst d. exfalso. apply Hne. reflexivity. }
      cbn. rewrite E0.
      repeat split; try reflexivity.
      intros H. injection H as ->. discriminate E0.
  - repeat split; try reflexivity; discriminate.
Qed.

Lemma handleExpiryChange_round_trip_witness :
  let f' :=
    handleFilterChange initialFilters
      (handleExpiryChange (expirySelectValue initialFilters)) in
  getFilteredOptions (Some ref_chain) f'
  = getFilteredOptions (Some ref_chain) initialFilters
  /\ expirySelectValue f' = expirySelectValue initialFilters
  /\ filterExpiryDate f' <> Some ""%string
  /\ (filterExpiryDate initialFilters <> Some ""%string -> f' = initialFilters).
Proof.
  apply (handleExpiryChange_round_trip (Some ref_chain) initialFilters).
  discriminate.
Defined.

(** ** Resetting the strike range *)

(** X24: When every strike of a chain lies in its strike range,
    [handleResetStrikeRange] emits an update after which the page shows the
    same contracts as without strike bounds. *)
Theorem handleResetStrikeRange_shows_all (chain : OptionChain)
    (f : OptionsFilters) :
  Forall (fun o => strikeMin (strikeRange chain) <= strike o
                   <= strikeMax (strikeRange chain))
    (calls chain ++ puts chain) ->
  exists update,
    handleResetStrikeRange (Some (strikeRange chain)) = Some update
    /\ getFilteredOptions (Some chain) (handleFilterChange f update)
       = getFilteredOptions (Some chain) (handleFilterChange f no_strike_bounds).
Proof.
  intros Hall. eexists. split; [reflexivity|].
  rewrite !getFilteredOptions_conj.
  cbn [handleFilterChange optionType new_optionType no_strike_bounds
       applyStrikeRange default].
  apply List.filter_ext_in. intros o Ho.
  rewrite List.Forall_forall in Hall.
  specialize (Hall o (chain_side_In chain _ o Ho)).
  unfold passes_expiry, passes_minStrike, passes_maxStrike, passes_moneyness,
    passes_minVolume, passes_recommended.
  cbn.
  replace (Qle_bool (strikeMin (strikeRange chain)) (strike o)) with true
    by (symmetry; apply Qle_bool_iff; lra).
  replace (Qle_bool (strike o) (strikeMax (strikeRange chain))) with true
    by (symmetry; apply Qle_bool_iff; lra).
  reflexivity.
Qed.

Lemma generated_strikes_in_range `{HOST : Host} (now : Z) (symbol : string)
    (n : nat) :
  let chain := fst (generateMockOptionsData now symbol n) in
  Forall (fun o => strikeMin (strikeRange chain) <= strike o
                   <= strikeMax (strikeRange chain))
    (calls chain ++ puts chain).
Proof.
  intros chain.
  destruct (generateMockOptionsData_parts now symbol n)
    as (n1 & n2 & Hrange & _).
  fold chain in Hrange.
  apply generateMockOptionsData_Forall.
  intros type expiry dateIndex m strike0 n' _ Hk.
  match goal with
  | |- _ <= strike (fst (generateMockOptions_strike ?a ?b ?t ?p ?e ?i ?T ?r ?k ?n)) <= _ =>
      rewrite (proj1 (strike_strike a b t p e i T r k n))
  end.
  apply Hrange, Hk.
Qed.

Lemma handleResetStrikeRange_shows_all_witness :
  exists update,
    handleResetStrikeRange (Some (strikeRange ref_chain)) = Some update
    /\ getFilteredOptions (Some ref_chain) (handleFilterChange initialFilters update)
       = getFilteredOptions (Some ref_chain)
           (handleFilterChange initialFilters no_strike_bounds).
Proof.
  exact (handleResetStrikeRange_shows_all ref_chain initialFilters
           (generated_strikes_in_range (HOST := RefHost.host) RefHost.now
              "AAPL" 0%nat)).
Defined.

(** ** Loading a chain into the page *)

(** X25: [loadOptionsData] first shows the loading state over the chain
    that was there, and ends not loading with the result of
    [fetchOptionsData] as the chain: the cached chain while the entry of the
    symbol is younger than the time to live, and no chain, hence an empty
    table, when there is no such entry and the request gives nothing to
    process, the cache being unchanged in both cases. *)
Theorem loadOptionsData_shows_fetched `{HOST : Host} (page : PageState)
    (cache : gmap string NousMain.CacheEntry) (now : Z)
    (outcome : FetchOutcome) (later : Z) (symbol : string) (n : nat) :
  let loaded := loadOptionsData page cache now outcome later symbol n in
  let fetched := NousMain.fetchOptionsData cache now outcome later symbol n in
  let states := fst (fst (fst loaded)) in
  let cache' := snd (fst (fst loaded)) in
  let final := List.last states page in
  List.hd_error states
  = Some {| loading := true; optionChain := optionChain page |}
  /\ loading final = false
  /\ optionChain final = fst (fst (fst fetched))
  /\ cache' = snd (fst (fst fetched))
  /\ (forall entry,
        cache !! ("options_" +:+ toUpperCase symbol)%string = Some entry ->
        (now - NousMain.timestamp entry < NousMain.CACHE_EXPIRY)%Z ->
        optionChain final = Some (NousMain.data entry) /\ cache' = cache)
  /\ (stale cache symbol now = true -> usable outcome = None ->
      optionChain final = None
      /\ (forall f, getFilteredOptions (optionChain final) f = [])
      /\ cache' = cache).
Proof.
  intros loaded fetched states cache' final.
  assert (Hfinal : optionChain final = fst (fst (fst fetched))
                   /\ cache' = snd (fst (fst fetched))).
  { unfold final, cache', states, loaded, loadOptionsData, bind, ret.
    fold fetched. destruct fetched as [[[data0 cache0] notices] n']. 
    split; reflexivity. }
  destruct Hfinal as [Hchain Hcache].
  split.
  { unfold states, loaded, loadOptionsData, bind, ret.
    destruct (NousMain.fetchOptionsData cache now outcome later symbol n)
      as [[[data0 cache0] notices] n'].
    reflexivity. }
  split.
  { unfold final, states, loaded, loadOptionsData, bind, ret.
    destruct (NousMain.fetchOptionsData cache now outcome later symbol n)
      as [[[data0 cache0] notices] n'].
    reflexivity. }
  split; [exact Hchain|]. split; [exact Hcache|].
  split.
  - intros entry Hlook Hfresh.
    rewrite Hchain, Hcache. unfold fetched.
    rewrite (fetch_hit cache now outcome later symbol n entry Hlook Hfresh).
    split; reflexivity.
  - intros Hstale Hbad.
    pose proof (fetch_null cache now outcome later symbol n Hstale Hbad)
      as Hnull.
    fold fetched in Hnull.
    assert (Hnone : optionChain final = None) by (rewrite Hchain, Hnull; reflexivity).
    split; [exact Hnone|].
    split; [intros f; rewrite Hnone; reflexivity|].
    rewrite Hcache, Hnull. reflexivity.
Qed.

(** ** The ticker field *)

Lemma upper_ascii_idem (c : ascii) : upper_ascii (upper_ascii c) = upper_ascii c.
Proof. destruct c as [[] [] [] [] [] [] [] []]; reflexivity. Qed.

Lemma is_whitespace_upper (c : ascii) :
  is_whitespace (upper_ascii c) = is_whitespace c.
Proof. destruct c as [[] [] [] [] [] [] [] []]; reflexivity. Qed.

Lemma toUpperCase_list (s : string) :
  toUpperCase s
  = string_of_list_ascii (List.map upper_ascii (list_ascii_of_string s)).
Proof.
  induction s as [|c s IH]; [reflexivity|]. cbn. rewrite IH. reflexivity.
Qed.

Lemma toUpperCase_idem (s : string) : toUpperCase (toUpperCase s) = toUpperCase s.
Proof.
  induction s as [|c s IH]; [reflexivity|].
  cbn. rewrite upper_ascii_idem, IH. reflexivity.
Qed.

Lemma trimStart_list_upper (l : list ascii) :
  trimStart_list (List.map upper_ascii l)
  = List.map upper_ascii (trimStart_list l).
Proof.
  induction l as [|c l IH]; [reflexivity|].
  cbn. rewrite is_whitespace_upper.
  destruct (is_whitespace c); [exact IH | reflexivity].
Qed.

Lemma trimStart_list_suffix (l : list ascii) :
  exists p, l = p ++ trimStart_list l.
Proof.
  induction l as [|c l [p IH]]; [exists []; reflexivity|].
  cbn. destruct (is_whitespace c).
  - exists (c :: p). cbn. f_equal. exact IH.
  - exists []. reflexivity.
Qed.

Lemma trimStart_list_head (l : list ascii) (c : ascii) (l' : list ascii) :
  trimStart_list l = c :: l' -> is_whitespace c = false.
Proof.
  induction l as [|a l IH]; [discriminate|].
  cbn. destruct (is_whitespace a) eqn:E; [exact IH|].
  intros H. injection H as -> _. exact E.
Qed.

Lemma trimStart_list_fixed (l : list ascii) :
  (forall c l', l = c :: l' -> is_whitespace c = false) ->
  trimStart_list l = l.
Proof.
  destruct l as [|c l]; [reflexivity|].
  intros H. cbn. rewrite (H c l eq_refl). reflexivity.
Qed.

Lemma trimStart_list_idem (l : list ascii) :
  trimStart_list (trimStart_list l) = trimStart_list l.
Proof.
  apply trimStart_list_fixed. intros c l' E.
  exact (trimStart_list_head l c l' E).
Qed.

(** What [trim] does on the list of code units. *)
Lemma trim_list_idem (l : list ascii) :
  let trimmed := List.rev (trimStart_list (List.rev (trimStart_list l))) in
  List.rev (trimStart_list (List.rev (trimStart_list trimmed))) = trimmed.
Proof.
  intros trimmed.
  assert (Hhead : trimStart_list trimmed = trimmed).
  { apply trimStart_list_fixed. intros c l' E. unfold trimmed in E.
    destruct (trimStart_list_suffix (List.rev (trimStart_list l))) as [p Hp].
    set (t := trimStart_list (List.rev (trimStart_list l))) in *.
    assert (Hl : trimStart_list l = List.rev t ++ List.rev p).
    { rewrite <- List.rev_app_distr, <- Hp, List.rev_involutive. reflexivity. }
    rewrite E in Hl. cbn in Hl.
    exact (trimStart_list_head l c _ Hl). }
  rewrite Hhead. unfold trimmed.
  rewrite List.rev_involutive, trimStart_list_idem. reflexivity.
Qed.

Lemma trim_idem (s : string) : trim (trim s) = trim s.
Proof.
  unfold trim. rewrite list_ascii_of_string_of_list_ascii.
  f_equal. apply trim_list_idem.
Qed.

Lemma trim_toUpperCase (s : string) : trim (toUpperCase s) = toUpperCase (trim s).
Proof.
  unfold trim. rewrite !toUpperCase_list.
  rewrite !list_ascii_of_string_of_list_ascii.
  rewrite trimStart_list_upper, <- List.map_rev, trimStart_list_upper,
    <- List.map_rev.
  reflexivity.
Qed.

Lemma toUpperCase_empty (s : string) : toUpperCase s = ""%string -> s = ""%string.
Proof. destruct s; [reflexivity | discriminate]. Qed.

(** X26: For a ticker of ASCII code units, [handleTickerSearch] emits
    nothing exactly when the trimmed ticker is empty; otherwise it emits the
    ticker alone, trimmed and in upper case, which is not empty, is
    unchanged by trimming and by upper-casing, and emits the same update
    when it is submitted again. *)
Theorem handleTickerSearch_normalizes (ticker : string) :
  is_ascii_string ticker = true ->
  (handleTickerSearch ticker = None <-> trim ticker = ""%string)
  /\ forall update,
       handleTickerSearch ticker = Some update ->
       exists s,
         update = ticker_update s
         /\ s = toUpperCase (trim ticker)
         /\ s <> ""%string
         /\ trim s = s
         /\ toUpperCase s = s
         /\ handleTickerSearch s = Some update.
Proof.
  intros _.
  assert (Hblank : ticker = ""%string -> trim ticker = ""%string)
    by (intros ->; reflexivity).
  unfold handleTickerSearch at 1 2.
  destruct (String.eqb ticker "") eqn:E0; cbn [negb andb].
  - apply String.eqb_eq in E0. split; [|intros update H; discriminate H].
    split; [intros _; exact (Hblank E0) | reflexivity].
  - destruct (String.eqb (trim ticker) "") eqn:E1; cbn [negb].
    + apply String.eqb_eq in E1. split; [|intros update H; discriminate H].
      split; [intros _; exact E1 | reflexivity].
    + apply String.eqb_neq in E1. split.
      { split; [intros H; discriminate H | intros H; contradiction]. }
      intros update H. injection H as <-.
      set (s := toUpperCase (trim ticker)).
      assert (Hs : s <> ""%string).
      { intros E. apply E1, toUpperCase_empty, E. }
      assert (Ht : trim s = s).
      { unfold s. rewrite trim_toUpperCase, trim_idem. reflexivity. }
      assert (Hu : toUpperCase s = s) by apply toUpperCase_idem.
      exists s. repeat split; try assumption.
      unfold handleTickerSearch. rewrite Ht, Hu.
      apply String.eqb_neq in Hs. rewrite Hs. reflexivity.
Qed.

Lemma handleTickerSearch_normalizes_witness :
  (handleTickerSearch "  msft " = None <-> trim "  msft " = ""%string)
  /\ forall update,
       handleTickerSearch "  msft " = Some update ->
       exists s,
         update = ticker_update s
         /\ s = toUpperCase (trim "  msft ")
         /\ s <> ""%string
         /\ trim s = s
         /\ toUpperCase s = s
         /\ handleTickerSearch s = Some update.
Proof.
  apply (handleTickerSearch_normalizes "  msft "). reflexivity.
Defined.

(** ** The switch [Hide Low Volume] *)

(** X27: The switch for low volume reads back what was set; switched
    on, every contract shown has a volume of at least 100, and the contracts
    shown are those of the switched-off view with such a volume; switched
    off, the view is that of the filters without a minimum volume. *)
Theorem lowVolumeSwitch_hides_low_volume (chain : option OptionChain)
    (f : OptionsFilters) :
  let on := handleFilterChange f (handleLowVolumeSwitch true) in
  let off := handleFilterChange f (handleLowVolumeSwitch false) in
  lowVolumeSwitchChecked on = true
  /\ lowVolumeSwitchChecked off = false
  /\ Forall (fun o => (100 <= volume o)%Z) (getFilteredOptions chain on)
  /\ getFilteredOptions chain on
     = List.filter (fun o => (100 <=? volume o)%Z) (getFilteredOptions chain off)
  /\ getFilteredOptions chain off = getFilteredOptions chain (without_minVolume f).
Proof.
  intros on off.
  split; [reflexivity|]. split; [reflexivity|].
  destruct chain as [chain|]; [|repeat split; constructor].
  assert (Hshown : getFilteredOptions (Some chain) on
                   = List.filter (fun o => (100 <=? volume o)%Z)
                       (getFilteredOptions (Some chain) off)).
  { rewrite !getFilteredOptions_conj.
    rewrite filter_twice.
    apply List.filter_ext. intros o.
    unfold on, off, passes_expiry, passes_minStrike, passes_maxStrike,
      passes_moneyness, passes_minVolume, passes_recommended.
    cbn.
    replace (Qle_bool 100 (inject_Z (volume o))) with (100 <=? volume o)%Z.
    2:{ apply eq_true_iff_eq. rewrite Qle_bool_iff, Z.leb_le.
        change 100 with (inject_Z 100). rewrite <- Zle_Qle. reflexivity. }
    destruct (100 <=? volume o)%Z; cbn; rewrite ?andb_false_r, ?andb_true_r;
      reflexivity. }
  split.
  { rewrite Hshown. apply List.Forall_forall. intros o Ho.
    apply List.filter_In in Ho. apply Z.leb_le, Ho. }
  split; [exact Hshown|].
  rewrite !getFilteredOptions_conj. reflexivity.
Qed.
